(** * POWER-SUPPLaY transmitter: a shallow embedding and its properties

  The development follows the four C files of the transmitter:

  - [Modulation]  : src/transmitter/modulation.c (CRC-8, Manchester,
                    Hamming(7,4));
  - [Tone]        : src/transmitter/main.c (tone generator, FSK framing,
                    command line);
  - [Ofdm]        : src/transmitter/ofdm_transmitter.c (multi-carrier
                    frame);
  - [WavPlayer]   : src/transmitter/wav_player.c (sample mapping of the AM
                    playback path).

  C integers are mathematical integers of [Z] with the truncation of
  every assignment written out ([u8], [u16], [s32]).  Byte buffers are
  lists of [Z]; a buffer passed with its length is the list of that
  length.  The controller code is sequential: it is embedded as state
  passing over a record of the C globals plus the log of the calls it
  makes to the platform (barriers, threads, clock, sleeps, output
  streams).  The worker threads are not embedded as threads: of the
  OFDM workers the embedding keeps what the controller depends on,
  whether a worker reaches the start barrier, whether it divides by zero
  once it is keyed, and whether it can be joined; the controllers of
  main.c and wav_player.c are embedded without their workers.  The clock
  of main.c is ideal: time passes in [nanosleep] only, by the amount
  asked for. *)

From Stdlib Require Import String Ascii ZArith List Bool Lia.
Import ListNotations.
Local Open Scope Z_scope.

(** ** Machine integers *)

Definition u8 (x : Z) : Z := x mod 256.
Definition u16 (x : Z) : Z := x mod 65536.

(** Two's complement wrap-around of a 32-bit [int]. *)
Definition s32 (x : Z) : Z := (x + 2147483648) mod 4294967296 - 2147483648.

Definition is_byte (b : Z) : Prop := 0 <= b < 256.
Definition is_int16 (s : Z) : Prop := -32768 <= s <= 32767.

(** C truth value of a comparison. *)
Definition c_bool (b : bool) : Z := if b then 1 else 0.

(** [x ^ (1 << k)] inside a buffer: the byte at index [i] has bit [k]
  inverted; the other bytes are kept. *)
Fixpoint flip_bit (data : list Z) (i : nat) (k : Z) : list Z :=
match data, i with
| [], _ => []
| b :: rest, O => Z.lxor b (Z.shiftl 1 k) :: rest
| b :: rest, S i' => b :: flip_bit rest i' k
end.

(** ** modulation.c *)

Module Modulation.

Definition CRC8_POLYNOMIAL : Z := 0x07.

(** Body of the inner [for (j = 0; j < 8; j++)] of [calculate_crc8]. *)
Definition crc8_shift (crc : Z) : Z :=
  if negb (Z.land crc 0x80 =? 0)
  then u8 (Z.lxor (Z.shiftl crc 1) CRC8_POLYNOMIAL)
  else u8 (Z.shiftl crc 1).

Fixpoint crc8_inner (j : nat) (crc : Z) : Z :=
  match j with
  | O => crc
  | S j' => crc8_inner j' (crc8_shift crc)
  end.

(** The outer loop over [data[0 .. length-1]], [crc] being the running
    accumulator. *)
Fixpoint crc8_loop (data : list Z) (crc : Z) : Z :=
  match data with
  | [] => crc
  | b :: rest => crc8_loop rest (crc8_inner 8 (u8 (Z.lxor crc b)))
  end.

Definition calculate_crc8 (data : list Z) : Z := crc8_loop data 0x00.

Definition verify_crc8 (data : list Z) (expected_crc : Z) : Z :=
  let calculated_crc := calculate_crc8 data in
  c_bool (calculated_crc =? expected_crc).

(** [for (bit = 7; bit >= 0; bit--)] of [manchester_encode]; [n] is
    [bit + 1]. *)
Fixpoint manchester_encode_bits (n : nat) (byte encoded : Z) : Z :=
  match n with
  | O => encoded
  | S bit =>
      let encoded' :=
        if Z.land (Z.shiftr byte (Z.of_nat bit)) 1 =? 1
        then u16 (Z.lor (Z.shiftl encoded 2) 2)
        else u16 (Z.lor (Z.shiftl encoded 2) 1) in
      manchester_encode_bits bit byte encoded'
  end.

(** The result is the sequence of bytes stored through [output]. *)
Fixpoint manchester_encode (input : list Z) : list Z :=
  match input with
  | [] => []
  | byte :: rest =>
      let encoded := manchester_encode_bits 8 byte 0 in
      Z.land (Z.shiftr encoded 8) 0xFF :: Z.land encoded 0xFF
        :: manchester_encode rest
  end.

(** [for (j = 0; j < 8; j++)] of [manchester_decode]; [n] iterations are
    left, [j] is the loop counter.  [None] is the early [return -1]. *)
Fixpoint manchester_decode_symbols (n : nat) (j encoded decoded : Z)
  : option Z :=
  match n with
  | O => Some decoded
  | S n' =>
      let symbol := u8 (Z.land (Z.shiftr encoded (14 - j * 2)) 3) in
      if symbol =? 2 then
        manchester_decode_symbols n' (j + 1) encoded
          (u8 (Z.lor (Z.shiftl decoded 1) 1))
      else if symbol =? 1 then
        manchester_decode_symbols n' (j + 1) encoded
          (u8 (Z.lor (Z.shiftl decoded 1) 0))
      else None
  end.

(** The loop [for (i = 0; i < input_bytes; i += 2)]; [out] is what has
    been stored through [output] so far.  The result pairs the return
    value with the bytes written. *)
Fixpoint manchester_decode_loop (input out : list Z) : Z * list Z :=
  match input with
  | hi :: lo :: rest =>
      let encoded := u16 (Z.lor (Z.shiftl hi 8) lo) in
      match manchester_decode_symbols 8 0 encoded 0 with
      | None => (-1, out)
      | Some decoded => manchester_decode_loop rest (out ++ [decoded])
      end
  | _ => (0, out)
  end.

Definition manchester_decode (input : list Z) : Z * list Z :=
  if negb (Z.of_nat (length input) mod 2 =? 0) then (-1, [])
  else manchester_decode_loop input [].

Definition hamming74_encode (data : Z) : Z :=
  let d1 := Z.land (Z.shiftr data 0) 1 in
  let d2 := Z.land (Z.shiftr data 1) 1 in
  let d3 := Z.land (Z.shiftr data 2) 1 in
  let d4 := Z.land (Z.shiftr data 3) 1 in
  let p1 := Z.lxor (Z.lxor d1 d2) d4 in
  let p2 := Z.lxor (Z.lxor d1 d3) d4 in
  let p3 := Z.lxor (Z.lxor d2 d3) d4 in
  let encoded :=
    u8 (Z.lor (Z.lor (Z.lor (Z.lor (Z.lor (Z.lor
         (Z.shiftl p1 0) (Z.shiftl p2 1)) (Z.shiftl d1 2))
         (Z.shiftl p3 3)) (Z.shiftl d2 4)) (Z.shiftl d3 5))
         (Z.shiftl d4 6)) in
  encoded.

Definition hamming74_decode (encoded : Z) : Z :=
  let p1 := Z.land (Z.shiftr encoded 0) 1 in
  let p2 := Z.land (Z.shiftr encoded 1) 1 in
  let d1 := Z.land (Z.shiftr encoded 2) 1 in
  let p3 := Z.land (Z.shiftr encoded 3) 1 in
  let d2 := Z.land (Z.shiftr encoded 4) 1 in
  let d3 := Z.land (Z.shiftr encoded 5) 1 in
  let d4 := Z.land (Z.shiftr encoded 6) 1 in
  let s1 := Z.lxor (Z.lxor (Z.lxor p1 d1) d2) d4 in
  let s2 := Z.lxor (Z.lxor (Z.lxor p2 d1) d3) d4 in
  let s3 := Z.lxor (Z.lxor (Z.lxor p3 d2) d3) d4 in
  let syndrome := u8 (Z.lor (Z.lor (Z.shiftl s3 2) (Z.shiftl s2 1)) s1) in
  let '(d1, d2, d3, d4) :=
    if negb (syndrome =? 0) then
      let encoded := u8 (Z.lxor encoded (Z.shiftl 1 (syndrome - 1))) in
      (Z.land (Z.shiftr encoded 2) 1, Z.land (Z.shiftr encoded 4) 1,
       Z.land (Z.shiftr encoded 5) 1, Z.land (Z.shiftr encoded 6) 1)
    else (d1, d2, d3, d4) in
  u8 (Z.lor (Z.lor (Z.lor (Z.shiftl d4 3) (Z.shiftl d3 2)) (Z.shiftl d2 1))
        d1).

(** *** Framing and the remaining codecs of modulation.c *)

Definition PREAMBLE_LENGTH : Z := 8.
Definition PAYLOAD_SIZE : Z := 32.

(** [for (i = 0; i < length; i++)] of [generate_preamble]; [n] entries
    remain from index [i] on. *)
Fixpoint generate_preamble_from (n : nat) (i : Z) : list Z :=
  match n with
  | O => []
  | S n' =>
      (if i mod 2 =? 0 then 0xAA else 0x55)
        :: generate_preamble_from n' (i + 1)
  end.

(** The bytes stored through [preamble]; [length] is a [size_t]. *)
Definition generate_preamble (length : Z) : list Z :=
  generate_preamble_from (Z.to_nat length) 0.

Record frame_t : Type := mkFrame {
  preamble : list Z;
  payload : list Z;
  crc : Z
}.

(** [memset(dst, c, n)] over a buffer of [n] bytes. *)
Definition memset (c : Z) (n : Z) : list Z := repeat c (Z.to_nat n).

(** [memcpy(dst, src, n)]: the first [n] bytes of [dst] are replaced. *)
Definition memcpy (dst src : list Z) (n : nat) : list Z :=
  firstn n src ++ skipn n dst.

(** The return value and the frame behind [frame] afterwards. *)
Definition create_frame (frame : frame_t) (data : list Z) : Z * frame_t :=
  let data_length := Z.of_nat (length data) in
  if data_length >? PAYLOAD_SIZE then (-1, frame)
  else
    let preamble' := generate_preamble PREAMBLE_LENGTH in
    let payload' := memset 0 PAYLOAD_SIZE in
    let payload' := memcpy payload' data (length data) in
    let crc' := calculate_crc8 payload' in
    (0, mkFrame preamble' payload' crc').

Definition gray_encode (binary : Z) : Z :=
  u8 (Z.lxor binary (Z.shiftr binary 1)).

(** [while (gray >>= 1) binary ^= gray;].  [budget] bounds the number of
    evaluations of the loop condition; [None] when it is used up. *)
Fixpoint gray_decode_loop (budget : nat) (gray binary : Z) : option Z :=
  match budget with
  | O => None
  | S budget' =>
      let gray' := u8 (Z.shiftr gray 1) in
      if negb (gray' =? 0)
      then gray_decode_loop budget' gray' (u8 (Z.lxor binary gray'))
      else Some binary
  end.

(** [budget] evaluations of the condition are allowed for. *)
Definition gray_decode (budget : nat) (gray : Z) : option Z :=
  let binary := gray in
  gray_decode_loop budget gray binary.

(** The result pairs the spacing with whether the warning was printed;
    [None] is the division by zero of [num_channels = 0]. *)
Definition calculate_frequency_spacing
    (base_freq num_channels bandwidth : Z) : option (Z * bool) :=
  let min_spacing := 50 in
  if num_channels =? 0 then None
  else
    let optimal_spacing := s32 (Z.quot bandwidth num_channels) in
    if optimal_spacing <? min_spacing then Some (min_spacing, true)
    else Some (optimal_spacing, false).

(** The loop of [generate_hopping_sequence] from index [i] on.  [rand]
    gives the successive results of [rand()] after [srand(seed)], [prev]
    is [sequence[i - 1]]. *)
Fixpoint hopping_from (n : nat) (i : Z) (rand : nat -> Z)
    (base_freq range prev : Z) : list Z :=
  match n with
  | O => []
  | S n' =>
      let s := s32 (base_freq + Z.rem (rand (Z.to_nat i)) range) in
      let s :=
        if (i >? 0) && (Z.abs (s32 (s - prev)) <? 100)
        then s32 (base_freq + Z.rem (s32 (prev + 200)) range)
        else s in
      s :: hopping_from n' (i + 1) rand base_freq range s
  end.

(** The entries stored through [sequence].  [None] stands for a division
    by zero: [range / length] with [length = 0], or [rand() % range] with
    [range = 0] in the first iteration. *)
Definition generate_hopping_sequence (rand : nat -> Z)
    (length base_freq max_freq : Z) : option (list Z) :=
  let range := s32 (max_freq - base_freq) in
  if length =? 0 then None
  else
    let hop_size := Z.quot range length in
    if (0 <? length) && (range =? 0) then None
    else Some (hopping_from (Z.to_nat length) 0 rand base_freq range 0).

Definition is_audible_frequency (freq : Z) : Z :=
  c_bool ((freq >=? 20) && (freq <=? 20000)).

Definition is_ultrasonic_frequency (freq : Z) : Z :=
  c_bool ((freq >? 18000) && (freq <=? 24000)).

(** The entries stored through [freq_list]; [*count] is their number. *)
Definition get_covert_frequencies : list Z :=
  [18500; 19000; 19500; 20000; 20500; 21000; 21500; 22000].

End Modulation.

(** ** The bit-level reference CRC-8

  The register is a list of eight bits, most significant first.  One
  division step shifts the register left by one place and, when the bit
  shifted out is set, subtracts (xors) the generator [x^8 + x^2 + x + 1],
  whose low eight coefficients are 0x07.  A byte is xored into the
  register, then eight division steps follow. *)

Module Crc8Ref.

Definition reg := list bool.

Definition zero_reg : reg := repeat false 8.

(** Coefficients of [x^2 + x + 1], i.e. 0x07, most significant first. *)
Definition poly_bits : reg :=
  [false; false; false; false; false; true; true; true].

Fixpoint xor_bits (a b : reg) : reg :=
  match a, b with
  | x :: a', y :: b' => xorb x y :: xor_bits a' b'
  | _, _ => []
  end.

(** The bits of a byte, most significant first. *)
Definition bits_of_byte (b : Z) : reg :=
  map (fun i => Z.testbit b (Z.of_nat i)) (rev (seq 0 8)).

Fixpoint Z_of_bits_acc (r : reg) (acc : Z) : Z :=
  match r with
  | [] => acc
  | x :: r' => Z_of_bits_acc r' (2 * acc + Z.b2z x)
  end.

Definition Z_of_bits (r : reg) : Z := Z_of_bits_acc r 0.

Definition division_step (r : reg) : reg :=
  match r with
  | [] => []
  | msb :: rest =>
      let shifted := rest ++ [false] in
      if msb then xor_bits shifted poly_bits else shifted
  end.

Definition feed_byte (r : reg) (b : Z) : reg :=
  Nat.iter 8 division_step (xor_bits r (bits_of_byte b)).

Definition crc8_ref (data : list Z) : Z :=
  Z_of_bits (fold_left feed_byte data zero_reg).

End Crc8Ref.

(** ** The controller monad

  A computation of the controller takes the state of the globals and of
  the platform and either yields a value and the next state, or has no
  result ([None]): it runs out of the iteration budget given to a loop
  whose exit depends on the clock, its behaviour is not defined by C, the
  process is ended by a fault, or a call never returns. *)

Section Controller.

Variable world : Type.

Definition M (A : Type) : Type := world -> option (A * world).

Definition ret {A} (a : A) : M A := fun w => Some (a, w).

Definition bind {A B} (c : M A) (k : A -> M B) : M B :=
  fun w => match c w with
           | Some (a, w') => k a w'
           | None => None
           end.

(** A state update that cannot fail. *)
Definition act (f : world -> world) : M unit := fun w => Some (tt, f w).

(** A read of the state. *)
Definition gets {A} (f : world -> A) : M A := fun w => Some (f w, w).

(** No defined result. *)
Definition undefined {A} : M A := fun _ => None.

(** Final state of a run. *)
Definition exec {A} (c : M A) (w : world) : option world :=
  match c w with
  | Some (_, w') => Some w'
  | None => None
  end.

(** [for (i = lo; i < lo + n; i++) body(i)]. *)
Fixpoint for_up (n : nat) (lo : Z) (body : Z -> M unit) : M unit :=
  match n with
  | O => ret tt
  | S n' => bind (body lo) (fun _ => for_up n' (lo + 1) body)
  end.

(** [for (i = n - 1; i >= 0; i--) body(i)]. *)
Fixpoint for_down (n : nat) (body : Z -> M unit) : M unit :=
  match n with
  | O => ret tt
  | S i => bind (body (Z.of_nat i)) (fun _ => for_down i body)
  end.

(** [for (k = 0; k < len; k++) body(data[k])]. *)
Fixpoint for_each (data : list Z) (body : Z -> M unit) : M unit :=
  match data with
  | [] => ret tt
  | b :: rest => bind (body b) (fun _ => for_each rest body)
  end.

End Controller.

Arguments ret {world A} a.
Arguments bind {world A B} c k.
Arguments act {world} f.
Arguments gets {world A} f.
Arguments undefined {world A}.
Arguments exec {world A} c w.
Arguments for_up {world} n lo body.
Arguments for_down {world} n body.
Arguments for_each {world} data body.

Declare Scope ctl_scope.
Delimit Scope ctl_scope with ctl.
Notation "x <- c ;; k" := (bind c (fun x => k))
(at level 61, c at next level, right associativity) : ctl_scope.
Notation "c ;; k" := (bind c (fun _ => k))
(at level 61, right associativity) : ctl_scope.

(** ** main.c *)

Module Tone.

Definition NANO_PER_SECOND : Z := 1000000000.
Definition MAX_CORES : Z := 32.
Definition MIN_FREQ : Z := 20.
Definition MAX_FREQ : Z := 24000.

Inductive barrier : Type :=
| half_cycle_barrier_hi
| half_cycle_barrier_lo.

(** One constructor per [printf]/[fprintf] statement, with its
    arguments. *)
Inductive message : Type :=
| MsgInvalidFrequency (freq : Z)
| MsgGenerating (freq duration_ms num_cores : Z)
| MsgPreamble
| MsgTransmittingData (data_len : Z)
| MsgTransmittingCrc (crc : Z)
| MsgComplete
| MsgSignal (sig : Z)
| MsgUsage
| MsgRootWarning
| MsgToneArguments
| MsgFskArguments
| MsgCoresRange
| MsgFrequenciesRange
| MsgFskParameters (freq_0 freq_1 bit_duration_ms : Z) (msg : string)
    (cores : Z)
| MsgWavNotImplemented
| MsgUnknownMode (mode : string).

(** What the controller does to the platform, in program order.
    [EvGenerateTone] marks the entry into [generate_tone]. *)
Inductive event : Type :=
| EvGenerateTone (freq duration_ms num_cores : Z)
| EvStdout (m : message)
| EvStderr (m : message)
| EvBarrierInit (b : barrier) (count : Z)
| EvBarrierWait (b : barrier)
| EvBarrierDestroy (b : barrier)
| EvThreadCreate (core_id : Z)
| EvThreadCancel (core_id : Z)
| EvClockGettime (t : Z)
| EvNanosleep (nsec : Z)
| EvSignalInstall (sig : Z).

(** The globals of main.c, the monotonic clock (in nanoseconds) and the
    log of platform calls.  The clock is ideal: time passes only in
    [nanosleep], by the amount asked for, where a real [nanosleep] may
    return late and every other call takes time as well.  The order of
    the calls and the values of the globals do not depend on this; the
    number of cycles that fit into a duration does. *)
Record world : Type := mkWorld {
  running : Z;
  LO : Z;
  cycle_nano : Z;
  half_cycle_nano : Z;
  now : Z;
  euid : Z;
  log : list event
}.

Definition set_running (v : Z) (w : world) : world :=
  mkWorld v (LO w) (cycle_nano w) (half_cycle_nano w) (now w) (euid w)
    (log w).
Definition set_LO (v : Z) (w : world) : world :=
  mkWorld (running w) v (cycle_nano w) (half_cycle_nano w) (now w) (euid w)
    (log w).
Definition set_cycle_nano (v : Z) (w : world) : world :=
  mkWorld (running w) (LO w) v (half_cycle_nano w) (now w) (euid w) (log w).
Definition set_half_cycle_nano (v : Z) (w : world) : world :=
  mkWorld (running w) (LO w) (cycle_nano w) v (now w) (euid w) (log w).
Definition set_now (v : Z) (w : world) : world :=
  mkWorld (running w) (LO w) (cycle_nano w) (half_cycle_nano w) v (euid w)
    (log w).
Definition record (e : event) (w : world) : world :=
  mkWorld (running w) (LO w) (cycle_nano w) (half_cycle_nano w) (now w)
    (euid w) (log w ++ [e]).

(** The program as loaded: [running = 1], the other globals zero. *)
Definition initial_world (t uid : Z) : world := mkWorld 1 0 0 0 t uid [].

Local Open Scope ctl_scope.
Definition emit (e : event) : M world unit := act (record e).

(** [clock_gettime(CLOCK_MONOTONIC, ..)]. *)
Definition clock_gettime : M world Z :=
  t <- gets now ;; emit (EvClockGettime t) ;; ret t.

(** [nanosleep] with [tv_sec = 0]: a [tv_nsec] outside
    [0, 999999999] is refused (EINVAL) and no time passes. *)
Definition nanosleep (nsec : Z) : M world unit :=
  emit (EvNanosleep nsec) ;;
  if (0 <=? nsec) && (nsec <=? 999999999)
  then act (fun w => set_now (now w + nsec) w)
  else ret tt.

Definition validate_frequency (freq : Z) : Z :=
  c_bool ((freq >=? MIN_FREQ) && (freq <=? MAX_FREQ)).

Definition signal_handler (sig : Z) : M world unit :=
  emit (EvStdout (MsgSignal sig)) ;;
  act (set_running 0).

(** The main control loop of [generate_tone].  [budget] bounds the
    number of evaluations of the loop condition. *)
Fixpoint control_loop (budget : nat) (start duration_nano : Z) : M world unit :=
  match budget with
  | O => undefined
  | S budget' =>
      r <- gets running ;;
      if r =? 0 then ret tt else
      current <- clock_gettime ;;
      let elapsed := current - start in
      if elapsed >=? duration_nano then ret tt else
      act (set_LO 0) ;;
      emit (EvBarrierWait half_cycle_barrier_lo) ;;
      half_cycle_sleep <- gets half_cycle_nano ;;
      nanosleep half_cycle_sleep ;;
      act (set_LO 1) ;;
      emit (EvBarrierWait half_cycle_barrier_hi) ;;
      nanosleep half_cycle_sleep ;;
      control_loop budget' start duration_nano
  end.

Definition generate_tone (budget : nat) (freq duration_ms num_cores : Z)
  : M world unit :=
  emit (EvGenerateTone freq duration_ms num_cores) ;;
  if validate_frequency freq =? 0 then
    emit (EvStderr (MsgInvalidFrequency freq))
  else
    emit (EvStdout (MsgGenerating freq duration_ms num_cores)) ;;
    emit (EvBarrierInit half_cycle_barrier_hi (num_cores + 1)) ;;
    emit (EvBarrierInit half_cycle_barrier_lo (num_cores + 1)) ;;
    act (set_cycle_nano (Z.quot NANO_PER_SECOND freq)) ;;
    act (fun w => set_half_cycle_nano (Z.quot (cycle_nano w) 2) w) ;;
    for_up (Z.to_nat num_cores) 0 (fun i => emit (EvThreadCreate i)) ;;
    start <- clock_gettime ;;
    let duration_nano := duration_ms * 1000000 in
    control_loop budget start duration_nano ;;
    act (set_running 0) ;;
    for_up (Z.to_nat num_cores) 0 (fun i => emit (EvThreadCancel i)) ;;
    emit (EvBarrierDestroy half_cycle_barrier_hi) ;;
    emit (EvBarrierDestroy half_cycle_barrier_lo).

Record fsk_params_t : Type := mkFsk {
  freq_0 : Z;
  freq_1 : Z;
  bit_duration_ms : Z
}.

Definition transmit_bit_fsk (budget : nat) (bit : Z) (params : fsk_params_t)
    (num_cores : Z) : M world unit :=
  let freq := if negb (bit =? 0) then freq_1 params else freq_0 params in
  generate_tone budget freq (bit_duration_ms params) num_cores.

Definition transmit_preamble (budget : nat) (params : fsk_params_t)
    (num_cores : Z) : M world unit :=
  emit (EvStdout MsgPreamble) ;;
  let preamble := 0xAA in
  for_down 8 (fun i =>
    let bit := Z.land (Z.shiftr preamble i) 1 in
    transmit_bit_fsk budget bit params num_cores).

(** The copy of [calculate_crc8] in main.c ([int len], local
    [polynomial]). *)
Fixpoint calculate_crc8_bits (j : nat) (polynomial crc : Z) : Z :=
  match j with
  | O => crc
  | S j' =>
      calculate_crc8_bits j' polynomial
        (if negb (Z.land crc 0x80 =? 0)
         then u8 (Z.lxor (Z.shiftl crc 1) polynomial)
         else u8 (Z.shiftl crc 1))
  end.

Fixpoint calculate_crc8_from (data : list Z) (polynomial crc : Z) : Z :=
  match data with
  | [] => crc
  | b :: rest =>
      calculate_crc8_from rest polynomial
        (calculate_crc8_bits 8 polynomial (u8 (Z.lxor crc b)))
  end.

Definition calculate_crc8 (data : list Z) : Z :=
  let crc := 0x00 in
  let polynomial := 0x07 in
  calculate_crc8_from data polynomial crc.

Definition transmit_data_fsk (budget : nat) (data : list Z)
    (params : fsk_params_t) (num_cores : Z) : M world unit :=
  transmit_preamble budget params num_cores ;;
  emit (EvStdout (MsgTransmittingData (Z.of_nat (length data)))) ;;
  for_each data (fun byte =>
    for_down 8 (fun bit_idx =>
      let bit := Z.land (Z.shiftr byte bit_idx) 1 in
      transmit_bit_fsk budget bit params num_cores)) ;;
  let crc := calculate_crc8 data in
  emit (EvStdout (MsgTransmittingCrc crc)) ;;
  for_down 8 (fun bit_idx =>
    let bit := Z.land (Z.shiftr crc bit_idx) 1 in
    transmit_bit_fsk budget bit params num_cores) ;;
  emit (EvStdout MsgComplete).

(** The arguments of the successive entries into [generate_tone]. *)
Fixpoint tone_calls (l : list event) : list (Z * Z * Z) :=
  match l with
  | [] => []
  | EvGenerateTone f d n :: l' => (f, d, n) :: tone_calls l'
  | _ :: l' => tone_calls l'
  end.

(** *** Command line *)

(** [isspace] in the C locale. *)
Definition is_space (c : ascii) : bool :=
  let n := Z.of_N (N_of_ascii c) in
  (n =? 32) || ((9 <=? n) && (n <=? 13)).

Definition digit_of (c : ascii) : option Z :=
  let n := Z.of_N (N_of_ascii c) in
  if (48 <=? n) && (n <=? 57) then Some (n - 48) else None.

Fixpoint skip_spaces (s : string) : string :=
  match s with
  | String c s' => if is_space c then skip_spaces s' else s
  | EmptyString => s
  end.

Fixpoint digits_value (s : string) (acc : Z) : Z :=
  match s with
  | String c s' =>
      match digit_of c with
      | Some d => digits_value s' (10 * acc + d)
      | None => acc
      end
  | EmptyString => acc
  end.

(** [strtol(s, NULL, 10)]: white space, an optional sign, decimal digits;
    the value saturates at the bounds of [long]. *)
Definition strtol (s : string) : Z :=
  let clamp v :=
    Z.max (-9223372036854775808) (Z.min 9223372036854775807 v) in
  match skip_spaces s with
  | String "-"%char s' => clamp (- digits_value s' 0)
  | String "+"%char s' => clamp (digits_value s' 0)
  | s' => clamp (digits_value s' 0)
  end.

(** [atoi(s)] is [(int) strtol(s, NULL, 10)]. *)
Definition atoi (s : string) : Z := s32 (strtol s).

(** The bytes of a C string, as [(uint8_t* )message] reads them. *)
Fixpoint bytes_of_string (s : string) : list Z :=
  match s with
  | EmptyString => []
  | String c s' => Z.of_N (N_of_ascii c) :: bytes_of_string s'
  end.

Definition SIGINT : Z := 2.
Definition SIGTERM : Z := 15.

(** [main(argc, argv)] with [argc = length argv]; the value is the exit
    code. *)
Definition main (budget : nat) (argv : list string) : M world Z :=
  let argc := Z.of_nat (length argv) in
  let arg (i : nat) := nth i argv EmptyString in
  emit (EvSignalInstall SIGINT) ;;
  emit (EvSignalInstall SIGTERM) ;;
  if argc <? 2 then
    emit (EvStdout MsgUsage) ;; ret 1
  else
    uid <- gets euid ;;
    (if uid =? 0 then emit (EvStdout MsgRootWarning) else ret tt) ;;
    if String.eqb (arg 1%nat) "tone" then
      if negb (argc =? 5) then
        emit (EvStdout MsgToneArguments) ;;
        emit (EvStdout MsgUsage) ;; ret 1
      else
        let freq := atoi (arg 2%nat) in
        let duration := atoi (arg 3%nat) in
        let cores := atoi (arg 4%nat) in
        if (cores <? 1) || (cores >? MAX_CORES) then
          emit (EvStderr MsgCoresRange) ;; ret 1
        else
          generate_tone budget freq duration cores ;;
          ret 0
    else if String.eqb (arg 1%nat) "fsk" then
      if negb (argc =? 7) then
        emit (EvStdout MsgFskArguments) ;;
        emit (EvStdout MsgUsage) ;; ret 1
      else
        let params :=
          mkFsk (atoi (arg 2%nat)) (atoi (arg 3%nat)) (atoi (arg 4%nat)) in
        let cores := atoi (arg 5%nat) in
        let message := arg 6%nat in
        if (validate_frequency (freq_0 params) =? 0)
           || (validate_frequency (freq_1 params) =? 0) then
          emit (EvStderr MsgFrequenciesRange) ;; ret 1
        else if (cores <? 1) || (cores >? MAX_CORES) then
          emit (EvStderr MsgCoresRange) ;; ret 1
        else
          emit (EvStdout (MsgFskParameters (freq_0 params) (freq_1 params)
                            (bit_duration_ms params) message cores)) ;;
          transmit_data_fsk budget (bytes_of_string message) params cores ;;
          ret 0
    else if String.eqb (arg 1%nat) "wav" then
      emit (EvStdout MsgWavNotImplemented) ;; ret 1
    else
      emit (EvStdout (MsgUnknownMode (arg 1%nat))) ;;
      emit (EvStdout MsgUsage) ;; ret 1.

End Tone.

(** ** ofdm_transmitter.c *)

Module Ofdm.

Definition MAX_SUBCARRIERS : Z := 8.
Definition SYMBOL_DURATION_MS : Z := 100.
Definition GUARD_INTERVAL_MS : Z := 10.

Record ofdm_params_t : Type := mkOfdm {
  num_subcarriers : Z;
  base_freq : Z;
  freq_spacing : Z;
  symbol_duration_ms : Z
}.

Definition NANO_PER_SECOND : Z := 1000000000.

(** The two barriers that [transmit_ofdm_frame] declares. *)
Inductive barrier : Type :=
| start_barrier
| sync_barrier.

(** [subcarrier_thread_t] without the thread handle and [symbol_data],
    which is never used; the two barrier fields are pointers. *)
Record subcarrier_thread_t : Type := mkCarrier {
  core_id : Z;
  subcarrier_id : Z;
  frequency : Z;
  carrier_start_barrier : barrier;
  carrier_sync_barrier : barrier
}.

(** What the controller depends on without deciding it: [binds i] tells
    whether [pthread_setaffinity_np] binds a thread to core [i], and
    [joins i] whether [pthread_join] of worker [i] returns once the
    worker is cancelled (a worker that waits in [pthread_barrier_wait]
    does not act on the cancellation). *)
Record platform : Type := mkPlatform {
  binds : Z -> bool;
  joins : Z -> bool
}.

Inductive message : Type :=
| MsgParameters (p : ofdm_params_t) (data_len : Z)
| MsgSpectrumHeader
| MsgSpectrumLine (i freq : Z)
| MsgBandwidth (hz : Z)
| MsgAllInitialized (n : Z)
| MsgPreamble
| MsgSymbol (symbol : Z)
| MsgBit (v : Z)
| MsgSymbolEnd
| MsgPayload
| MsgByte (i data_len : Z)
| MsgEof
| MsgComplete.

(** The calls of the controller, in program order.  [EvTransmitting i v]
    is the store [transmitting[i] = v], which keys subcarrier [i]. *)
Inductive event : Type :=
| EvStdout (m : message)
| EvBarrierInit (b : barrier) (count : Z)
| EvBarrierWait (b : barrier)
| EvBarrierDestroy (b : barrier)
| EvThreadCreate (core_id subcarrier_id frequency : Z)
| EvThreadCancel (i : Z)
| EvThreadJoin (i : Z)
| EvTransmitting (i v : Z)
| EvUsleep (usec : Z).

Record world : Type := mkWorld {
  running : Z;
  transmitting : list Z;
  log : list event
}.

(** [running = 1] and [transmitting[MAX_SUBCARRIERS] = {0}]. *)
Definition initial_world : world := mkWorld 1 (repeat 0 8) [].

Definition record (e : event) (w : world) : world :=
  mkWorld (running w) (transmitting w) (log w ++ [e]).

Local Open Scope ctl_scope.

Definition emit (e : event) : M world unit := act (record e).

Fixpoint list_set (l : list Z) (i : nat) (v : Z) : option (list Z) :=
  match l, i with
  | [], _ => None
  | _ :: l', O => Some (v :: l')
  | x :: l', S i' => option_map (cons x) (list_set l' i' v)
  end.

(** [transmitting[i] = v]; an index outside the array has no defined
    result. *)
Definition store_transmitting (i v : Z) : M world unit :=
  fun w =>
    if i <? 0 then None else
    match list_set (transmitting w) (Z.to_nat i) v with
    | Some t =>
        Some (tt, mkWorld (running w) t (log w ++ [EvTransmitting i v]))
    | None => None
    end.

Definition load_transmitting (i : Z) : M world Z :=
  fun w =>
    if i <? 0 then None else
    match nth_error (transmitting w) (Z.to_nat i) with
    | Some v => Some (v, w)
    | None => None
    end.

(** *** [subcarrier_worker], as far as the controller depends on it *)

(** Lines 69-84: the worker reaches [start_barrier] unless
    [pthread_setaffinity_np] fails; then it returns at once. *)
Definition worker_arrives (pf : platform) (carrier : subcarrier_thread_t)
  : bool :=
  binds pf (core_id carrier).

(** Lines 93 and 105, which a worker runs when it finds its
    [transmitting] flag set: [NANO_PER_SECOND / carrier->frequency] and
    [elapsed % cycle_nano].  [None] when one of them divides by zero. *)
Definition worker_cycle (frequency : Z) : option Z :=
  if frequency =? 0 then None
  else
    let cycle_nano := Z.quot NANO_PER_SECOND frequency in
    if cycle_nano =? 0 then None else Some cycle_nano.

(** The workers after the symbol barrier has released them: each one
    reads [transmitting[carrier->subcarrier_id]] and, when it is set,
    enters its tone loop.  A division by zero there ends the process. *)
Fixpoint release_workers (carriers : list (option subcarrier_thread_t))
  : M world unit :=
  match carriers with
  | [] => ret tt
  | None :: rest => release_workers rest
  | Some carrier :: rest =>
      v <- load_transmitting (subcarrier_id carrier) ;;
      (if v =? 0 then ret tt
       else match worker_cycle (frequency carrier) with
            | Some _ => ret tt
            | None => undefined
            end) ;;
      release_workers rest
  end.

(** *** The controller *)

(** The array [carriers[MAX_SUBCARRIERS]] is a list of eight entries;
    [None] is an entry that has not been written since the array was
    declared. *)
Definition fresh_carriers : list (option subcarrier_thread_t) :=
  repeat None 8.

Fixpoint array_set {A} (l : list A) (i : nat) (v : A) : option (list A) :=
  match l, i with
  | [], _ => None
  | _ :: l', O => Some (v :: l')
  | x :: l', S i' => option_map (cons x) (array_set l' i' v)
  end.

(** [carriers[i] = carrier]; outside the array there is no defined
    result. *)
Definition store_carrier (carriers : list (option subcarrier_thread_t))
    (i : Z) (carrier : subcarrier_thread_t)
  : option (list (option subcarrier_thread_t)) :=
  if i <? 0 then None else array_set carriers (Z.to_nat i) (Some carrier).

(** The loop of [setup_ofdm_carriers], [n] iterations from index [i]
    on. *)
Fixpoint create_carriers (n : nat) (i : Z) (params : ofdm_params_t)
    (carriers : list (option subcarrier_thread_t))
  : M world (list (option subcarrier_thread_t)) :=
  match n with
  | O => ret carriers
  | S n' =>
      let frequency := s32 (base_freq params + s32 (i * freq_spacing params)) in
      match store_carrier carriers i
              (mkCarrier i i frequency start_barrier sync_barrier) with
      | Some carriers' =>
          emit (EvThreadCreate i i frequency) ;;
          create_carriers n' (i + 1) params carriers'
      | None => undefined
      end
  end.

(** [pthread_barrier_wait(start_barrier)] returns when all
    [num_subcarriers + 1] parties have arrived: the controller and every
    worker.  With a count below 1 the barrier was not initialised.  A
    wait that does not return has no result. *)
Definition setup_ofdm_carriers (pf : platform)
    (carriers : list (option subcarrier_thread_t)) (params : ofdm_params_t)
  : M world (list (option subcarrier_thread_t)) :=
  emit (EvBarrierInit start_barrier (num_subcarriers params + 1)) ;;
  emit (EvBarrierInit sync_barrier (num_subcarriers params + 1)) ;;
  carriers' <- create_carriers (Z.to_nat (num_subcarriers params)) 0 params
                 carriers ;;
  emit (EvBarrierWait start_barrier) ;;
  (if (1 <=? num_subcarriers params + 1)
      && forallb (fun entry =>
                    match entry with
                    | Some carrier => worker_arrives pf carrier
                    | None => true
                    end) carriers'
   then ret tt else undefined) ;;
  emit (EvStdout (MsgAllInitialized (num_subcarriers params))) ;;
  ret carriers'.

(** The first loop runs while [i < params->num_subcarriers && i < 8].
    The barrier is the one [carriers[0].sync_barrier] points to; an
    entry that was never written has no defined pointer. *)
Definition transmit_ofdm_symbol (symbol : Z) (params : ofdm_params_t)
    (carriers : list (option subcarrier_thread_t)) : M world unit :=
  emit (EvStdout (MsgSymbol symbol)) ;;
  for_up (Z.to_nat (Z.min (num_subcarriers params) 8)) 0 (fun i =>
    store_transmitting i (Z.land (Z.shiftr symbol i) 1) ;;
    v <- load_transmitting i ;;
    emit (EvStdout (MsgBit v))) ;;
  emit (EvStdout MsgSymbolEnd) ;;
  (match nth_error carriers 0 with
   | Some (Some carrier) => emit (EvBarrierWait (carrier_sync_barrier carrier))
   | _ => undefined
   end) ;;
  release_workers carriers ;;
  emit (EvUsleep (s32 (symbol_duration_ms params * 1000))) ;;
  for_up (Z.to_nat (num_subcarriers params)) 0 (fun i =>
    store_transmitting i 0) ;;
  emit (EvUsleep (GUARD_INTERVAL_MS * 1000)).

Definition print_ofdm_spectrum (params : ofdm_params_t) : M world unit :=
  emit (EvStdout MsgSpectrumHeader) ;;
  for_up (Z.to_nat (num_subcarriers params)) 0 (fun i =>
    let freq := s32 (base_freq params + s32 (i * freq_spacing params)) in
    emit (EvStdout (MsgSpectrumLine i freq))) ;;
  emit (EvStdout
          (MsgBandwidth
             (s32 (freq_spacing params * s32 (num_subcarriers params - 1))))).

(** [carriers[i].thread] is defined for the entries that
    [setup_ofdm_carriers] has written; a [pthread_join] that does not
    return has no result. *)
Definition cleanup_carriers (pf : platform)
    (carriers : list (option subcarrier_thread_t)) (num_carriers : Z)
  : M world unit :=
  for_up (Z.to_nat num_carriers) 0 (fun i =>
    match nth_error carriers (Z.to_nat i) with
    | Some (Some _) =>
        emit (EvThreadCancel i) ;;
        emit (EvThreadJoin i) ;;
        if joins pf i then ret tt else undefined
    | _ => undefined
    end).

(** The loop [for (i = 0; i < data_len; i++)] of [transmit_ofdm_frame]
    over the bytes [data[i ..]]. *)
Fixpoint transmit_payload (rest : list Z) (i data_len : Z)
    (params : ofdm_params_t) (carriers : list (option subcarrier_thread_t))
  : M world unit :=
  match rest with
  | [] => ret tt
  | b :: rest' =>
      emit (EvStdout (MsgByte (i + 1) data_len)) ;;
      transmit_ofdm_symbol b params carriers ;;
      transmit_payload rest' (i + 1) data_len params carriers
  end.

Definition transmit_ofdm_frame (pf : platform) (data : list Z)
    (params : ofdm_params_t) : M world unit :=
  let data_len := Z.of_nat (length data) in
  emit (EvStdout (MsgParameters params data_len)) ;;
  print_ofdm_spectrum params ;;
  carriers <- setup_ofdm_carriers pf fresh_carriers params ;;
  emit (EvStdout MsgPreamble) ;;
  for_up 4 0 (fun _ =>
    transmit_ofdm_symbol 0xAA params carriers ;;
    transmit_ofdm_symbol 0x55 params carriers) ;;
  emit (EvStdout MsgPayload) ;;
  transmit_payload data 0 data_len params carriers ;;
  emit (EvStdout MsgEof) ;;
  transmit_ofdm_symbol 0xFF params carriers ;;
  transmit_ofdm_symbol 0x00 params carriers ;;
  transmit_ofdm_symbol 0xFF params carriers ;;
  act (fun w => mkWorld 0 (transmitting w) (log w)) ;;
  cleanup_carriers pf carriers (num_subcarriers params) ;;
  emit (EvBarrierDestroy start_barrier) ;;
  emit (EvBarrierDestroy sync_barrier) ;;
  emit (EvStdout MsgComplete).

(** The symbols handed to [transmit_ofdm_symbol], in order. *)
Fixpoint symbols_sent (l : list event) : list Z :=
  match l with
  | [] => []
  | EvStdout (MsgSymbol s) :: l' => s :: symbols_sent l'
  | _ :: l' => symbols_sent l'
  end.

End Ofdm.

(** *** Command line of ofdm_transmitter.c *)

Module OfdmMain.

Import Ofdm.

(** What [main] itself prints, one constructor per statement. *)
Inductive diagnostic : Type :=
| SignalInstalled (sig : Z)
| MsgUsage
| MsgSubcarriersRange
| MsgBaseFreqRange
| MsgFewCores (requested available : Z)
| MsgStarting (message : string) (subcarriers : Z).

(** The state of the transmitter and the output of [main]. *)
Record process : Type := mkProcess {
  carrier_state : world;
  console : list diagnostic
}.

Local Open Scope ctl_scope.

(** A computation of the transmitter, run inside the process. *)
Definition lift {A} (c : M world A) : M process A :=
  fun p =>
    match c (carrier_state p) with
    | Some (a, w') => Some (a, mkProcess w' (console p))
    | None => None
    end.

Definition say (d : diagnostic) : M process unit :=
  act (fun p => mkProcess (carrier_state p) (console p ++ [d])).

(** [main(argc, argv)]; [nprocs] is the value of
    [sysconf(_SC_NPROCESSORS_ONLN)]. *)
Definition main (pf : platform) (nprocs : Z) (argv : list string)
  : M process Z :=
  let argc := Z.of_nat (length argv) in
  let arg (i : nat) := nth i argv EmptyString in
  say (SignalInstalled Tone.SIGINT) ;;
  say (SignalInstalled Tone.SIGTERM) ;;
  if negb (argc =? 5) then
    say MsgUsage ;; ret 1
  else
    let base_freq' := Tone.atoi (arg 1%nat) in
    let freq_spacing' := Tone.atoi (arg 2%nat) in
    let num_subcarriers' := Tone.atoi (arg 3%nat) in
    let params :=
      mkOfdm num_subcarriers' base_freq' freq_spacing' SYMBOL_DURATION_MS in
    let message := arg 4%nat in
    if (num_subcarriers params <? 1)
       || (num_subcarriers params >? MAX_SUBCARRIERS) then
      say MsgSubcarriersRange ;; ret 1
    else if (base_freq params <? 20) || (base_freq params >? 24000) then
      say MsgBaseFreqRange ;; ret 1
    else
      let num_cores := s32 nprocs in
      (if num_subcarriers params >? num_cores
       then say (MsgFewCores (num_subcarriers params) num_cores)
       else ret tt) ;;
      say (MsgStarting message (num_subcarriers params)) ;;
      lift (transmit_ofdm_frame pf (Tone.bytes_of_string message) params) ;;
      ret 0.

End OfdmMain.

(** ** wav_player.c *)

Module WavPlayer.

Definition MAX_CORES : Z := 32.

(** [abs] and the product are computed in [int]. *)
Definition sample_to_cores (sample max_cores : Z) : Z :=
  let abs_sample := s32 (Z.abs sample) in
  let cores := Z.quot (s32 (abs_sample * max_cores)) 32768 in
  let cores := if cores =? 0 then 1 else cores in
  let cores := if cores >? max_cores then max_cores else cores in
  cores.

(** The loop [for (j = 0; j < num_cores; j++)
    workers[j].active = (j < active) ? 1 : 0] of [play_wav_am]; the
    result lists the flags of workers [j .. j + n - 1]. *)
Fixpoint set_active (n : nat) (j active : Z) : list Z :=
  match n with
  | O => []
  | S n' => (if j <? active then 1 else 0) :: set_active n' (j + 1) active
  end.

(** The [active] flags that [play_wav_am] leaves for one sample. *)
Definition am_active_flags (sample num_cores : Z) : list Z :=
  let active := sample_to_cores sample num_cores in
  set_active (Z.to_nat num_cores) 0 active.

(** *** WAV files and playback *)

Definition MAX_SAMPLE_RATE : Z := 48000.
Definition DEFAULT_CORES : Z := 4.

(** The value of an [int16_t] with the 16 bits of [x]. *)
Definition s16 (x : Z) : Z := (x + 32768) mod 65536 - 32768.

(** [wav_header_t]: 44 bytes, every field at its natural alignment. *)
Record wav_header_t : Type := mkHeader {
  riff : list Z;
  file_size : Z;
  wave : list Z;
  fmt : list Z;
  fmt_size : Z;
  format : Z;
  channels : Z;
  sample_rate : Z;
  byte_rate : Z;
  block_align : Z;
  bits_per_sample : Z;
  data : list Z;
  data_size : Z
}.

Definition bytes_at (l : list Z) (off n : nat) : list Z :=
  firstn n (skipn off l).

(** Unsigned value of a little-endian field. *)
Definition le_value (bs : list Z) : Z :=
  fold_right (fun b acc => b + 256 * acc) 0 bs.

(** The header that [fread(header, sizeof(wav_header_t), 1, file)]
    leaves on a little-endian machine, from the first 44 bytes. *)
Definition read_header (bytes : list Z) : wav_header_t :=
  mkHeader (bytes_at bytes 0 4)
    (le_value (bytes_at bytes 4 4))
    (bytes_at bytes 8 4)
    (bytes_at bytes 12 4)
    (le_value (bytes_at bytes 16 4))
    (le_value (bytes_at bytes 20 2))
    (le_value (bytes_at bytes 22 2))
    (le_value (bytes_at bytes 24 4))
    (le_value (bytes_at bytes 28 4))
    (le_value (bytes_at bytes 32 2))
    (le_value (bytes_at bytes 34 2))
    (bytes_at bytes 36 4)
    (le_value (bytes_at bytes 40 4)).

(** The first [n] entries of a buffer read as [int16_t]. *)
Fixpoint samples_of_bytes (n : nat) (bytes : list Z) : list Z :=
  match n, bytes with
  | S n', b0 :: b1 :: rest =>
      s16 (b0 + 256 * b1) :: samples_of_bytes n' rest
  | _, _ => []
  end.

(** Equality of two byte strings, as [strncmp(a, b, 4) != 0] decides it
    for a literal [b] of four non-zero characters. *)
Fixpoint bytes_eqb (a b : list Z) : bool :=
  match a, b with
  | [], [] => true
  | x :: a', y :: b' => (x =? y) && bytes_eqb a' b'
  | _, _ => false
  end.

Inductive message : Type :=
| MsgCannotOpen (filename : string)
| MsgCannotReadHeader
| MsgInvalidFormat
| MsgOnlyPcm
| MsgOnly16Bit
| MsgCannotAllocate
| MsgCannotReadData
| MsgUsage
| MsgCoresRange
| MsgModulation
| MsgLoading (filename : string)
| MsgWavInfo (header : wav_header_t)
| MsgSampleRateWarning (rate : Z)
| MsgConvertingStereo
| MsgWarningBanner
| MsgPlayingAm (num_cores : Z)
| MsgPlayingPwm (num_cores : Z)
| MsgProgress (percent : Z)
| MsgProgressDone
| MsgPlaybackComplete.

(** What [load_wav_file] hands back: its return value, the header and
    sample buffer behind its out-parameters when they were filled, and
    the message it printed on stderr. *)
Record loaded : Type := mkLoaded {
  ret_value : Z;
  header_read : option wav_header_t;
  samples_read : option (list Z);
  complaint : option message
}.

(** [fs filename] is the content of the file, [None] when [fopen]
    fails; [malloc_ok] tells whether [malloc] returns a buffer. *)
Definition load_wav_file (fs : string -> option (list Z)) (malloc_ok : bool)
    (filename : string) : loaded :=
  match fs filename with
  | None => mkLoaded (-1) None None (Some (MsgCannotOpen filename))
  | Some bytes =>
      if (length bytes <? 44)%nat then
        mkLoaded (-1) None None (Some MsgCannotReadHeader)
      else
        let header := read_header bytes in
        if negb (bytes_eqb (riff header) [82; 73; 70; 70])
           || negb (bytes_eqb (wave header) [87; 65; 86; 69]) then
          mkLoaded (-1) (Some header) None (Some MsgInvalidFormat)
        else if negb (format header =? 1) then
          mkLoaded (-1) (Some header) None (Some MsgOnlyPcm)
        else if negb (bits_per_sample header =? 16) then
          mkLoaded (-1) (Some header) None (Some MsgOnly16Bit)
        else
          let num_samples := Z.quot (data_size header) 2 in
          if negb malloc_ok then
            mkLoaded (-1) (Some header) None (Some MsgCannotAllocate)
          else
            let rest := skipn 44 bytes in
            if (data_size header =? 0)
               || (Z.of_nat (length rest) <? data_size header) then
              mkLoaded (-1) (Some header) None (Some MsgCannotReadData)
            else
              mkLoaded num_samples (Some header)
                (Some (samples_of_bytes (Z.to_nat num_samples) rest)) None
  end.

(** [samples[i] = v] in a buffer. *)
Fixpoint store_sample (samples : list Z) (i : nat) (v : Z) : list Z :=
  match samples, i with
  | [], _ => []
  | _ :: rest, O => v :: rest
  | x :: rest, S i' => x :: store_sample rest i' v
  end.

(** The loop [for (i = 0; i < num_samples / 2; i++)
    samples[i] = (samples[i * 2] + samples[i * 2 + 1]) / 2] of [main],
    in place; [n] iterations remain from index [i] on. *)
Fixpoint stereo_to_mono_from (n i : nat) (samples : list Z) : list Z :=
  match n with
  | O => samples
  | S n' =>
      let v :=
        s16 (Z.quot (nth (i * 2) samples 0 + nth (i * 2 + 1) samples 0) 2) in
      stereo_to_mono_from n' (S i) (store_sample samples i v)
  end.

(** The buffer and the new [num_samples]. *)
Definition stereo_to_mono (samples : list Z) (num_samples : Z)
  : list Z * Z :=
  (stereo_to_mono_from (Z.to_nat (Z.quot num_samples 2)) 0 samples,
   Z.quot num_samples 2).

Inductive modulation_type_t : Type :=
| MOD_AM
| MOD_PWM.

(** The calls of the playback controller.  [EvActive j v] is the store
    [workers[j].active = v]; [EvDutyCycle j (Some s)] is the store
    [workers[j].duty_cycle = sample_to_duty_cycle(s)] and
    [EvDutyCycle j None] the initial [workers[j].duty_cycle = 0.5]: the
    [double] itself is not computed. *)
Inductive event : Type :=
| EvStdout (m : message)
| EvStderr (m : message)
| EvSignalInstall (sig : Z)
| EvThreadCreate (modulation : modulation_type_t) (core_id frequency : Z)
| EvThreadCancel (i : Z)
| EvThreadJoin (i : Z)
| EvMutexLock
| EvMutexUnlock
| EvActive (j v : Z)
| EvDutyCycle (j : Z) (sample : option Z)
| EvNanosleep (nsec : Z)
| EvSleep (seconds : Z).

(** The global [running], the clock in nanoseconds and the log. *)
Record world : Type := mkWorld {
  running : Z;
  now : Z;
  log : list event
}.

Definition initial_world (t : Z) : world := mkWorld 1 t [].

Definition record (e : event) (w : world) : world :=
  mkWorld (running w) (now w) (log w ++ [e]).

Local Open Scope ctl_scope.

Definition emit (e : event) : M world unit := act (record e).

(** As in main.c: a [tv_nsec] outside [0, 999999999] is refused. *)
Definition nanosleep (nsec : Z) : M world unit :=
  emit (EvNanosleep nsec) ;;
  if (0 <=? nsec) && (nsec <=? 999999999)
  then act (fun w => mkWorld (running w) (now w + nsec) (log w))
  else ret tt.

(** The loop [for (i = ..; i < num_samples && running; i++)] over the
    samples left; [body i sample] is one iteration. *)
Fixpoint play_samples (rest : list Z) (i : Z)
    (body : Z -> Z -> M world unit) : M world unit :=
  match rest with
  | [] => ret tt
  | sample :: rest' =>
      r <- gets running ;;
      if r =? 0 then ret tt
      else body i sample ;; play_samples rest' (i + 1) body
  end.

(** The progress indicator; [i % (sample_rate / 10)] divides by zero
    when [sample_rate / 10] is 0. *)
Definition progress (i num_samples sample_rate : Z) : M world unit :=
  if Z.quot sample_rate 10 =? 0 then undefined
  else if Z.rem i (Z.quot sample_rate 10) =? 0
  then emit (EvStdout (MsgProgress (Z.quot (s32 (i * 100)) num_samples)))
  else ret tt.

(** Start of the workers; [workers] has [MAX_CORES] entries. *)
Definition create_workers (modulation : modulation_type_t)
    (frequency num_cores : Z) : M world unit :=
  for_up (Z.to_nat num_cores) 0 (fun i =>
    if i <? MAX_CORES then
      emit (EvActive i (match modulation with MOD_AM => 0 | MOD_PWM => 1 end)) ;;
      (match modulation with
       | MOD_AM => ret tt
       | MOD_PWM => emit (EvDutyCycle i None)
       end) ;;
      emit (EvThreadCreate modulation i frequency)
    else undefined).

Definition stop_workers (num_cores : Z) : M world unit :=
  act (fun w => mkWorld 0 (now w) (log w)) ;;
  for_up (Z.to_nat num_cores) 0 (fun i =>
    emit (EvThreadCancel i) ;;
    emit (EvThreadJoin i)).

(** [samples] are the [num_samples] entries played. *)
Definition play_wav_am (samples : list Z) (sample_rate num_cores : Z)
  : M world unit :=
  let num_samples := Z.of_nat (length samples) in
  emit (EvStdout (MsgPlayingAm num_cores)) ;;
  create_workers MOD_AM 8000 num_cores ;;
  if sample_rate =? 0 then undefined else
  let sample_period_ns := Z.quot 1000000000 sample_rate in
  play_samples samples 0 (fun i sample =>
    let active := sample_to_cores sample num_cores in
    emit EvMutexLock ;;
    for_up (Z.to_nat num_cores) 0 (fun j =>
      emit (EvActive j (if j <? active then 1 else 0))) ;;
    emit EvMutexUnlock ;;
    progress i num_samples sample_rate ;;
    nanosleep sample_period_ns) ;;
  emit (EvStdout MsgProgressDone) ;;
  stop_workers num_cores.

Definition play_wav_pwm (samples : list Z) (sample_rate num_cores : Z)
  : M world unit :=
  let num_samples := Z.of_nat (length samples) in
  emit (EvStdout (MsgPlayingPwm num_cores)) ;;
  create_workers MOD_PWM sample_rate num_cores ;;
  if sample_rate =? 0 then undefined else
  let sample_period_ns := Z.quot 1000000000 sample_rate in
  play_samples samples 0 (fun i sample =>
    emit EvMutexLock ;;
    for_up (Z.to_nat num_cores) 0 (fun j =>
      emit (EvDutyCycle j (Some sample))) ;;
    emit EvMutexUnlock ;;
    progress i num_samples sample_rate ;;
    nanosleep sample_period_ns) ;;
  emit (EvStdout MsgProgressDone) ;;
  stop_workers num_cores.

(** [tolower] on the ASCII letters, for [strcasecmp]. *)
Definition to_lower (c : ascii) : ascii :=
  let n := N_of_ascii c in
  if ((65 <=? n) && (n <=? 90))%N then ascii_of_N (n + 32) else c.

Fixpoint lower (s : string) : string :=
  match s with
  | EmptyString => EmptyString
  | String c s' => String (to_lower c) (lower s')
  end.

(** [strcasecmp(a, b) == 0]. *)
Definition strcasecmp_eq (a b : string) : bool :=
  String.eqb (lower a) (lower b).

(** [main(argc, argv)] of wav_player.c. *)
Definition main (fs : string -> option (list Z)) (malloc_ok : bool)
    (argv : list string) : M world Z :=
  let argc := Z.of_nat (length argv) in
  let arg (i : nat) := nth i argv EmptyString in
  emit (EvSignalInstall Tone.SIGINT) ;;
  emit (EvSignalInstall Tone.SIGTERM) ;;
  if argc <? 2 then
    emit (EvStdout MsgUsage) ;; ret 1
  else
    let filename := arg 1%nat in
    let num_cores := if argc >=? 3 then Tone.atoi (arg 2%nat)
                     else DEFAULT_CORES in
    if (argc >=? 3) && ((num_cores <? 1) || (num_cores >? MAX_CORES)) then
      emit (EvStderr MsgCoresRange) ;; ret 1
    else
      let am := strcasecmp_eq (arg 3%nat) "am" in
      let pwm := strcasecmp_eq (arg 3%nat) "pwm" in
      if (argc >=? 4) && negb am && negb pwm then
        emit (EvStderr MsgModulation) ;; ret 1
      else
        let modulation :=
          if (argc >=? 4) && am then MOD_AM else MOD_PWM in
        let l := load_wav_file fs malloc_ok filename in
        (match complaint l with
         | Some m => emit (EvStderr m)
         | None => ret tt
         end) ;;
        let num_samples := ret_value l in
        if num_samples <? 0 then ret 1
        else
          match header_read l, samples_read l with
          | Some header, Some samples =>
              emit (EvStdout (MsgLoading filename)) ;;
              emit (EvStdout (MsgWavInfo header)) ;;
              (if sample_rate header >? MAX_SAMPLE_RATE
               then emit (EvStderr (MsgSampleRateWarning (sample_rate header)))
               else ret tt) ;;
              (if channels header =? 2
               then emit (EvStdout MsgConvertingStereo)
               else ret tt) ;;
              let '(samples, num_samples) :=
                if channels header =? 2
                then stereo_to_mono samples num_samples
                else (samples, num_samples) in
              emit (EvStdout MsgWarningBanner) ;;
              emit (EvSleep 2) ;;
              act (fun w => mkWorld (running w) (now w + 2000000000) (log w)) ;;
              (match modulation with
               | MOD_AM =>
                   play_wav_am (firstn (Z.to_nat num_samples) samples)
                     (s32 (sample_rate header)) num_cores
               | MOD_PWM =>
                   play_wav_pwm (firstn (Z.to_nat num_samples) samples)
                     (s32 (sample_rate header)) num_cores
               end) ;;
              emit (EvStdout MsgPlaybackComplete) ;;
              ret 0
          | _, _ => undefined
          end.
(* the last case does not arise: a non-negative return value comes with
   both out-parameters filled *)

End WavPlayer.

(** ** Vocabulary of the statements *)

(** [0; 1; ..; n - 1] as C integers. *)
Definition upto (n : nat) : list Z := map Z.of_nat (seq 0 n).

(** The 256 byte values. *)
Definition byte_range : list Z := upto 256.

(** The bits of a byte, most significant first, as 0/1. *)
Definition msb_first (b : Z) : list Z :=
  map (fun i => Z.land (Z.shiftr b i) 1) [7; 6; 5; 4; 3; 2; 1; 0].

Definition reg_eqb (a b : Crc8Ref.reg) : bool :=
  if list_eq_dec bool_dec a b then true else false.

(** Inverse of one CRC division step: the low bit of the result tells
    whether the generator was subtracted. *)
Definition crc8_unshift (y : Z) : Z :=
  if Z.odd y then Z.lor (Z.shiftr (Z.lxor y 0x07) 1) 0x80
  else Z.shiftr y 1.

(** The [k]-th two-bit Manchester symbol of a byte, [k = 0] being the
    leading one. *)
Definition manchester_symbol (b k : Z) : Z :=
  Z.land (Z.shiftr b (6 - 2 * k)) 3.

Definition valid_symbols (b : Z) : bool :=
  forallb (fun k => (manchester_symbol b k =? 1)
                    || (manchester_symbol b k =? 2)) [0; 1; 2; 3].

(** Some byte of the input carries a symbol other than 01 and 10. *)
Definition has_invalid_symbol (input : list Z) : Prop :=
  exists b k, In b input /\ 0 <= k < 4 /\
              manchester_symbol b k <> 1 /\ manchester_symbol b k <> 2.

(** Number of workers whose [active] flag is set. *)
Definition active_count (flags : list Z) : Z := fold_right Z.add 0 flags.

(** [lo; lo + 1; ..; lo + n - 1], the values of the counter of
    [for (i = lo; i < lo + n; i++)]. *)
Fixpoint count_from (n : nat) (lo : Z) : list Z :=
  match n with
  | O => []
  | S n' => lo :: count_from n' (lo + 1)
  end.

(** [n - 1; ..; 1; 0], the values of the counter of
    [for (i = n - 1; i >= 0; i--)]. *)
Fixpoint count_down (n : nat) : list Z :=
  match n with
  | O => []
  | S i => Z.of_nat i :: count_down i
  end.

(** The state with [evs] added to the log. *)
Definition append_log (evs : list Tone.event) (w : Tone.world) : Tone.world :=
  Tone.mkWorld (Tone.running w) (Tone.LO w) (Tone.cycle_nano w)
    (Tone.half_cycle_nano w) (Tone.now w) (Tone.euid w) (Tone.log w ++ evs).

(** The [generate_tone] arguments that [transmit_bit_fsk] selects. *)
Definition tone_of_bit (params : Tone.fsk_params_t) (num_cores bit : Z)
  : Z * Z * Z :=
  (if bit =? 1 then Tone.freq_1 params else Tone.freq_0 params,
   Tone.bit_duration_ms params, num_cores).

(** [c] returns from every state and enters [generate_tone] exactly with
    the arguments [calls], in that order. *)
Definition makes_calls (c : M Tone.world unit) (calls : list (Z * Z * Z))
  : Prop :=
  forall w, exists w',
    c w = Some (tt, w')
    /\ Tone.tone_calls (Tone.log w') = Tone.tone_calls (Tone.log w) ++ calls.

(** The events by which the OFDM controller keys the subcarriers: the
    stores to [transmitting], the release of the symbol barrier and the
    sleeps. *)
Definition is_keying (e : Ofdm.event) : bool :=
  match e with
  | Ofdm.EvTransmitting _ _ => true
  | Ofdm.EvUsleep _ => true
  | Ofdm.EvBarrierWait Ofdm.sync_barrier => true
  | _ => false
  end.

Definition keying (l : list Ofdm.event) : list Ofdm.event :=
  filter is_keying l.

(** Keying of one symbol: subcarrier [i] gets bit [i] of the symbol, the
    workers are released, the symbol lasts [symbol_duration_ms], every
    subcarrier is switched off, the guard interval follows. *)
Definition symbol_keying (params : Ofdm.ofdm_params_t) (symbol : Z)
  : list Ofdm.event :=
  map (fun i => Ofdm.EvTransmitting i (Z.land (Z.shiftr symbol i) 1))
    (count_from (Z.to_nat (Z.min (Ofdm.num_subcarriers params) 8)) 0)
  ++ [Ofdm.EvBarrierWait Ofdm.sync_barrier;
      Ofdm.EvUsleep (s32 (Ofdm.symbol_duration_ms params * 1000))]
  ++ map (fun i => Ofdm.EvTransmitting i 0)
       (count_from (Z.to_nat (Ofdm.num_subcarriers params)) 0)
  ++ [Ofdm.EvUsleep (Ofdm.GUARD_INTERVAL_MS * 1000)].

(** [c] returns from every state with an 8-entry [transmitting] array,
    hands the symbols [syms] to [transmit_ofdm_symbol] and keys the
    subcarriers by [keys]. *)
Definition sends (c : M Ofdm.world unit) (syms : list Z)
    (keys : list Ofdm.event) : Prop :=
  forall w, length (Ofdm.transmitting w) = 8%nat ->
  exists w',
    c w = Some (tt, w')
    /\ length (Ofdm.transmitting w') = 8%nat
    /\ Ofdm.symbols_sent (Ofdm.log w')
       = Ofdm.symbols_sent (Ofdm.log w) ++ syms
    /\ keying (Ofdm.log w') = keying (Ofdm.log w) ++ keys.

(** Hamming distance of two bytes. *)
Definition bit_distance (a b : Z) : Z :=
  fold_right Z.add 0
    (map (fun i => Z.b2z (Z.testbit (Z.lxor a b) i)) (upto 8)).

(** Full LO/HI cycles of the tone controller found in a log: one per wait
    at the barrier that ends the second half cycle. *)
Fixpoint cycles (l : list Tone.event) : Z :=
  match l with
  | [] => 0
  | Tone.EvBarrierWait Tone.half_cycle_barrier_hi :: l' => 1 + cycles l'
  | _ :: l' => cycles l'
  end.

(** Thread and barrier management of the tone controller. *)
Definition is_lifecycle (e : Tone.event) : bool :=
  match e with
  | Tone.EvBarrierInit _ _ | Tone.EvBarrierDestroy _
  | Tone.EvThreadCreate _ | Tone.EvThreadCancel _ => true
  | _ => false
  end.

Definition lifecycle (l : list Tone.event) : list Tone.event :=
  filter is_lifecycle l.

(** Length of one cycle as the controller sleeps it: two half cycles. *)
Definition slept_cycle (freq : Z) : Z :=
  2 * Z.quot (Z.quot Tone.NANO_PER_SECOND freq) 2.

(** Cycles needed for the elapsed time to reach [duration_ms]. *)
Definition cycles_needed (freq duration_ms : Z) : Z :=
  (duration_ms * 1000000 + slept_cycle freq - 1) / slept_cycle freq.

(** The command lines after which main.c starts a transmission. *)
Definition main_accepts (argv : list string) : bool :=
  let arg (i : nat) := nth i argv EmptyString in
  let cores_ok (c : string) :=
    (1 <=? Tone.atoi c) && (Tone.atoi c <=? Tone.MAX_CORES) in
  match argv with
  | [_; mode; _; _; c] => String.eqb mode "tone" && cores_ok c
  | [_; mode; f0; f1; _; c; _] =>
      String.eqb mode "fsk"
      && (Tone.validate_frequency (Tone.atoi f0) =? 1)
      && (Tone.validate_frequency (Tone.atoi f1) =? 1)
      && cores_ok c
  | _ => false
  end.

(** Entered with [running = 0], [c] returns with [running = 0], without
    letting time pass and without a cycle. *)
Definition stays_silent (c : M Tone.world unit) : Prop :=
  forall w, Tone.running w = 0 ->
  exists w',
    c w = Some (tt, w')
    /\ Tone.running w' = 0 /\ Tone.now w' = Tone.now w
    /\ cycles (Tone.log w') = cycles (Tone.log w).

(** *** OFDM logs *)

(** Everything [transmit_ofdm_symbol] logs for one symbol. *)
Definition symbol_log (params : Ofdm.ofdm_params_t) (symbol : Z)
  : list Ofdm.event :=
  [Ofdm.EvStdout (Ofdm.MsgSymbol symbol)]
  ++ flat_map (fun i =>
       [Ofdm.EvTransmitting i (Z.land (Z.shiftr symbol i) 1);
        Ofdm.EvStdout (Ofdm.MsgBit (Z.land (Z.shiftr symbol i) 1))])
       (count_from (Z.to_nat (Z.min (Ofdm.num_subcarriers params) 8)) 0)
  ++ [Ofdm.EvStdout Ofdm.MsgSymbolEnd;
      Ofdm.EvBarrierWait Ofdm.sync_barrier;
      Ofdm.EvUsleep (s32 (Ofdm.symbol_duration_ms params * 1000))]
  ++ map (fun i => Ofdm.EvTransmitting i 0)
       (count_from (Z.to_nat (Ofdm.num_subcarriers params)) 0)
  ++ [Ofdm.EvUsleep (Ofdm.GUARD_INTERVAL_MS * 1000)].

Fixpoint payload_log (params : Ofdm.ofdm_params_t) (rest : list Z)
    (i data_len : Z) : list Ofdm.event :=
  match rest with
  | [] => []
  | b :: rest' =>
      Ofdm.EvStdout (Ofdm.MsgByte (i + 1) data_len)
        :: symbol_log params b
        ++ payload_log params rest' (i + 1) data_len
  end.

(** Frequency given to subcarrier [i]. *)
Definition subcarrier_frequency (params : Ofdm.ofdm_params_t) (i : Z) : Z :=
  s32 (Ofdm.base_freq params + s32 (i * Ofdm.freq_spacing params)).

(** The array [carriers] when [setup_ofdm_carriers] has written its first
    [k] entries. *)
Definition filled_carriers (params : Ofdm.ofdm_params_t) (k : Z)
  : list (option Ofdm.subcarrier_thread_t) :=
  map (fun i =>
         if i <? k
         then Some (Ofdm.mkCarrier i i (subcarrier_frequency params i)
                      Ofdm.start_barrier Ofdm.sync_barrier)
         else None)
    (count_from 8 0).

(** A worker that can be keyed: its flag lies inside [transmitting] and
    its tone loop does not divide by zero. *)
Definition worker_sound (entry : option Ofdm.subcarrier_thread_t) : Prop :=
  match entry with
  | None => True
  | Some carrier =>
      0 <= Ofdm.subcarrier_id carrier < 8
      /\ Ofdm.worker_cycle (Ofdm.frequency carrier) <> None
  end.

(** Carriers with which a symbol can be sent: entry 0 points to the
    symbol barrier and every worker can be keyed. *)
Definition carriers_ready (carriers : list (option Ofdm.subcarrier_thread_t))
  : Prop :=
  (exists carrier,
     nth_error carriers 0 = Some (Some carrier)
     /\ Ofdm.carrier_sync_barrier carrier = Ofdm.sync_barrier)
  /\ Forall worker_sound carriers.

(** The workers let the controller finish a frame: every one of them is
    bound to its core (so it reaches the start barrier), does not divide
    by zero at its frequency, and can be joined in the end. *)
Definition workers_cooperate (pf : Ofdm.platform)
    (params : Ofdm.ofdm_params_t) : Prop :=
  forall i, 0 <= i < Ofdm.num_subcarriers params ->
    Ofdm.binds pf i = true
    /\ Ofdm.joins pf i = true
    /\ Ofdm.worker_cycle (subcarrier_frequency params i) <> None.

(** What [setup_ofdm_carriers] logs. *)
Definition setup_log (params : Ofdm.ofdm_params_t) : list Ofdm.event :=
  [Ofdm.EvBarrierInit Ofdm.start_barrier (Ofdm.num_subcarriers params + 1);
   Ofdm.EvBarrierInit Ofdm.sync_barrier (Ofdm.num_subcarriers params + 1)]
  ++ map (fun i => Ofdm.EvThreadCreate i i (subcarrier_frequency params i))
       (count_from (Z.to_nat (Ofdm.num_subcarriers params)) 0)
  ++ [Ofdm.EvBarrierWait Ofdm.start_barrier;
      Ofdm.EvStdout (Ofdm.MsgAllInitialized (Ofdm.num_subcarriers params))].

(** Everything [transmit_ofdm_frame] logs. *)
Definition frame_log (data : list Z) (params : Ofdm.ofdm_params_t)
  : list Ofdm.event :=
  let n := Z.to_nat (Ofdm.num_subcarriers params) in
  [Ofdm.EvStdout (Ofdm.MsgParameters params (Z.of_nat (length data)));
   Ofdm.EvStdout Ofdm.MsgSpectrumHeader]
  ++ map (fun i =>
       Ofdm.EvStdout (Ofdm.MsgSpectrumLine i (subcarrier_frequency params i)))
       (count_from n 0)
  ++ [Ofdm.EvStdout
        (Ofdm.MsgBandwidth
           (s32 (Ofdm.freq_spacing params
                 * s32 (Ofdm.num_subcarriers params - 1))));
      Ofdm.EvBarrierInit Ofdm.start_barrier (Ofdm.num_subcarriers params + 1);
      Ofdm.EvBarrierInit Ofdm.sync_barrier (Ofdm.num_subcarriers params + 1)]
  ++ map (fun i => Ofdm.EvThreadCreate i i (subcarrier_frequency params i))
       (count_from n 0)
  ++ [Ofdm.EvBarrierWait Ofdm.start_barrier;
      Ofdm.EvStdout (Ofdm.MsgAllInitialized (Ofdm.num_subcarriers params));
      Ofdm.EvStdout Ofdm.MsgPreamble]
  ++ flat_map (symbol_log params)
       [0xAA; 0x55; 0xAA; 0x55; 0xAA; 0x55; 0xAA; 0x55]
  ++ [Ofdm.EvStdout Ofdm.MsgPayload]
  ++ payload_log params data 0 (Z.of_nat (length data))
  ++ [Ofdm.EvStdout Ofdm.MsgEof]
  ++ flat_map (symbol_log params) [0xFF; 0x00; 0xFF]
  ++ flat_map (fun i => [Ofdm.EvThreadCancel i; Ofdm.EvThreadJoin i])
       (count_from n 0)
  ++ [Ofdm.EvBarrierDestroy Ofdm.start_barrier;
      Ofdm.EvBarrierDestroy Ofdm.sync_barrier;
      Ofdm.EvStdout Ofdm.MsgComplete].

(** [c] returns from every state with an 8-entry [transmitting] array
    and adds exactly [evs] to the log. *)
Definition ofdm_logs (c : M Ofdm.world unit) (evs : list Ofdm.event)
  : Prop :=
  forall w, length (Ofdm.transmitting w) = 8%nat ->
  exists w',
    c w = Some (tt, w')
    /\ length (Ofdm.transmitting w') = 8%nat
    /\ Ofdm.log w' = Ofdm.log w ++ evs.

(** Total of the sleeps of the OFDM controller, in microseconds. *)
Fixpoint usleep_total (l : list Ofdm.event) : Z :=
  match l with
  | [] => 0
  | Ofdm.EvUsleep usec :: l' => usec + usleep_total l'
  | _ :: l' => usleep_total l'
  end.

(** Thread and barrier management of the OFDM controller. *)
Definition is_carrier_lifecycle (e : Ofdm.event) : bool :=
  match e with
  | Ofdm.EvBarrierInit _ _ | Ofdm.EvBarrierDestroy _
  | Ofdm.EvThreadCreate _ _ _ | Ofdm.EvThreadCancel _
  | Ofdm.EvThreadJoin _ => true
  | _ => false
  end.

Definition carrier_lifecycle (l : list Ofdm.event) : list Ofdm.event :=
  filter is_carrier_lifecycle l.

(** [c] returns, keeps the size of [transmitting] and its entries from
    index [n] on. *)
Definition keeps_outside (n : nat) (c : M Ofdm.world unit) : Prop :=
  forall w, length (Ofdm.transmitting w) = 8%nat ->
  exists w',
    c w = Some (tt, w')
    /\ length (Ofdm.transmitting w') = 8%nat
    /\ forall i, (n <= i)%nat ->
         nth_error (Ofdm.transmitting w') i
         = nth_error (Ofdm.transmitting w) i.

(** As [keeps_outside], and [transmitting[i] = 0] for [i < n] on
    return. *)
Definition switches_off (n : nat) (c : M Ofdm.world unit) : Prop :=
  forall w, length (Ofdm.transmitting w) = 8%nat ->
  exists w',
    c w = Some (tt, w')
    /\ length (Ofdm.transmitting w') = 8%nat
    /\ (forall i, (n <= i)%nat ->
          nth_error (Ofdm.transmitting w') i
          = nth_error (Ofdm.transmitting w) i)
    /\ forall i, (i < n)%nat ->
         nth_error (Ofdm.transmitting w') i = Some 0.

(** [c] returns and leaves [transmitting] as it is. *)
Definition keeps_transmitting (c : M Ofdm.world unit) : Prop :=
  forall w, exists w',
    c w = Some (tt, w')
    /\ Ofdm.transmitting w' = Ofdm.transmitting w.

(** The command lines after which ofdm_transmitter.c sends a frame. *)
Definition ofdm_accepts (argv : list string) : bool :=
  match argv with
  | [_; base; _; n; _] =>
      (1 <=? Tone.atoi n) && (Tone.atoi n <=? Ofdm.MAX_SUBCARRIERS)
      && (20 <=? Tone.atoi base) && (Tone.atoi base <=? 24000)
  | _ => false
  end.

(** *** WAV playback logs *)

(** What the AM controller logs for sample number [i]. *)
Definition am_sample_log (num_samples sample_rate num_cores i sample : Z)
  : list WavPlayer.event :=
  [WavPlayer.EvMutexLock]
  ++ map (fun j =>
       WavPlayer.EvActive j
         (if j <? WavPlayer.sample_to_cores sample num_cores then 1 else 0))
       (count_from (Z.to_nat num_cores) 0)
  ++ [WavPlayer.EvMutexUnlock]
  ++ (if Z.rem i (Z.quot sample_rate 10) =? 0
      then [WavPlayer.EvStdout
              (WavPlayer.MsgProgress (Z.quot (s32 (i * 100)) num_samples))]
      else [])
  ++ [WavPlayer.EvNanosleep (Z.quot 1000000000 sample_rate)].

(** What the PWM controller logs for sample number [i]. *)
Definition pwm_sample_log (num_samples sample_rate num_cores i sample : Z)
  : list WavPlayer.event :=
  [WavPlayer.EvMutexLock]
  ++ map (fun j => WavPlayer.EvDutyCycle j (Some sample))
       (count_from (Z.to_nat num_cores) 0)
  ++ [WavPlayer.EvMutexUnlock]
  ++ (if Z.rem i (Z.quot sample_rate 10) =? 0
      then [WavPlayer.EvStdout
              (WavPlayer.MsgProgress (Z.quot (s32 (i * 100)) num_samples))]
      else [])
  ++ [WavPlayer.EvNanosleep (Z.quot 1000000000 sample_rate)].

(** The log of the sample loop from sample number [i] on. *)
Fixpoint samples_log (per_sample : Z -> Z -> list WavPlayer.event)
    (rest : list Z) (i : Z) : list WavPlayer.event :=
  match rest with
  | [] => []
  | sample :: rest' =>
      per_sample i sample ++ samples_log per_sample rest' (i + 1)
  end.

(** The stores to the [active] flags found in a log, as pairs of worker
    and value. *)
Fixpoint active_stores (l : list WavPlayer.event) : list (Z * Z) :=
  match l with
  | [] => []
  | WavPlayer.EvActive j v :: l' => (j, v) :: active_stores l'
  | _ :: l' => active_stores l'
  end.

(** The stores to the [duty_cycle] fields found in a log, as pairs of
    worker and the sample the value is computed from. *)
Fixpoint duty_stores (l : list WavPlayer.event) : list (Z * option Z) :=
  match l with
  | [] => []
  | WavPlayer.EvDutyCycle j s :: l' => (j, s) :: duty_stores l'
  | _ :: l' => duty_stores l'
  end.

(** Thread management of the playback controller. *)
Definition is_worker_lifecycle (e : WavPlayer.event) : bool :=
  match e with
  | WavPlayer.EvThreadCreate _ _ _ | WavPlayer.EvThreadCancel _
  | WavPlayer.EvThreadJoin _ => true
  | _ => false
  end.

Definition worker_lifecycle (l : list WavPlayer.event)
  : list WavPlayer.event :=
  filter is_worker_lifecycle l.

(** Entered with [running] set, [c] returns with [running] as it was,
    [dt] nanoseconds later, having added [evs] to the log. *)
Definition plays (c : M WavPlayer.world unit) (evs : list WavPlayer.event)
    (dt : Z) : Prop :=
  forall w, WavPlayer.running w <> 0 ->
  exists w',
    c w = Some (tt, w')
    /\ WavPlayer.running w' = WavPlayer.running w
    /\ WavPlayer.now w' = WavPlayer.now w + dt
    /\ WavPlayer.log w' = WavPlayer.log w ++ evs.

(** [c] returns from every state, without creating a thread it does not
    join. *)
Definition wav_returns (c : M WavPlayer.world unit) : Prop :=
  forall w, exists w', c w = Some (tt, w').

(** The arguments that wav_player.c accepts before it opens the file. *)
Definition wav_args_ok (argv : list string) : bool :=
  let argc := Z.of_nat (length argv) in
  let arg (i : nat) := nth i argv EmptyString in
  (2 <=? argc)
  && ((argc <? 3)
      || ((1 <=? Tone.atoi (arg 2%nat))
          && (Tone.atoi (arg 2%nat) <=? WavPlayer.MAX_CORES)))
  && ((argc <? 4)
      || WavPlayer.strcasecmp_eq (arg 3%nat) "am"
      || WavPlayer.strcasecmp_eq (arg 3%nat) "pwm").

(** * Properties *)

(** ** Exhaustive checks over the byte values *)

Lemma upto_complete n z : 0 <= z < Z.of_nat n -> In z (upto n).
Proof.
  intros [Hlo Hhi]. unfold upto.
  rewrite <- (Z2Nat.id z) by exact Hlo.
  apply in_map, in_seq. lia.
Qed.

Lemma forall_upto (P : Z -> bool) n :
  forallb P (upto n) = true -> forall z, 0 <= z < Z.of_nat n -> P z = true.
Proof.
  intros H z Hz. rewrite forallb_forall in H.
  apply H, upto_complete, Hz.
Qed.

Lemma forall_bytes (P : Z -> bool) :
  forallb P byte_range = true -> forall b, is_byte b -> P b = true.
Proof. intros H b Hb. apply (forall_upto P 256 H). exact Hb. Qed.

(** Case analysis on an integer [z] with [0 <= z < n] in the context. *)
Ltac enumerate z n :=
  let E := fresh "E" in
  assert (E : In z (upto n)) by (apply upto_complete; lia);
  simpl in E;
  repeat (destruct E as [<-|E]); [..|destruct E].

Lemma u8_is_byte x : is_byte (u8 x).
Proof. unfold is_byte, u8. apply Z.mod_pos_bound. lia. Qed.

Lemma u8_land x : u8 x = Z.land x 255.
Proof.
  unfold u8. change 256 with (2 ^ 8).
  rewrite <- Z.land_ones by lia. reflexivity.
Qed.

Lemma u8_byte b : is_byte b -> u8 b = b.
Proof. intros Hb. unfold u8. apply Z.mod_small. exact Hb. Qed.

Lemma u8_lxor a b : u8 (Z.lxor a b) = Z.lxor (u8 a) (u8 b).
Proof.
  rewrite !u8_land. apply Z.bits_inj'. intros n _.
  rewrite Z.lxor_spec, !Z.land_spec, Z.lxor_spec.
  destruct (Z.testbit a n), (Z.testbit b n), (Z.testbit 255 n); reflexivity.
Qed.

Lemma lxor_cancel_l a b c : Z.lxor a b = Z.lxor a c -> b = c.
Proof.
  intros H.
  rewrite <- (Z.lxor_0_l b), <- (Z.lxor_nilpotent a), Z.lxor_assoc, H.
  rewrite <- Z.lxor_assoc, Z.lxor_nilpotent. apply Z.lxor_0_l.
Qed.

(** ** CRC-8 *)

Section Crc8.

Import Modulation.

Lemma crc8_shift_is_byte c : is_byte (crc8_shift c).
Proof. unfold crc8_shift. destruct (negb _); apply u8_is_byte. Qed.

Lemma crc8_inner_is_byte n : forall c, is_byte c -> is_byte (crc8_inner n c).
Proof.
  induction n as [|n IH]; intros c Hc; simpl; [exact Hc|].
  apply IH, crc8_shift_is_byte.
Qed.

Lemma crc8_loop_is_byte data : forall c, is_byte c -> is_byte (crc8_loop data c).
Proof.
  induction data as [|b rest IH]; intros c Hc; cbn [crc8_loop]; [exact Hc|].
  apply IH, crc8_inner_is_byte, u8_is_byte.
Qed.

(** The copy in main.c computes the same function. *)
Lemma tone_crc8_bits j : forall c,
  Tone.calculate_crc8_bits j 0x07 c = crc8_inner j c.
Proof. induction j as [|j IH]; intros c; simpl; [reflexivity|]. apply IH. Qed.

Lemma tone_crc8_from data : forall c,
  Tone.calculate_crc8_from data 0x07 c = crc8_loop data c.
Proof.
  induction data as [|b rest IH]; intros c;
    cbn [Tone.calculate_crc8_from crc8_loop]; [reflexivity|].
  rewrite tone_crc8_bits. apply IH.
Qed.

Lemma tone_calculate_crc8 data :
  Tone.calculate_crc8 data = calculate_crc8 data.
Proof. apply tone_crc8_from. Qed.

Import Crc8Ref.

Lemma bits_of_byte_u8 x : bits_of_byte (u8 x) = bits_of_byte x.
Proof.
  unfold bits_of_byte, u8. apply map_ext_in. intros i Hi.
  change 256 with (2 ^ 8). apply Z.mod_pow2_bits_low.
  apply in_rev, in_seq in Hi. lia.
Qed.

Lemma xor_bits_map {A} (f g : A -> bool) l :
  xor_bits (map f l) (map g l) = map (fun i => xorb (f i) (g i)) l.
Proof. induction l as [|i l IH]; simpl; [reflexivity|]. now rewrite IH. Qed.

Lemma bits_of_byte_lxor a b :
  bits_of_byte (Z.lxor a b) = xor_bits (bits_of_byte a) (bits_of_byte b).
Proof.
  unfold bits_of_byte. rewrite xor_bits_map.
  apply map_ext. intros i. apply Z.lxor_spec.
Qed.

Lemma reg_eqb_eq a b : reg_eqb a b = true -> a = b.
Proof. unfold reg_eqb. destruct (list_eq_dec bool_dec a b); [auto|discriminate]. Qed.

Lemma division_step_shift c :
  is_byte c -> bits_of_byte (crc8_shift c) = division_step (bits_of_byte c).
Proof.
  intros Hc. apply reg_eqb_eq. revert c Hc.
  apply (forall_bytes
           (fun c => reg_eqb (bits_of_byte (crc8_shift c))
                       (division_step (bits_of_byte c)))).
  vm_compute. reflexivity.
Qed.

Lemma division_steps_inner n : forall c,
  is_byte c ->
  bits_of_byte (crc8_inner n c) = Nat.iter n division_step (bits_of_byte c).
Proof.
  induction n as [|n IH]; intros c Hc; [reflexivity|].
  rewrite Nat.iter_succ_r, <- division_step_shift by exact Hc.
  simpl. apply IH, crc8_shift_is_byte.
Qed.

Lemma feed_byte_loop data : forall c,
  is_byte c ->
  bits_of_byte (crc8_loop data c) = fold_left feed_byte data (bits_of_byte c).
Proof.
  induction data as [|b rest IH]; intros c Hc;
    cbn [crc8_loop fold_left]; [reflexivity|].
  rewrite IH by apply crc8_inner_is_byte, u8_is_byte.
  f_equal. unfold feed_byte.
  rewrite division_steps_inner by apply u8_is_byte.
  rewrite bits_of_byte_u8, bits_of_byte_lxor. reflexivity.
Qed.

Lemma Z_of_bits_of_byte c : is_byte c -> Z_of_bits (bits_of_byte c) = c.
Proof.
  intros Hc. apply Z.eqb_eq. revert c Hc.
  apply (forall_bytes (fun c => Z_of_bits (bits_of_byte c) =? c)).
  vm_compute. reflexivity.
Qed.

(** C2.  [calculate_crc8] (both copies, modulation.c and main.c) is the
    bit-serial CRC-8 of generator 0x07 and initial value 0x00, most
    significant bit first: on every byte sequence it returns the value of
    the bit-level reference [crc8_ref] (xor the byte into the register,
    then eight shift/xor division steps), and [verify_crc8] accepts the
    checksum computed from the same data. *)
Theorem calculate_crc8_is_reference_crc8 (data : list Z) :
  calculate_crc8 data = crc8_ref data
  /\ Tone.calculate_crc8 data = crc8_ref data
  /\ verify_crc8 data (calculate_crc8 data) = 1.
Proof.
  assert (Href : calculate_crc8 data = crc8_ref data).
  { unfold crc8_ref, calculate_crc8.
    change zero_reg with (bits_of_byte 0).
    rewrite <- feed_byte_loop by (unfold is_byte; lia).
    symmetry. apply Z_of_bits_of_byte, crc8_loop_is_byte.
    unfold is_byte; lia. }
  repeat split.
  - exact Href.
  - rewrite tone_calculate_crc8. exact Href.
  - unfold verify_crc8. simpl. rewrite Z.eqb_refl. reflexivity.
Qed.

(** The published check value of CRC-8 (poly 0x07, init 0x00) on the
    ASCII digits 1 to 9. *)
Example calculate_crc8_check_value :
  calculate_crc8 [49; 50; 51; 52; 53; 54; 55; 56; 57] = 0xF4.
Proof. reflexivity. Qed.

(** *** Single-bit errors *)

Lemma crc8_unshift_shift c : is_byte c -> crc8_unshift (crc8_shift c) = c.
Proof.
  intros Hc. apply Z.eqb_eq. revert c Hc.
  apply (forall_bytes (fun c => crc8_unshift (crc8_shift c) =? c)).
  vm_compute. reflexivity.
Qed.

Lemma crc8_inner_inj n : forall c c',
  is_byte c -> is_byte c' -> crc8_inner n c = crc8_inner n c' -> c = c'.
Proof.
  induction n as [|n IH]; intros c c' Hc Hc' H; [exact H|].
  apply IH in H; try apply crc8_shift_is_byte.
  rewrite <- (crc8_unshift_shift c Hc), <- (crc8_unshift_shift c' Hc').
  now rewrite H.
Qed.

(** Two runs of the loop over the same bytes that end in the same value
    were fed the same (truncated) first operand. *)
Lemma crc8_loop_step_inj rest x y :
  crc8_loop rest (crc8_inner 8 (u8 x)) = crc8_loop rest (crc8_inner 8 (u8 y))
  -> (forall c c', is_byte c -> is_byte c' ->
                   crc8_loop rest c = crc8_loop rest c' -> c = c')
  -> u8 x = u8 y.
Proof.
  intros H Hrest.
  apply Hrest in H; try apply crc8_inner_is_byte, u8_is_byte.
  apply crc8_inner_inj in H; auto using u8_is_byte.
Qed.

Lemma crc8_loop_inj data : forall c c',
  is_byte c -> is_byte c' -> crc8_loop data c = crc8_loop data c' -> c = c'.
Proof.
  induction data as [|b rest IH]; intros c c' Hc Hc' H;
    cbn [crc8_loop] in H; [exact H|].
  apply crc8_loop_step_inj in H; [|exact IH].
  rewrite !u8_lxor, (Z.lxor_comm (u8 c)), (Z.lxor_comm (u8 c')) in H.
  apply lxor_cancel_l in H. now rewrite !u8_byte in H.
Qed.

Lemma u8_bit_nonzero k : 0 <= k < 8 -> u8 (Z.shiftl 1 k) <> 0.
Proof.
  intros Hk. enumerate k 8%nat; discriminate.
Qed.

Lemma crc8_loop_flip data : forall i k c,
  (i < length data)%nat -> 0 <= k < 8 -> is_byte c ->
  crc8_loop (flip_bit data i k) c <> crc8_loop data c.
Proof.
  induction data as [|b rest IH]; intros i k c Hi Hk Hc; simpl in Hi; [lia|].
  destruct i as [|i]; cbn [flip_bit crc8_loop].
  - intros H. apply crc8_loop_step_inj in H; [|apply crc8_loop_inj].
    rewrite !u8_lxor in H. apply lxor_cancel_l in H.
    rewrite <- (Z.lxor_0_r (u8 b)) in H at 2.
    apply lxor_cancel_l in H. now apply (u8_bit_nonzero k).
  - apply IH; [lia|exact Hk|apply crc8_inner_is_byte, u8_is_byte].
Qed.

(** C6.  Inverting any one bit of any one byte of [data] changes
    [calculate_crc8], so [verify_crc8] of the modified data against the
    checksum of the original returns 0. *)
Theorem crc8_detects_single_bit_flip (data : list Z) (i : nat) (k : Z) :
  (i < length data)%nat -> 0 <= k < 8 ->
  calculate_crc8 (flip_bit data i k) <> calculate_crc8 data
  /\ verify_crc8 (flip_bit data i k) (calculate_crc8 data) = 0.
Proof.
  intros Hi Hk.
  assert (Hne : calculate_crc8 (flip_bit data i k) <> calculate_crc8 data).
  { apply crc8_loop_flip; [exact Hi|exact Hk|unfold is_byte; lia]. }
  split; [exact Hne|].
  unfold verify_crc8. cbv zeta.
  destruct (Z.eqb_spec (calculate_crc8 (flip_bit data i k))
              (calculate_crc8 data)); [contradiction|reflexivity].
Qed.

Lemma crc8_detects_single_bit_flip_witness :
  calculate_crc8 (flip_bit [0x48; 0x49] 1 3) <> calculate_crc8 [0x48; 0x49]
  /\ verify_crc8 (flip_bit [0x48; 0x49] 1 3) (calculate_crc8 [0x48; 0x49]) = 0.
Proof.
  apply (crc8_detects_single_bit_flip [0x48; 0x49] 1 3); simpl; lia.
Defined.

End Crc8.

(** ** Hamming(7,4) *)

Section Hamming.

Import Modulation.

(** C7.  For every 4-bit value [n]: the code word of [n] carries the data
    bits d1..d4 (bits 0..3 of [n]) at bit positions 2, 4, 5, 6 and the
    parities p1 = d1 xor d2 xor d4, p2 = d1 xor d3 xor d4,
    p3 = d2 xor d3 xor d4 at positions 0, 1, 3; decoding the code word
    gives [n]; and decoding the code word with any one of its seven bits
    inverted gives [n] as well. *)
Theorem hamming74_roundtrip_and_correction (n : Z) :
  0 <= n <= 15 ->
  hamming74_decode (hamming74_encode n) = n
  /\ (let d1 := Z.testbit n 0 in
      let d2 := Z.testbit n 1 in
      let d3 := Z.testbit n 2 in
      let d4 := Z.testbit n 3 in
      let e := hamming74_encode n in
      Z.testbit e 0 = xorb (xorb d1 d2) d4
      /\ Z.testbit e 1 = xorb (xorb d1 d3) d4
      /\ Z.testbit e 3 = xorb (xorb d2 d3) d4
      /\ Z.testbit e 2 = d1 /\ Z.testbit e 4 = d2
      /\ Z.testbit e 5 = d3 /\ Z.testbit e 6 = d4
      /\ 0 <= e < 128)
  /\ (forall k, 0 <= k < 7 ->
        hamming74_decode (Z.lxor (hamming74_encode n) (Z.shiftl 1 k)) = n).
Proof.
  intros Hn.
  enumerate n 16%nat;
    (split; [reflexivity|split; [cbv; intuition congruence|]]);
    intros k Hk; enumerate k 7%nat; reflexivity.
Qed.

Lemma hamming74_roundtrip_and_correction_witness :
  hamming74_decode (hamming74_encode 11) = 11
  /\ hamming74_decode (Z.lxor (hamming74_encode 11) (Z.shiftl 1 4)) = 11.
Proof.
  assert (H : 0 <= 11 <= 15) by lia.
  split.
  - apply (proj1 (hamming74_roundtrip_and_correction 11 H)).
  - apply (proj2 (proj2 (hamming74_roundtrip_and_correction 11 H))). lia.
Defined.

End Hamming.

(** ** Manchester line code *)

Section Manchester.

Import Modulation.

Lemma forall_byte_pairs (P : Z -> Z -> bool) :
  forallb (fun a => forallb (P a) byte_range) byte_range = true ->
  forall a b, is_byte a -> is_byte b -> P a b = true.
Proof.
  intros H a b Ha Hb.
  apply (forall_bytes (P a)); [|exact Hb].
  apply (forall_bytes (fun a => forallb (P a) byte_range) H a Ha).
Qed.

(** The two bytes stored for one input byte. *)
Lemma manchester_decode_encoded_byte b :
  is_byte b ->
  let encoded := manchester_encode_bits 8 b 0 in
  manchester_decode_symbols 8 0
    (u16 (Z.lor (Z.shiftl (Z.land (Z.shiftr encoded 8) 0xFF) 8)
            (Z.land encoded 0xFF))) 0 = Some b.
Proof.
  intros Hb.
  assert (H : (fun b =>
            match manchester_decode_symbols 8 0
                    (u16 (Z.lor
                       (Z.shiftl
                          (Z.land (Z.shiftr (manchester_encode_bits 8 b 0) 8)
                             0xFF) 8)
                       (Z.land (manchester_encode_bits 8 b 0) 0xFF))) 0 with
            | Some d => d =? b
            | None => false
            end) b = true).
  { revert b Hb. apply forall_bytes. vm_compute. reflexivity. }
  cbv beta zeta in *.
  destruct (manchester_decode_symbols _ _ _ _) as [d|]; [|discriminate].
  apply Z.eqb_eq in H. now subst d.
Qed.

Lemma manchester_decode_loop_encode x : forall out,
  Forall is_byte x ->
  manchester_decode_loop (manchester_encode x) out = (0, out ++ x).
Proof.
  induction x as [|b rest IH]; intros out Hx.
  - simpl. now rewrite app_nil_r.
  - inversion Hx as [|? ? Hb Hrest]; subst.
    cbn [manchester_encode manchester_decode_loop].
    rewrite (manchester_decode_encoded_byte b Hb).
    rewrite IH by exact Hrest. now rewrite <- app_assoc.
Qed.

Lemma manchester_encode_length x :
  length (manchester_encode x) = (2 * length x)%nat.
Proof.
  induction x as [|b rest IH]; [reflexivity|].
  cbn [manchester_encode length]. rewrite IH. lia.
Qed.

(** A pair of bytes decodes exactly when all eight symbols are 01 or
    10. *)
Lemma manchester_decode_pair hi lo :
  is_byte hi -> is_byte lo ->
  manchester_decode_symbols 8 0 (u16 (Z.lor (Z.shiftl hi 8) lo)) 0 = None
  <-> valid_symbols hi && valid_symbols lo = false.
Proof.
  intros Hhi Hlo.
  pose (P := fun hi lo =>
    match manchester_decode_symbols 8 0
            (u16 (Z.lor (Z.shiftl hi 8) lo)) 0 with
    | Some _ => valid_symbols hi && valid_symbols lo
    | None => negb (valid_symbols hi && valid_symbols lo)
    end).
  assert (H : P hi lo = true).
  { apply (forall_byte_pairs P); [|exact Hhi|exact Hlo].
    vm_compute. reflexivity. }
  unfold P in H.
  destruct (manchester_decode_symbols 8 0 _ 0),
    (valid_symbols hi && valid_symbols lo);
    simpl in H; split; intros; congruence.
Qed.

Lemma invalid_symbol_not_valid b k :
  0 <= k < 4 -> manchester_symbol b k <> 1 -> manchester_symbol b k <> 2 ->
  valid_symbols b = false.
Proof.
  intros Hk H1 H2.
  apply Z.eqb_neq in H1. apply Z.eqb_neq in H2.
  unfold valid_symbols, forallb.
  enumerate k 4%nat; rewrite H1, H2; simpl;
    repeat rewrite andb_false_r; reflexivity.
Qed.

Lemma manchester_decode_loop_invalid n : forall input out b k,
  (length input <= n)%nat -> Nat.Even (length input) ->
  Forall is_byte input -> In b input -> 0 <= k < 4 ->
  manchester_symbol b k <> 1 -> manchester_symbol b k <> 2 ->
  fst (manchester_decode_loop input out) = -1.
Proof.
  induction n as [|n IH]; intros input out b k Hn Hev Hbytes Hin Hk H1 H2.
  - destruct input; [destruct Hin|simpl in Hn; lia].
  - destruct input as [|hi [|lo rest]]; [destruct Hin| |].
    + destruct Hev as [m Hm]. simpl in Hm. lia.
    + inversion Hbytes as [|? ? Hhi Hb']; subst.
      inversion Hb' as [|? ? Hlo Hrest]; subst.
      cbn [manchester_decode_loop].
      destruct (manchester_decode_symbols 8 0 _ 0) as [d|] eqn:Hd;
        [|reflexivity].
      assert (Hv : valid_symbols hi && valid_symbols lo = true).
      { destruct (valid_symbols hi && valid_symbols lo) eqn:Hv;
          [reflexivity|].
        apply (manchester_decode_pair hi lo Hhi Hlo) in Hv. congruence. }
      apply andb_prop in Hv. destruct Hv as [Hvhi Hvlo].
      apply IH with (b := b) (k := k); auto.
      * simpl in Hn. lia.
      * destruct Hev as [m Hm]. simpl in Hm. exists (m - 1)%nat. lia.
      * destruct Hin as [<-|[<-|Hin]]; [| |exact Hin].
        -- rewrite (invalid_symbol_not_valid hi k) in Hvhi by assumption.
           discriminate.
        -- rewrite (invalid_symbol_not_valid lo k) in Hvlo by assumption.
           discriminate.
Qed.

Lemma odd_length_mod (input : list Z) :
  Nat.Odd (length input) -> Z.of_nat (length input) mod 2 = 1.
Proof.
  intros [m Hm]. rewrite Hm.
  replace (Z.of_nat (2 * m + 1)) with (1 + Z.of_nat m * 2) by lia.
  now rewrite Z.mod_add by lia.
Qed.

(** C8.  For a sequence [x] of bytes: decoding the Manchester encoding of
    [x] succeeds (return value 0) and writes back [x]; the encoding has
    twice the length of [x]; and [manchester_decode] applied to [x] itself
    returns -1 when [x] has odd length (then nothing is written) and when
    some two-bit symbol of [x] is neither 01 nor 10. *)
Theorem manchester_roundtrip_and_errors (x : list Z) :
  Forall is_byte x ->
  manchester_decode (manchester_encode x) = (0, x)
  /\ length (manchester_encode x) = (2 * length x)%nat
  /\ (Nat.Odd (length x) -> manchester_decode x = (-1, []))
  /\ (has_invalid_symbol x -> fst (manchester_decode x) = -1).
Proof.
  intros Hx. repeat split.
  - unfold manchester_decode. rewrite manchester_encode_length.
    replace (Z.of_nat (2 * length x)) with (0 + Z.of_nat (length x) * 2)
      by lia.
    rewrite Z.mod_add by lia. simpl.
    apply (manchester_decode_loop_encode x [] Hx).
  - apply manchester_encode_length.
  - intros Hodd. unfold manchester_decode.
    now rewrite (odd_length_mod x Hodd).
  - intros (b & k & Hin & Hk & H1 & H2). unfold manchester_decode.
    destruct (Z.eqb_spec (Z.of_nat (length x) mod 2) 0) as [He|Hne];
      [|reflexivity].
    simpl.
    apply (manchester_decode_loop_invalid (length x) x [] b k); auto.
    exists (length x / 2)%nat.
    assert (Hm : (length x mod 2 = 0)%nat).
    { apply Nat2Z.inj. rewrite Nat2Z.inj_mod. exact He. }
    pose proof (Nat.div_mod_eq (length x) 2). lia.
Qed.

Lemma manchester_roundtrip_and_errors_witness :
  manchester_decode (manchester_encode [0x00]) = (0, [0x00])
  /\ length (manchester_encode [0x00]) = 2%nat
  /\ manchester_decode [0x00] = (-1, [])
  /\ fst (manchester_decode [0x00]) = -1.
Proof.
  assert (Hx : Forall is_byte [0x00]).
  { constructor; [unfold is_byte; lia|constructor]. }
  destruct (manchester_roundtrip_and_errors [0x00] Hx)
    as (Hrt & Hlen & Hodd & Hsym).
  split; [exact Hrt|split; [exact Hlen|split]].
  - apply Hodd. exists 0%nat. reflexivity.
  - apply Hsym. exists 0x00, 0. unfold manchester_symbol. simpl.
    repeat split; try lia; auto.
Defined.

(** The frame of the self-test in modulation.c. *)
Example manchester_encode_AA55 :
  manchester_encode [0xAA; 0x55] = [0x99; 0x99; 0x66; 0x66].
Proof. reflexivity. Qed.

(** An even-length input with a 00 symbol: the first pair is written,
    the second is refused. *)
Example manchester_decode_partial :
  manchester_decode [0xAA; 0x55; 0x0A; 0xFF] = (-1, [0xF0]).
Proof. reflexivity. Qed.

End Manchester.

(** ** Tone generator and FSK framing *)

Section ToneGenerator.

Import Tone.
Local Open Scope ctl_scope.

Lemma tone_calls_app l1 l2 :
  tone_calls (l1 ++ l2) = tone_calls l1 ++ tone_calls l2.
Proof.
  induction l1 as [|e l1 IH]; [reflexivity|].
  destruct e; simpl; rewrite IH; reflexivity.
Qed.

(** Equations of the controller monad, used from left to right. *)
Lemma bind_emit {B} e (k : unit -> M world B) w :
  bind (emit e) k w = k tt (record e w).
Proof. reflexivity. Qed.

Lemma bind_act {B} f (k : unit -> M world B) w :
  bind (act f) k w = k tt (f w).
Proof. reflexivity. Qed.

Lemma bind_gets {A B} (f : world -> A) (k : A -> M world B) w :
  bind (gets f) k w = k (f w) w.
Proof. reflexivity. Qed.

Lemma bind_ret {A B} (a : A) (k : A -> M world B) w :
  bind (ret a) k w = k a w.
Proof. reflexivity. Qed.

Lemma bind_bind {A B C} (c : M world A) (f : A -> M world B)
    (k : B -> M world C) w :
  bind (bind c f) k w = bind c (fun a => bind (f a) k) w.
Proof. unfold bind. destruct (c w) as [[a w']|]; reflexivity. Qed.

Lemma bind_clock_gettime {B} (k : Z -> M world B) w :
  bind clock_gettime k w = k (now w) (record (EvClockGettime (now w)) w).
Proof. reflexivity. Qed.

(** [for_up] over a body that only logs. *)
Lemma for_up_emit (f : Z -> event) n : forall lo w,
  for_up n lo (fun i => emit (f i)) w
  = Some (tt, append_log (map f (count_from n lo)) w).
Proof.
  induction n as [|n IH]; intros lo w; cbn [for_up count_from map].
  - unfold ret, append_log. rewrite app_nil_r. now destruct w.
  - rewrite bind_emit, IH. unfold append_log. simpl.
    now rewrite <- app_assoc.
Qed.

Lemma bind_for_up_emit {B} (f : Z -> event) n lo (k : unit -> M world B) w :
  bind (for_up n lo (fun i => emit (f i))) k w
  = k tt (append_log (map f (count_from n lo)) w).
Proof. unfold bind. now rewrite for_up_emit. Qed.

Ltac ctl_step :=
  first [ rewrite bind_emit | rewrite bind_act | rewrite bind_gets
        | rewrite bind_ret | rewrite bind_clock_gettime
        | rewrite bind_for_up_emit | rewrite bind_bind ];
  cbv beta.

Tactic Notation "ctl_simpl" :=
  unfold record, append_log, set_running, set_LO, set_cycle_nano,
    set_half_cycle_nano, set_now;
  cbn [running LO cycle_nano half_cycle_nano now euid log].

Tactic Notation "ctl_simpl" "in" hyp(H) :=
  unfold record, append_log, set_running, set_LO, set_cycle_nano,
    set_half_cycle_nano, set_now in H;
  cbn [running LO cycle_nano half_cycle_nano now euid log] in H.

Ltac ctl_steps := repeat (ctl_step; ctl_simpl).

Lemma validate_frequency_0 freq :
  freq < 20 \/ 24000 < freq -> validate_frequency freq = 0.
Proof.
  intros H. unfold validate_frequency, MIN_FREQ, MAX_FREQ.
  destruct (Z.geb_spec freq 20), (Z.leb_spec freq 24000);
    simpl; try reflexivity; lia.
Qed.

Lemma validate_frequency_1 freq :
  20 <= freq <= 24000 -> validate_frequency freq = 1.
Proof.
  intros H. unfold validate_frequency, MIN_FREQ, MAX_FREQ.
  destruct (Z.geb_spec freq 20), (Z.leb_spec freq 24000);
    simpl; try reflexivity; lia.
Qed.

Lemma validate_frequency_cases freq :
  (validate_frequency freq = 0 /\ (freq < 20 \/ 24000 < freq))
  \/ (validate_frequency freq = 1 /\ 20 <= freq <= 24000).
Proof.
  destruct (Z_lt_le_dec freq 20); [left|].
  - split; [apply validate_frequency_0|]; lia.
  - destruct (Z_lt_le_dec 24000 freq); [left|right].
    + split; [apply validate_frequency_0|]; lia.
    + split; [apply validate_frequency_1|]; lia.
Qed.

Lemma generate_tone_invalid budget freq duration_ms num_cores w :
  validate_frequency freq = 0 ->
  generate_tone budget freq duration_ms num_cores w
  = Some (tt, append_log [EvGenerateTone freq duration_ms num_cores;
                          EvStderr (MsgInvalidFrequency freq)] w).
Proof.
  intros Hf. unfold generate_tone. ctl_step. rewrite Hf. cbn [Z.eqb].
  unfold emit, act, append_log. ctl_simpl. now rewrite <- app_assoc.
Qed.

(** C4 (amended).  A call of [generate_tone] with a frequency outside
    [20, 24000] returns after reporting the invalid frequency on stderr:
    the log gains the entry into the function and that report only (no
    barrier is initialised, no thread is created), and [running], [LO],
    [cycle_nano], [half_cycle_nano] and the clock are as before.  The
    unit count is not examined. *)
Theorem generate_tone_rejects_frequency
    (budget : nat) (freq duration_ms num_cores : Z) (w : world) :
  freq < 20 \/ 24000 < freq ->
  exists w',
    generate_tone budget freq duration_ms num_cores w = Some (tt, w')
    /\ log w' = log w ++ [EvGenerateTone freq duration_ms num_cores;
                          EvStderr (MsgInvalidFrequency freq)]
    /\ running w' = running w /\ LO w' = LO w
    /\ cycle_nano w' = cycle_nano w
    /\ half_cycle_nano w' = half_cycle_nano w
    /\ now w' = now w.
Proof.
  intros Hf.
  rewrite generate_tone_invalid by (apply validate_frequency_0, Hf).
  eexists. split; [reflexivity|]. repeat split.
Qed.

Lemma generate_tone_rejects_frequency_witness :
  exists w',
    generate_tone 0 5 1000 4 (initial_world 0 1000) = Some (tt, w')
    /\ log w' = log (initial_world 0 1000)
                ++ [EvGenerateTone 5 1000 4; EvStderr (MsgInvalidFrequency 5)]
    /\ running w' = running (initial_world 0 1000)
    /\ LO w' = LO (initial_world 0 1000)
    /\ cycle_nano w' = cycle_nano (initial_world 0 1000)
    /\ half_cycle_nano w' = half_cycle_nano (initial_world 0 1000)
    /\ now w' = now (initial_world 0 1000).
Proof.
  apply (generate_tone_rejects_frequency 0 5 1000 4 (initial_world 0 1000)).
  left. lia.
Defined.

(** C4 (as stated, refuted).  With a valid frequency and 33 cores, above
    [MAX_CORES], [generate_tone] reports nothing: it initialises both
    barriers for 34 parties, writes the timing globals and creates 33
    threads. *)
Lemma generate_tone_ignores_unit_count :
  MAX_CORES < 33
  /\ exists w',
       exec (generate_tone 1 440 0 33) (initial_world 0 1000) = Some w'
       /\ In (EvBarrierInit half_cycle_barrier_hi 34) (log w')
       /\ In (EvBarrierInit half_cycle_barrier_lo 34) (log w')
       /\ In (EvThreadCreate 32) (log w')
       /\ cycle_nano w' = 2272727 /\ half_cycle_nano w' = 1136363
       /\ ~ In (EvStderr (MsgInvalidFrequency 440)) (log w').
Proof.
  split; [reflexivity|].
  eexists. split; [vm_compute; reflexivity|].
  cbn [log cycle_nano half_cycle_nano].
  repeat split; try (simpl; tauto).
  intros H. simpl in H.
  repeat (destruct H as [H|H]; [discriminate H|]). exact H.
Qed.

(** C5 (as stated, refuted).  At 440 Hz, 0 ms and 2 cores both worker
    threads are created (and cancelled again). *)
Lemma generate_tone_zero_duration_spawns :
  exists w',
    exec (generate_tone 1 440 0 2) (initial_world 0 1000) = Some w'
    /\ log w' =
       [EvGenerateTone 440 0 2; EvStdout (MsgGenerating 440 0 2);
        EvBarrierInit half_cycle_barrier_hi 3;
        EvBarrierInit half_cycle_barrier_lo 3;
        EvThreadCreate 0; EvThreadCreate 1;
        EvClockGettime 0; EvClockGettime 0;
        EvThreadCancel 0; EvThreadCancel 1;
        EvBarrierDestroy half_cycle_barrier_hi;
        EvBarrierDestroy half_cycle_barrier_lo].
Proof. eexists. split; vm_compute; reflexivity. Qed.

(** C5 (amended).  With a valid frequency and a duration of 0 ms,
    [generate_tone] returns without any phase flip, barrier wait or
    sleep, and no time passes; but it has initialised both barriers,
    written the timing globals, created one thread per core and
    cancelled them again, and it leaves [running = 0]. *)
Theorem generate_tone_zero_duration
    (budget : nat) (freq num_cores : Z) (w : world) :
  20 <= freq <= 24000 -> (0 < budget)%nat ->
  exists w',
    generate_tone budget freq 0 num_cores w = Some (tt, w')
    /\ log w' =
       log w
       ++ [EvGenerateTone freq 0 num_cores;
           EvStdout (MsgGenerating freq 0 num_cores);
           EvBarrierInit half_cycle_barrier_hi (num_cores + 1);
           EvBarrierInit half_cycle_barrier_lo (num_cores + 1)]
       ++ map EvThreadCreate (count_from (Z.to_nat num_cores) 0)
       ++ [EvClockGettime (now w)]
       ++ (if running w =? 0 then [] else [EvClockGettime (now w)])
       ++ map EvThreadCancel (count_from (Z.to_nat num_cores) 0)
       ++ [EvBarrierDestroy half_cycle_barrier_hi;
           EvBarrierDestroy half_cycle_barrier_lo]
    /\ now w' = now w /\ LO w' = LO w /\ running w' = 0
    /\ cycle_nano w' = Z.quot NANO_PER_SECOND freq
    /\ half_cycle_nano w' = Z.quot (Z.quot NANO_PER_SECOND freq) 2.
Proof.
  intros Hf Hb. destruct budget as [|budget]; [lia|].
  destruct w as [r lo cn hn t uid l].
  unfold generate_tone. ctl_step.
  rewrite (validate_frequency_1 freq Hf). cbn [Z.eqb].
  ctl_steps. cbn [control_loop]. ctl_steps.
  destruct (r =? 0); ctl_steps.
  - unfold emit, act. eexists. split; [reflexivity|]. ctl_simpl.
    rewrite <- !app_assoc. repeat split.
  - rewrite Z.sub_diag. cbn [Z.mul Z.geb Z.compare]. ctl_steps.
    unfold emit, act. eexists. split; [reflexivity|]. ctl_simpl.
    rewrite <- !app_assoc. repeat split.
Qed.

Lemma generate_tone_zero_duration_witness :
  exists w',
    generate_tone 1 440 0 2 (initial_world 0 1000) = Some (tt, w')
    /\ In (EvThreadCreate 1) (log w')
    /\ now w' = 0 /\ running w' = 0.
Proof.
  destruct (generate_tone_zero_duration 1 440 2 (initial_world 0 1000))
    as (w' & Hrun & Hlog & Hnow & _ & Hrunning & _); [lia|lia|].
  exists w'. split; [exact Hrun|]. split; [|split; assumption].
  rewrite Hlog. simpl. tauto.
Defined.

(** *** Termination of the control loop *)

Lemma bind_nanosleep {B} nsec (k : unit -> M world B) w :
  0 <= nsec <= 999999999 ->
  bind (nanosleep nsec) k w
  = k tt (set_now (now w + nsec) (record (EvNanosleep nsec) w)).
Proof.
  intros [Hlo Hhi]. unfold nanosleep. rewrite bind_bind, bind_emit.
  apply Z.leb_le in Hlo. apply Z.leb_le in Hhi. rewrite Hlo, Hhi.
  reflexivity.
Qed.

(** Every iteration sleeps two half cycles, so the elapsed time reaches
    any duration: a budget above the remaining nanoseconds is enough. *)
Lemma control_loop_returns budget : forall start duration_nano w,
  0 < half_cycle_nano w <= 999999999 ->
  (Z.to_nat (duration_nano - (now w - start)) < budget)%nat ->
  exists w',
    control_loop budget start duration_nano w = Some (tt, w')
    /\ tone_calls (log w') = tone_calls (log w).
Proof.
  induction budget as [|budget IH]; intros start dur w Hh Hb; [lia|].
  destruct w as [r lo cn hn t uid l]. ctl_simpl in Hh. ctl_simpl in Hb.
  cbn [control_loop]. ctl_steps.
  destruct (r =? 0); [eexists; split; reflexivity|].
  ctl_steps.
  destruct (Z.geb_spec (t - start) dur) as [Hge|Hlt].
  - eexists. split; [reflexivity|]. ctl_simpl.
    rewrite tone_calls_app. simpl. apply app_nil_r.
  - ctl_steps. rewrite bind_nanosleep by (ctl_simpl; lia). ctl_steps.
    rewrite bind_nanosleep by (ctl_simpl; lia). ctl_simpl.
    match goal with
    | |- exists w', control_loop _ _ _ ?w1 = _ /\ _ =>
        destruct (IH start dur w1) as (w' & Hrun & Hcalls);
          [ctl_simpl; lia|ctl_simpl; lia|]
    end.
    exists w'. split; [exact Hrun|]. rewrite Hcalls. ctl_simpl.
    rewrite !tone_calls_app. simpl. now rewrite !app_nil_r.
Qed.

Lemma half_cycle_bounds freq :
  20 <= freq <= 24000 ->
  0 < Z.quot (Z.quot NANO_PER_SECOND freq) 2 <= 999999999.
Proof.
  intros Hf. unfold NANO_PER_SECOND.
  rewrite (Z.quot_div_nonneg 1000000000 freq) by lia.
  assert (H : 41666 <= 1000000000 / freq <= 50000000).
  { split; [apply Z.div_le_lower_bound|apply Z.div_le_upper_bound]; lia. }
  rewrite Z.quot_div_nonneg by lia.
  split; [apply Z.div_str_pos|apply Z.div_le_upper_bound]; lia.
Qed.

Lemma tone_calls_threads (f : Z -> event) l :
  (forall i, tone_calls [f i] = []) -> tone_calls (map f l) = [].
Proof.
  intros Hf. induction l as [|i l IH]; [reflexivity|].
  change (map f (i :: l)) with ([f i] ++ map f l).
  now rewrite tone_calls_app, Hf, IH.
Qed.

(** [generate_tone] returns and is entered once. *)
Lemma generate_tone_makes_calls budget freq duration_ms num_cores :
  (Z.to_nat (duration_ms * 1000000) < budget)%nat ->
  makes_calls (generate_tone budget freq duration_ms num_cores)
    [(freq, duration_ms, num_cores)].
Proof.
  intros Hb w.
  destruct (validate_frequency_cases freq) as [[Hv Hf]|[Hv Hf]].
  - rewrite generate_tone_invalid by exact Hv.
    eexists. split; [reflexivity|]. unfold append_log. ctl_simpl.
    now rewrite tone_calls_app.
  - destruct w as [r lo cn hn t uid l].
    unfold generate_tone. ctl_step. rewrite Hv. cbn [Z.eqb]. ctl_steps.
    match goal with
    | |- exists w', bind (control_loop _ ?s ?d) _ ?w1 = _ /\ _ =>
        destruct (control_loop_returns budget s d w1)
          as (w1' & Hrun & Hcalls);
          [ctl_simpl; apply half_cycle_bounds, Hf
          |ctl_simpl; rewrite Z.sub_diag, Z.sub_0_r; exact Hb|]
    end.
    unfold bind at 1. rewrite Hrun. ctl_steps.
    unfold emit, act. eexists. split; [reflexivity|]. ctl_simpl.
    ctl_simpl in Hcalls.
    rewrite !tone_calls_app, Hcalls, !tone_calls_app.
    rewrite !tone_calls_threads by reflexivity. simpl.
    now rewrite !app_nil_r.
Qed.

(** *** Call sequences *)

Lemma makes_calls_bind c1 c2 l1 l2 :
  makes_calls c1 l1 -> makes_calls c2 l2 ->
  makes_calls (bind c1 (fun _ => c2)) (l1 ++ l2).
Proof.
  intros H1 H2 w.
  destruct (H1 w) as (w1 & Hr1 & Hc1).
  destruct (H2 w1) as (w2 & Hr2 & Hc2).
  exists w2. unfold bind. rewrite Hr1. split; [exact Hr2|].
  now rewrite Hc2, Hc1, app_assoc.
Qed.

Lemma makes_calls_emit e :
  tone_calls [e] = [] -> makes_calls (emit e) [].
Proof.
  intros He w. eexists. split; [reflexivity|].
  destruct w; ctl_simpl. now rewrite tone_calls_app, He.
Qed.

Lemma makes_calls_for_down body (f : Z -> Z * Z * Z) n :
  (forall i, makes_calls (body i) [f i]) ->
  makes_calls (for_down n body) (map f (count_down n)).
Proof.
  intros Hbody. induction n as [|n IH]; cbn [for_down count_down map].
  - intros w. exists w. split; [reflexivity|]. now rewrite app_nil_r.
  - apply (makes_calls_bind _ _ [f (Z.of_nat n)]); [apply Hbody|exact IH].
Qed.

Lemma makes_calls_for_each body (g : Z -> list (Z * Z * Z)) data :
  (forall b, makes_calls (body b) (g b)) ->
  makes_calls (for_each data body) (flat_map g data).
Proof.
  intros Hbody. induction data as [|b rest IH]; cbn [for_each flat_map].
  - intros w. exists w. split; [reflexivity|]. now rewrite app_nil_r.
  - apply makes_calls_bind; [apply Hbody|exact IH].
Qed.

Lemma land_1_cases x : Z.land x 1 = 0 \/ Z.land x 1 = 1.
Proof.
  pose proof (Z.land_ones x 1 ltac:(lia)) as H.
  change (Z.ones 1) with 1 in H. change (2 ^ 1) with 2 in H. rewrite H.
  pose proof (Z.mod_pos_bound x 2). lia.
Qed.

Section Frame.

Variables (budget : nat) (params : fsk_params_t) (num_cores : Z).
Hypothesis budget_enough :
  (Z.to_nat (bit_duration_ms params * 1000000) < budget)%nat.

Lemma transmit_bit_fsk_makes_calls x :
  makes_calls (transmit_bit_fsk budget (Z.land x 1) params num_cores)
    [tone_of_bit params num_cores (Z.land x 1)].
Proof.
  unfold transmit_bit_fsk, tone_of_bit.
  replace (if negb (Z.land x 1 =? 0) then freq_1 params else freq_0 params)
    with (if Z.land x 1 =? 1 then freq_1 params else freq_0 params)
    by (destruct (land_1_cases x) as [-> | ->]; reflexivity).
  apply generate_tone_makes_calls, budget_enough.
Qed.

Lemma transmit_byte_makes_calls b :
  makes_calls
    (for_down 8 (fun bit_idx =>
       transmit_bit_fsk budget (Z.land (Z.shiftr b bit_idx) 1) params
         num_cores))
    (map (tone_of_bit params num_cores) (msb_first b)).
Proof.
  unfold msb_first. rewrite map_map.
  apply (makes_calls_for_down _
           (fun i => tone_of_bit params num_cores (Z.land (Z.shiftr b i) 1)) 8).
  intros i. apply transmit_bit_fsk_makes_calls.
Qed.

(** The frame of [transmit_data_fsk]: the bits of 0xAA, of each payload
    byte in order, and of the CRC-8 of the payload, each byte most
    significant bit first, one [generate_tone] per bit. *)
Lemma transmit_data_fsk_makes_calls data :
  makes_calls (transmit_data_fsk budget data params num_cores)
    (map (tone_of_bit params num_cores)
       (msb_first 0xAA ++ flat_map msb_first data
        ++ msb_first (calculate_crc8 data))).
Proof.
  assert (E : map (tone_of_bit params num_cores)
                (msb_first 0xAA ++ flat_map msb_first data
                 ++ msb_first (calculate_crc8 data))
              = ([] ++ map (tone_of_bit params num_cores) (msb_first 0xAA))
                ++ [] ++ flat_map (fun b => map (tone_of_bit params num_cores)
                                              (msb_first b)) data
                ++ [] ++ map (tone_of_bit params num_cores)
                           (msb_first (calculate_crc8 data)) ++ []).
  { rewrite !map_app, app_nil_r. cbn [app]. do 2 f_equal.
    induction data as [|b rest IH]; [reflexivity|].
    cbn [flat_map]. now rewrite map_app, IH. }
  rewrite E. unfold transmit_data_fsk, transmit_preamble.
  repeat first
    [ apply makes_calls_bind
    | apply makes_calls_emit; reflexivity
    | apply transmit_byte_makes_calls
    | apply makes_calls_for_each; intros b ].
Qed.

End Frame.

(** C1.  For the payload "HI" (0x48, 0x49), and whatever the FSK
    parameters, the core count and the state: given enough budget for the
    control loops, [transmit_data_fsk] returns and has entered
    [generate_tone] exactly 32 more times, once per bit of 0xAA, 0x48,
    0x49 and CRC-8(0x48, 0x49) = 0x0B in this order, each byte most
    significant bit first, with [freq_1] for a 1 bit and [freq_0] for a 0
    bit. *)
Theorem transmit_data_fsk_HI
    (params : fsk_params_t) (num_cores : Z) (w : world) :
  exists budget0, forall budget, (budget0 <= budget)%nat ->
  exists w',
    transmit_data_fsk budget [0x48; 0x49] params num_cores w = Some (tt, w')
    /\ tone_calls (log w')
       = tone_calls (log w)
         ++ map (tone_of_bit params num_cores)
              ([1; 0; 1; 0; 1; 0; 1; 0] ++ [0; 1; 0; 0; 1; 0; 0; 0]
               ++ [0; 1; 0; 0; 1; 0; 0; 1]
               ++ msb_first (Modulation.calculate_crc8 [0x48; 0x49]))
    /\ msb_first 0xAA = [1; 0; 1; 0; 1; 0; 1; 0]
    /\ msb_first 0x48 = [0; 1; 0; 0; 1; 0; 0; 0]
    /\ msb_first 0x49 = [0; 1; 0; 0; 1; 0; 0; 1]
    /\ msb_first (Modulation.calculate_crc8 [0x48; 0x49])
       = [0; 0; 0; 0; 1; 0; 1; 1]
    /\ length (tone_calls (log w')) = (length (tone_calls (log w)) + 32)%nat.
Proof.
  exists (S (Z.to_nat (bit_duration_ms params * 1000000))).
  intros budget Hb.
  destruct (transmit_data_fsk_makes_calls budget params num_cores
              ltac:(lia) [0x48; 0x49] w) as (w' & Hrun & Hcalls).
  exists w'. split; [exact Hrun|].
  split; [exact Hcalls|]. repeat (split; [reflexivity|]).
  rewrite Hcalls, length_app. reflexivity.
Qed.

Lemma transmit_data_fsk_HI_witness :
  exists budget0, forall budget, (budget0 <= budget)%nat ->
  exists w',
    transmit_data_fsk budget [0x48; 0x49] (mkFsk 8000 8500 50) 4
      (initial_world 0 1000) = Some (tt, w')
    /\ tone_calls (log w')
       = map (fun f => (f, 50, 4))
           [8500; 8000; 8500; 8000; 8500; 8000; 8500; 8000;
            8000; 8500; 8000; 8000; 8500; 8000; 8000; 8000;
            8000; 8500; 8000; 8000; 8500; 8000; 8000; 8500;
            8000; 8000; 8000; 8000; 8500; 8000; 8500; 8500].
Proof.
  destruct (transmit_data_fsk_HI (mkFsk 8000 8500 50) 4 (initial_world 0 1000))
    as (budget0 & H).
  exists budget0. intros budget Hb.
  destruct (H budget Hb) as (w' & Hrun & Hcalls & _).
  exists w'. split; [exact Hrun|]. rewrite Hcalls. reflexivity.
Defined.

(** After the first tone [running] is 0, so the control loop of every
    later tone of the same process exits at once: here the second bit of
    a frame sleeps not at all. *)
Example second_tone_is_silent :
  match exec (generate_tone 200 24000 1 1) (initial_world 0 1000) with
  | Some w1 =>
      now w1 = 1041650
      /\ option_map now (exec (generate_tone 200 24000 1 1) w1)
         = Some 1041650
  | None => False
  end.
Proof. vm_compute. split; reflexivity. Qed.

(** *** Exit codes of main.c *)

(** C9 (failing input).  [transmitter tone 5 1000 4]: the frequency 5 Hz
    is below [MIN_FREQ]; [generate_tone] reports it on stderr and
    returns, and [main] exits with code 0. *)
Theorem main_tone_invalid_frequency_exits_0 :
  exists w',
    main 1 ["transmitter"; "tone"; "5"; "1000"; "4"]%string
      (initial_world 0 1000) = Some (0, w')
    /\ log w' = [EvSignalInstall SIGINT; EvSignalInstall SIGTERM;
                 EvGenerateTone 5 1000 4;
                 EvStderr (MsgInvalidFrequency 5)].
Proof. eexists. split; vm_compute; reflexivity. Qed.

(** The same frequency is refused with exit code 1 by the fsk mode. *)
Example main_fsk_invalid_frequency_exits_1 :
  exists w',
    main 1 ["transmitter"; "fsk"; "5"; "8500"; "50"; "4"; "HI"]%string
      (initial_world 0 1000) = Some (1, w')
    /\ log w' = [EvSignalInstall SIGINT; EvSignalInstall SIGTERM;
                 EvStderr MsgFrequenciesRange].
Proof. eexists. split; vm_compute; reflexivity. Qed.

(** In the tone mode the exit code is 0 for every frequency argument the
    validation refuses, as soon as the core count is accepted. *)
Lemma main_tone_invalid_frequency budget prog f d c w :
  validate_frequency (atoi f) = 0 -> 1 <= atoi c <= MAX_CORES ->
  exists w', main budget [prog; "tone"%string; f; d; c] w = Some (0, w').
Proof.
  intros Hf [Hlo Hhi].
  assert (Hc : (atoi c <? 1) || (atoi c >? MAX_CORES) = false).
  { apply orb_false_iff.
    split; [apply Z.ltb_ge|rewrite Z.gtb_ltb; apply Z.ltb_ge]; lia. }
  unfold main. cbn -[atoi generate_tone MAX_CORES Z.ltb Z.gtb].
  change (5 <? 2) with false. cbv iota. ctl_steps. rewrite Hc.
  destruct (euid w =? 0); ctl_steps;
    unfold bind; rewrite generate_tone_invalid by exact Hf;
    eexists; reflexivity.
Qed.

(** The validation failures that main.c does answer with exit code 1,
    each without entering [generate_tone]. *)
Lemma main_tone_bad_cores budget prog f d c w :
  atoi c < 1 \/ MAX_CORES < atoi c ->
  exists w',
    main budget [prog; "tone"%string; f; d; c] w = Some (1, w')
    /\ tone_calls (log w') = tone_calls (log w).
Proof.
  intros Hcores.
  assert (Hc : (atoi c <? 1) || (atoi c >? MAX_CORES) = true).
  { apply orb_true_iff. rewrite Z.gtb_ltb.
    destruct Hcores; [left|right]; apply Z.ltb_lt; lia. }
  unfold main. cbn -[atoi generate_tone MAX_CORES Z.ltb Z.gtb].
  change (5 <? 2) with false. cbv iota. ctl_steps. rewrite Hc.
  destruct (euid w =? 0); ctl_steps;
    (eexists; split; [reflexivity|]); ctl_simpl;
    rewrite !tone_calls_app; simpl; now rewrite !app_nil_r.
Qed.

Lemma main_fsk_bad_frequency budget prog f0 f1 d c msg w :
  validate_frequency (atoi f0) = 0 \/ validate_frequency (atoi f1) = 0 ->
  exists w',
    main budget [prog; "fsk"%string; f0; f1; d; c; msg] w = Some (1, w')
    /\ tone_calls (log w') = tone_calls (log w).
Proof.
  intros Hfreq.
  assert (Hf : (validate_frequency (atoi f0) =? 0)
               || (validate_frequency (atoi f1) =? 0) = true).
  { apply orb_true_iff.
    destruct Hfreq as [-> | ->]; [left|right]; reflexivity. }
  unfold main.
  cbn -[atoi transmit_data_fsk validate_frequency MAX_CORES Z.ltb Z.gtb
        Z.eqb].
  change (7 <? 2) with false. change (7 =? 7) with true.
  cbv iota. cbn [negb]. ctl_steps. rewrite Hf.
  destruct (euid w =? 0); ctl_steps;
    (eexists; split; [reflexivity|]); ctl_simpl;
    rewrite !tone_calls_app; simpl; now rewrite !app_nil_r.
Qed.

Lemma main_unknown_mode budget prog mode rest w :
  mode <> "tone"%string -> mode <> "fsk"%string -> mode <> "wav"%string ->
  exists w',
    main budget (prog :: mode :: rest) w = Some (1, w')
    /\ tone_calls (log w') = tone_calls (log w).
Proof.
  intros Ht Hf Hw.
  apply String.eqb_neq in Ht. apply String.eqb_neq in Hf.
  apply String.eqb_neq in Hw.
  unfold main. cbn [nth length].
  replace (Z.of_nat (S (S (length rest))) <? 2) with false
    by (symmetry; apply Z.ltb_ge; lia).
  ctl_steps. rewrite Ht, Hf, Hw.
  destruct (euid w =? 0); ctl_steps;
    (eexists; split; [reflexivity|]); ctl_simpl;
    rewrite !tone_calls_app; simpl; now rewrite !app_nil_r.
Qed.

(** A successful run of the tone mode. *)
Example main_tone_exits_0 :
  option_map fst
    (main 1 ["transmitter"; "tone"; "440"; "0"; "2"]%string
       (initial_world 0 1000)) = Some 0.
Proof. vm_compute. reflexivity. Qed.

End ToneGenerator.

(** ** OFDM frame *)

Section OfdmFrame.

Import Ofdm.
Local Open Scope ctl_scope.

Lemma symbols_sent_app l1 l2 :
  symbols_sent (l1 ++ l2) = symbols_sent l1 ++ symbols_sent l2.
Proof.
  induction l1 as [|e l1 IH]; [reflexivity|].
  destruct e as [m| | | | | | | |]; try destruct m; simpl; rewrite IH;
    reflexivity.
Qed.

Lemma keying_app l1 l2 : keying (l1 ++ l2) = keying l1 ++ keying l2.
Proof. apply filter_app. Qed.

Lemma sends_ret : sends (ret tt) [] [].
Proof.
  intros w Hw. exists w. split; [reflexivity|].
  now rewrite !app_nil_r.
Qed.

Lemma sends_bind c1 c2 s1 s2 k1 k2 :
  sends c1 s1 k1 -> sends c2 s2 k2 ->
  sends (bind c1 (fun _ => c2)) (s1 ++ s2) (k1 ++ k2).
Proof.
  intros H1 H2 w Hw.
  destruct (H1 w Hw) as (w1 & Hr1 & Hw1 & Hs1 & Hk1).
  destruct (H2 w1 Hw1) as (w2 & Hr2 & Hw2 & Hs2 & Hk2).
  exists w2. unfold bind. rewrite Hr1.
  split; [exact Hr2|]. split; [exact Hw2|].
  now rewrite Hs2, Hs1, Hk2, Hk1, !app_assoc.
Qed.

(** An event adds its own projections. *)
Lemma sends_emit e : sends (emit e) (symbols_sent [e]) (keying [e]).
Proof.
  intros w Hw. eexists. split; [reflexivity|].
  destruct w as [r t l]. cbn [record transmitting log].
  now rewrite symbols_sent_app, keying_app.
Qed.

Lemma sends_eq c s s' k k' :
  sends c s k -> s = s' -> k = k' -> sends c s' k'.
Proof. now intros H <- <-. Qed.

Lemma sends_for_up body (syms : Z -> list Z) (keys : Z -> list event) n :
  forall lo,
  (forall i, lo <= i < lo + Z.of_nat n -> sends (body i) (syms i) (keys i)) ->
  sends (for_up n lo body)
    (flat_map syms (count_from n lo)) (flat_map keys (count_from n lo)).
Proof.
  induction n as [|n IH]; intros lo Hbody; cbn [for_up count_from flat_map].
  - apply sends_ret.
  - apply sends_bind; [apply Hbody; lia|].
    apply IH. intros i Hi. apply Hbody. lia.
Qed.

Lemma flat_map_singleton {A B} (f : A -> B) l :
  flat_map (fun i => [f i]) l = map f l.
Proof. induction l as [|i l IH]; simpl; [reflexivity|]. now rewrite IH. Qed.

Lemma flat_map_nil {A B} (l : list A) :
  flat_map (fun _ => @nil B) l = [].
Proof. induction l as [|i l IH]; simpl; [reflexivity|]. exact IH. Qed.

(** *** Stores to [transmitting] *)

Lemma list_set_in_range l : forall i v,
  (i < length l)%nat ->
  exists l', list_set l i v = Some l'
             /\ length l' = length l /\ nth_error l' i = Some v.
Proof.
  induction l as [|x l IH]; intros i v Hi; simpl in Hi; [lia|].
  destruct i as [|i]; simpl.
  - eexists. repeat split.
  - destruct (IH i v) as (l' & Hset & Hlen & Hnth); [lia|].
    rewrite Hset. simpl. eexists. split; [reflexivity|].
    simpl. now rewrite Hlen.
Qed.

Lemma store_transmitting_in_range i v w :
  0 <= i < 8 -> length (transmitting w) = 8%nat ->
  exists t,
    store_transmitting i v w
    = Some (tt, mkWorld (running w) t (log w ++ [EvTransmitting i v]))
    /\ length t = 8%nat /\ nth_error t (Z.to_nat i) = Some v.
Proof.
  intros Hi Hw. unfold store_transmitting.
  destruct (Z.ltb_spec i 0); [lia|].
  destruct (list_set_in_range (transmitting w) (Z.to_nat i) v)
    as (t & Hset & Hlen & Hnth); [lia|].
  rewrite Hset. exists t. repeat split; [congruence|exact Hnth].
Qed.

Lemma store_transmitting_sends i v :
  0 <= i < 8 -> sends (store_transmitting i v) [] [EvTransmitting i v].
Proof.
  intros Hi w Hw.
  destruct (store_transmitting_in_range i v w Hi Hw)
    as (t & Hrun & Hlen & _).
  eexists. split; [exact Hrun|]. cbn [transmitting log].
  split; [exact Hlen|].
  rewrite symbols_sent_app, keying_app. simpl. now rewrite app_nil_r.
Qed.

(** Body of the first loop of [transmit_ofdm_symbol]: the bit is stored
    and the stored value is printed. *)
Lemma key_subcarrier_sends symbol i :
  0 <= i < 8 ->
  sends (store_transmitting i (Z.land (Z.shiftr symbol i) 1) ;;
         v <- load_transmitting i ;;
         emit (EvStdout (MsgBit v)))
    [] [EvTransmitting i (Z.land (Z.shiftr symbol i) 1)].
Proof.
  intros Hi w Hw.
  destruct (store_transmitting_in_range i (Z.land (Z.shiftr symbol i) 1)
              w Hi Hw) as (t & Hrun & Hlen & Hnth).
  unfold bind at 1. rewrite Hrun.
  unfold bind, load_transmitting. cbn [transmitting].
  destruct (Z.ltb_spec i 0); [lia|]. rewrite Hnth.
  eexists. split; [reflexivity|]. cbn [record transmitting log].
  split; [exact Hlen|].
  rewrite !symbols_sent_app, !keying_app. simpl.
  now rewrite !app_nil_r.
Qed.

(** *** The carriers and their workers *)

Lemma array_set_in_range {A} (l : list A) : forall i v,
  (i < length l)%nat ->
  exists l', array_set l i v = Some l' /\ length l' = length l.
Proof.
  induction l as [|x l IH]; intros i v Hi; simpl in Hi; [lia|].
  destruct i as [|i]; simpl.
  - eexists. split; reflexivity.
  - destruct (IH i v) as (l' & Hset & Hlen); [lia|].
    rewrite Hset. simpl. eexists. split; [reflexivity|].
    simpl. now rewrite Hlen.
Qed.

Lemma array_set_outside {A} (l : list A) : forall i v,
  (length l <= i)%nat -> array_set l i v = None.
Proof.
  induction l as [|x l IH]; intros i v Hi; [reflexivity|].
  destruct i as [|i]; simpl in Hi; [lia|].
  simpl. rewrite IH by lia. reflexivity.
Qed.

(** Writing entry [lo] after the entries before it. *)
Lemma store_carrier_filled params lo :
  0 <= lo < 8 ->
  store_carrier (filled_carriers params lo) lo
    (mkCarrier lo lo (s32 (base_freq params + s32 (lo * freq_spacing params)))
       start_barrier sync_barrier)
  = Some (filled_carriers params (lo + 1)).
Proof. intros Hlo. enumerate lo 8%nat; reflexivity. Qed.

Lemma create_carriers_filled params k : forall lo w,
  0 <= lo -> lo + Z.of_nat k <= 8 ->
  create_carriers k lo params (filled_carriers params lo) w
  = Some (filled_carriers params (lo + Z.of_nat k),
          mkWorld (running w) (transmitting w)
            (log w
             ++ map (fun i => EvThreadCreate i i (subcarrier_frequency params i))
                  (count_from k lo))).
Proof.
  induction k as [|k IH]; intros lo w Hlo Hhi; cbn [create_carriers].
  - rewrite Z.add_0_r. destruct w as [r t l]. cbn.
    now rewrite app_nil_r.
  - rewrite store_carrier_filled by lia.
    unfold bind at 1. cbn [emit act]. rewrite IH by lia.
    cbn [count_from map record running transmitting log].
    rewrite <- app_assoc. do 3 f_equal. lia.
Qed.

(** More entries than the array holds. *)
Lemma create_carriers_overrun params k : forall lo carriers w,
  0 <= lo <= 8 -> 8 < lo + Z.of_nat k -> length carriers = 8%nat ->
  create_carriers k lo params carriers w = None.
Proof.
  induction k as [|k IH]; intros lo carriers w Hlo Hhi Hlen; [lia|].
  cbn [create_carriers]. unfold store_carrier.
  destruct (Z.ltb_spec lo 0); [lia|].
  destruct (Z.eq_dec lo 8) as [->|Hne].
  - rewrite array_set_outside by (rewrite Hlen; simpl; lia). reflexivity.
  - destruct (array_set_in_range carriers (Z.to_nat lo)
                (Some (mkCarrier lo lo
                         (s32 (base_freq params
                               + s32 (lo * freq_spacing params)))
                         start_barrier sync_barrier)))
      as (carriers' & Hset & Hlen'); [lia|].
    rewrite Hset. unfold bind at 1. cbn [emit act].
    apply IH; [lia|lia|congruence].
Qed.

Lemma nth_error_filled params k i :
  0 <= i < 8 ->
  nth_error (filled_carriers params k) (Z.to_nat i)
  = Some (if i <? k
          then Some (mkCarrier i i (subcarrier_frequency params i)
                       start_barrier sync_barrier)
          else None).
Proof. intros Hi. enumerate i 8%nat; reflexivity. Qed.

Lemma In_filled params k entry :
  In entry (filled_carriers params k) ->
  entry = None
  \/ exists i, 0 <= i < 8 /\ i < k
       /\ entry = Some (mkCarrier i i (subcarrier_frequency params i)
                          start_barrier sync_barrier).
Proof.
  unfold filled_carriers. intros H. apply in_map_iff in H.
  destruct H as (i & <- & Hi).
  destruct (Z.ltb_spec i k); [|now left].
  right. exists i. split; [|split; [assumption|reflexivity]].
  simpl in Hi. lia.
Qed.

(** A worker's tone loop divides by zero exactly at 0 Hz and beyond
    1 GHz. *)
Lemma worker_cycle_defined f :
  worker_cycle f <> None <-> f <> 0 /\ -1000000000 <= f <= 1000000000.
Proof.
  unfold worker_cycle, NANO_PER_SECOND. cbv zeta.
  destruct (Z.eqb_spec f 0) as [->|Hf].
  - split; [intros H; now contradiction H|intros [H _]; now contradiction H].
  - destruct (Z.eqb_spec (Z.quot 1000000000 f) 0) as [Hq|Hq].
    + split; [intros H; now contradiction H|].
      intros [_ Hr]. exfalso. revert Hq.
      Z.to_euclidean_division_equations. nia.
    + split; [|discriminate]. intros _. split; [exact Hf|].
      revert Hq. Z.to_euclidean_division_equations. nia.
Qed.

Section Carriers.

Variable pf : platform.
Variable params : ofdm_params_t.
Hypothesis some_subcarrier : 1 <= num_subcarriers params.
Hypothesis subcarriers_fit : num_subcarriers params <= MAX_SUBCARRIERS.
Hypothesis cooperate : workers_cooperate pf params.

Lemma filled_carriers_ready :
  carriers_ready (filled_carriers params (num_subcarriers params)).
Proof.
  unfold MAX_SUBCARRIERS in subcarriers_fit. split.
  - eexists. split.
    + change 0%nat with (Z.to_nat 0). rewrite nth_error_filled by lia.
      destruct (Z.ltb_spec 0 (num_subcarriers params)); [reflexivity|lia].
    + reflexivity.
  - apply Forall_forall. intros entry He.
    destruct (In_filled _ _ _ He) as [->|(i & Hi & Hk & ->)]; [exact I|].
    cbn [worker_sound subcarrier_id frequency]. split; [exact Hi|].
    apply cooperate. lia.
Qed.

Lemma filled_carriers_arrive :
  forallb (fun entry =>
             match entry with
             | Some carrier => worker_arrives pf carrier
             | None => true
             end)
    (filled_carriers params (num_subcarriers params)) = true.
Proof.
  apply forallb_forall. intros entry He.
  destruct (In_filled _ _ _ He) as [->|(i & Hi & Hk & ->)]; [reflexivity|].
  unfold worker_arrives. cbn [core_id]. apply cooperate. lia.
Qed.

(** [setup_ofdm_carriers] on the fresh array of a frame. *)
Lemma setup_ofdm_carriers_runs w :
  setup_ofdm_carriers pf fresh_carriers params w
  = Some (filled_carriers params (num_subcarriers params),
          mkWorld (running w) (transmitting w) (log w ++ setup_log params)).
Proof.
  unfold MAX_SUBCARRIERS in subcarriers_fit.
  unfold setup_ofdm_carriers.
  unfold bind at 1. cbn [emit act]. unfold bind at 1. cbn [emit act].
  unfold bind at 1.
  change fresh_carriers with (filled_carriers params 0).
  rewrite create_carriers_filled by lia.
  rewrite Z.add_0_l, Z2Nat.id by lia.
  unfold bind at 1. cbn [emit act].
  rewrite filled_carriers_arrive.
  destruct (Z.leb_spec 1 (num_subcarriers params + 1)); [|lia].
  unfold bind, ret, emit, act, record. cbn [running transmitting log andb].
  unfold setup_log. rewrite <- !app_assoc. reflexivity.
Qed.

End Carriers.

(** Every sound worker passes the symbol barrier. *)
Lemma release_workers_returns carriers : forall w,
  Forall worker_sound carriers -> length (transmitting w) = 8%nat ->
  release_workers carriers w = Some (tt, w).
Proof.
  induction carriers as [|entry rest IH]; intros w Hall Hw;
    [reflexivity|].
  inversion Hall as [|e r Hentry Hrest]; subst.
  destruct entry as [carrier|]; cbn [release_workers]; [|now apply IH].
  destruct Hentry as [Hid Hcycle].
  unfold bind at 1, load_transmitting.
  destruct (Z.ltb_spec (subcarrier_id carrier) 0); [lia|].
  destruct (nth_error (transmitting w) (Z.to_nat (subcarrier_id carrier)))
    as [v|] eqn:E.
  - unfold bind at 1.
    destruct (v =? 0); [now apply IH|].
    destruct (worker_cycle (frequency carrier)); [now apply IH|].
    now contradiction Hcycle.
  - apply nth_error_None in E. lia.
Qed.

Lemma release_workers_sends carriers :
  Forall worker_sound carriers -> sends (release_workers carriers) [] [].
Proof.
  intros Hall w Hw. exists w.
  split; [now apply release_workers_returns|].
  split; [exact Hw|]. now rewrite !app_nil_r.
Qed.

Section Symbols.

Variable params : ofdm_params_t.
Hypothesis subcarriers_fit : num_subcarriers params <= MAX_SUBCARRIERS.

Lemma transmit_ofdm_symbol_sends carriers symbol :
  carriers_ready carriers ->
  sends (transmit_ofdm_symbol symbol params carriers) [symbol]
    (symbol_keying params symbol).
Proof.
  intros [(carrier & Hfirst & Hsync) Hall].
  unfold MAX_SUBCARRIERS in subcarriers_fit.
  unfold transmit_ofdm_symbol, symbol_keying.
  rewrite Hfirst, Hsync.
  rewrite <- !flat_map_singleton.
  eapply sends_eq.
  - apply sends_bind; [apply sends_emit|].
    apply sends_bind;
      [apply (sends_for_up _ (fun _ => [])); intros i Hi;
       apply key_subcarrier_sends; lia|].
    apply sends_bind; [apply sends_emit|].
    apply sends_bind; [apply sends_emit|].
    apply sends_bind; [apply release_workers_sends, Hall|].
    apply sends_bind; [apply sends_emit|].
    apply sends_bind;
      [apply (sends_for_up _ (fun _ => [])); intros i Hi;
       apply store_transmitting_sends; lia|].
    apply sends_emit.
  - rewrite !flat_map_nil. reflexivity.
  - reflexivity.
Qed.

Lemma transmit_payload_sends carriers rest :
  carriers_ready carriers ->
  forall i data_len,
  sends (transmit_payload rest i data_len params carriers) rest
    (flat_map (symbol_keying params) rest).
Proof.
  intros Hready.
  induction rest as [|b rest IH]; intros i data_len;
    cbn [transmit_payload flat_map].
  - apply sends_ret.
  - eapply sends_eq.
    + apply sends_bind; [apply sends_emit|].
      apply sends_bind;
        [apply transmit_ofdm_symbol_sends, Hready|apply IH].
    + reflexivity.
    + reflexivity.
Qed.

Lemma print_ofdm_spectrum_sends : sends (print_ofdm_spectrum params) [] [].
Proof.
  unfold print_ofdm_spectrum. eapply sends_eq.
  - apply sends_bind; [apply sends_emit|].
    apply sends_bind;
      [apply (sends_for_up _ (fun _ => []) (fun _ => []));
       intros i _; apply sends_emit|].
    apply sends_emit.
  - now rewrite flat_map_nil.
  - now rewrite flat_map_nil.
Qed.

Variable pf : platform.
Hypothesis some_subcarrier : 1 <= num_subcarriers params.
Hypothesis cooperate : workers_cooperate pf params.

(** The frame goes on with the carriers that the setup has filled; the
    setup itself sends and keys nothing. *)
Lemma sends_after_setup
    (k : list (option subcarrier_thread_t) -> M world unit) syms keys :
  sends (k (filled_carriers params (num_subcarriers params))) syms keys ->
  sends (bind (setup_ofdm_carriers pf fresh_carriers params) k) syms keys.
Proof.
  intros H w Hw. unfold bind.
  rewrite setup_ofdm_carriers_runs by assumption.
  match goal with
  | |- exists w', k _ ?w1 = _ /\ _ =>
      destruct (H w1 Hw) as (w' & Hrun & Hlen & Hsyms & Hkeys)
  end.
  exists w'. split; [exact Hrun|]. split; [exact Hlen|].
  cbn [log] in Hsyms, Hkeys.
  rewrite symbols_sent_app in Hsyms. rewrite keying_app in Hkeys.
  assert (Hs : symbols_sent (setup_log params) = []).
  { unfold setup_log. rewrite !symbols_sent_app.
    induction (count_from (Z.to_nat (num_subcarriers params)) 0)
      as [|i l IH]; [reflexivity|exact IH]. }
  assert (Hk : keying (setup_log params) = []).
  { unfold setup_log. rewrite !keying_app.
    induction (count_from (Z.to_nat (num_subcarriers params)) 0)
      as [|i l IH]; [reflexivity|exact IH]. }
  rewrite Hs, Hk, !app_nil_r in *. split; assumption.
Qed.

Lemma cleanup_carriers_sends :
  sends (cleanup_carriers pf (filled_carriers params (num_subcarriers params))
           (num_subcarriers params)) [] [].
Proof.
  unfold MAX_SUBCARRIERS in subcarriers_fit.
  unfold cleanup_carriers. eapply sends_eq.
  - apply (sends_for_up _ (fun _ => []) (fun _ => [])).
    intros i Hi. rewrite nth_error_filled by lia.
    destruct (Z.ltb_spec i (num_subcarriers params)); [|lia].
    destruct (cooperate i ltac:(lia)) as (_ & -> & _).
    apply (sends_bind _ _ [] [] [] []); [apply sends_emit|].
    apply (sends_bind _ _ [] [] [] []); [apply sends_emit|apply sends_ret].
  - now rewrite flat_map_nil.
  - now rewrite flat_map_nil.
Qed.

Lemma clear_running_sends :
  sends (act (fun w => mkWorld 0 (transmitting w) (log w))) [] [].
Proof.
  intros w Hw. eexists. split; [reflexivity|]. cbn [transmitting log].
  split; [exact Hw|]. now rewrite !app_nil_r.
Qed.

Lemma transmit_ofdm_frame_sends data :
  sends (transmit_ofdm_frame pf data params)
    ([0xAA; 0x55; 0xAA; 0x55; 0xAA; 0x55; 0xAA; 0x55] ++ data
     ++ [0xFF; 0x00; 0xFF])
    (flat_map (symbol_keying params)
       ([0xAA; 0x55; 0xAA; 0x55; 0xAA; 0x55; 0xAA; 0x55] ++ data
        ++ [0xFF; 0x00; 0xFF])).
Proof.
  assert (Hready : carriers_ready
                     (filled_carriers params (num_subcarriers params)))
    by (apply (filled_carriers_ready pf); assumption).
  unfold transmit_ofdm_frame. cbv zeta. eapply sends_eq.
  - apply sends_bind; [apply sends_emit|].
    apply sends_bind; [apply print_ofdm_spectrum_sends|].
    apply sends_after_setup.
    apply sends_bind; [apply sends_emit|].
    apply sends_bind;
      [apply (sends_for_up _ (fun _ => [0xAA; 0x55])
                (fun _ => symbol_keying params 0xAA
                          ++ symbol_keying params 0x55));
       intros i _;
       apply (sends_bind _ _ [0xAA] [0x55]);
       apply transmit_ofdm_symbol_sends, Hready|].
    apply sends_bind; [apply sends_emit|].
    apply sends_bind; [apply transmit_payload_sends, Hready|].
    apply sends_bind; [apply sends_emit|].
    apply sends_bind; [apply transmit_ofdm_symbol_sends, Hready|].
    apply sends_bind; [apply transmit_ofdm_symbol_sends, Hready|].
    apply sends_bind; [apply transmit_ofdm_symbol_sends, Hready|].
    apply sends_bind; [apply clear_running_sends|].
    apply sends_bind; [apply cleanup_carriers_sends|].
    apply sends_bind; [apply sends_emit|].
    apply sends_bind; apply sends_emit.
  - reflexivity.
  - cbn [keying filter is_keying count_from flat_map app].
    rewrite !flat_map_app. cbn [flat_map]. rewrite !app_nil_r.
    rewrite <- !app_assoc. reflexivity.
Qed.

End Symbols.




(** The keying of the symbol 0x05 on four subcarriers. *)
Example symbol_keying_0x05 :
  symbol_keying (mkOfdm 4 8000 200 SYMBOL_DURATION_MS) 0x05
  = [EvTransmitting 0 1; EvTransmitting 1 0; EvTransmitting 2 1;
     EvTransmitting 3 0; EvBarrierWait sync_barrier; EvUsleep 100000;
     EvTransmitting 0 0; EvTransmitting 1 0; EvTransmitting 2 0;
     EvTransmitting 3 0; EvUsleep 10000].
Proof. reflexivity. Qed.

End OfdmFrame.

(** ** AM playback: samples to active cores *)

Section WavSamples.

Import WavPlayer.

Lemma s32_small x : -2147483648 <= x < 2147483648 -> s32 x = x.
Proof. intros H. unfold s32. rewrite Z.mod_small; lia. Qed.

Lemma set_active_count n : forall j active,
  j <= active <= j + Z.of_nat n ->
  active_count (set_active n j active) = active - j.
Proof.
  induction n as [|n IH]; intros j active H; cbn [set_active].
  - simpl. lia.
  - unfold active_count in *. cbn [fold_right].
    destruct (Z.ltb_spec j active).
    + rewrite IH by lia. lia.
    + assert (E : forall m k, active <= k ->
                  fold_right Z.add 0 (set_active m k active) = 0).
      { clear. induction m as [|m IHm]; intros k Hk; cbn [set_active];
          [reflexivity|].
        cbn [fold_right]. destruct (Z.ltb_spec k active); [lia|].
        rewrite IHm by lia. reflexivity. }
      rewrite E by lia. lia.
Qed.

(** C10 (as stated, refuted).  With [max_cores = 65536] the product
    [abs_sample * max_cores] leaves the range of [int] for the sample
    -32768, and the wrapped result is negative. *)
Lemma sample_to_cores_overflow :
  ~ (forall sample max_cores,
       is_int16 sample -> 1 <= max_cores ->
       1 <= sample_to_cores sample max_cores <= max_cores).
Proof.
  intros H.
  assert (H1 : 1 <= sample_to_cores (-32768) 65536 <= 65536).
  { apply H; unfold is_int16; lia. }
  vm_compute in H1. destruct H1 as [H1 _]. apply H1. reflexivity.
Qed.

(** C10 (amended).  For every 16-bit sample and every [max_cores] from 1
    to 65535 (the program passes at most [MAX_CORES] = 32),
    [sample_to_cores] returns a value from 1 to [max_cores], and the
    loop of [play_wav_am] sets the [active] flag of exactly that many
    workers. *)
Theorem sample_to_cores_range (sample max_cores : Z) :
  is_int16 sample -> 1 <= max_cores <= 65535 ->
  1 <= sample_to_cores sample max_cores <= max_cores
  /\ active_count (am_active_flags sample max_cores)
     = sample_to_cores sample max_cores.
Proof.
  intros Hs Hm. unfold is_int16 in Hs.
  assert (Hrange : 1 <= sample_to_cores sample max_cores <= max_cores).
  { unfold sample_to_cores.
    rewrite (s32_small (Z.abs sample)) by lia.
    rewrite s32_small by nia.
    rewrite Z.quot_div_nonneg by nia.
    assert (Hq : 0 <= Z.abs sample * max_cores / 32768 <= max_cores).
    { split; [apply Z.div_pos; nia|].
      apply Z.div_le_upper_bound; nia. }
    destruct (Z.eqb_spec (Z.abs sample * max_cores / 32768) 0).
    - destruct (Z.gtb_spec 1 max_cores); lia.
    - destruct (Z.gtb_spec (Z.abs sample * max_cores / 32768) max_cores);
        lia. }
  split; [exact Hrange|].
  unfold am_active_flags. cbv zeta.
  rewrite set_active_count by lia. lia.
Qed.

Lemma sample_to_cores_range_witness :
  1 <= sample_to_cores (-32768) 32 <= 32
  /\ active_count (am_active_flags (-32768) 32) = sample_to_cores (-32768) 32.
Proof.
  apply (sample_to_cores_range (-32768) 32); unfold is_int16; lia.
Defined.

Example sample_to_cores_values :
  sample_to_cores 0 4 = 1 /\ sample_to_cores 20000 4 = 2
  /\ sample_to_cores (-32768) 4 = 4 /\ sample_to_cores 32767 32 = 31.
Proof. repeat split. Qed.

End WavSamples.

(** ** Gray code, framing and frequency helpers of modulation.c *)

Section ModulationHelpers.

Import Modulation.

Lemma gray_decode_loop_more budget : forall budget' gray binary r,
  (budget <= budget')%nat ->
  gray_decode_loop budget gray binary = Some r ->
  gray_decode_loop budget' gray binary = Some r.
Proof.
  induction budget as [|budget IH]; intros budget' gray binary r Hle H;
    [discriminate|].
  destruct budget' as [|budget']; [lia|].
  cbn [gray_decode_loop] in *.
  destruct (negb (u8 (Z.shiftr gray 1) =? 0)); [|exact H].
  apply IH; [lia|exact H].
Qed.

(** X1.  Gray code round trip: for every byte value, [gray_decode]
    undoes [gray_encode] and [gray_encode] undoes [gray_decode]; the
    decoding loop is done within eight evaluations of its condition. *)
Theorem gray_code_roundtrip (n : Z) (budget : nat) :
  is_byte n -> (8 <= budget)%nat ->
  gray_decode budget (gray_encode n) = Some n
  /\ exists b, gray_decode budget n = Some b /\ is_byte b
               /\ gray_encode b = n.
Proof.
  intros Hn Hb.
  assert (H : (fun n =>
            match gray_decode 8 (gray_encode n), gray_decode 8 n with
            | Some m, Some b =>
                (m =? n) && (0 <=? b) && (b <? 256) && (gray_encode b =? n)
            | _, _ => false
            end) n = true).
  { revert n Hn. apply forall_bytes. vm_compute. reflexivity. }
  cbv beta in H.
  destruct (gray_decode 8 (gray_encode n)) as [m|] eqn:Hm; [|discriminate].
  destruct (gray_decode 8 n) as [b|] eqn:Hd; [|discriminate].
  apply andb_prop in H. destruct H as [H H4].
  apply andb_prop in H. destruct H as [H H3].
  apply andb_prop in H. destruct H as [H1 H2].
  apply Z.eqb_eq in H1. apply Z.eqb_eq in H4. subst m.
  split.
  - apply (gray_decode_loop_more 8 budget _ _ _ Hb Hm).
  - exists b. split; [apply (gray_decode_loop_more 8 budget _ _ _ Hb Hd)|].
    split; [unfold is_byte; lia|exact H4].
Qed.

Lemma gray_code_roundtrip_witness :
  gray_decode 8 (gray_encode 0xB4) = Some 0xB4
  /\ exists b, gray_decode 8 0xB4 = Some b /\ is_byte b
               /\ gray_encode b = 0xB4.
Proof.
  apply (gray_code_roundtrip 0xB4 8); [unfold is_byte; lia|lia].
Defined.

(** X2.  Consecutive byte values have Gray codes that differ in exactly
    one bit. *)
Theorem gray_encode_adjacent (n : Z) :
  0 <= n < 255 -> bit_distance (gray_encode n) (gray_encode (n + 1)) = 1.
Proof.
  intros Hn. apply Z.eqb_eq.
  apply (forall_upto
           (fun n => bit_distance (gray_encode n) (gray_encode (n + 1)) =? 1)
           255); [vm_compute; reflexivity|lia].
Qed.

Lemma gray_encode_adjacent_witness :
  bit_distance (gray_encode 127) (gray_encode (127 + 1)) = 1.
Proof. apply (gray_encode_adjacent 127). lia. Defined.

(** *** Frames *)

Lemma generate_preamble_from_length n : forall i,
  length (generate_preamble_from n i) = n.
Proof. induction n as [|n IH]; intros i; simpl; [reflexivity|]. now rewrite IH. Qed.

Lemma generate_preamble_from_nth n : forall i k,
  (k < n)%nat ->
  nth k (generate_preamble_from n i) 0
  = if (i + Z.of_nat k) mod 2 =? 0 then 0xAA else 0x55.
Proof.
  induction n as [|n IH]; intros i k Hk; [lia|].
  cbn [generate_preamble_from]. destruct k as [|k].
  - cbn [nth]. now rewrite Z.add_0_r.
  - cbn [nth]. rewrite IH by lia.
    replace (i + 1 + Z.of_nat k) with (i + Z.of_nat (S k)) by lia.
    reflexivity.
Qed.

(** X3.  [generate_preamble] writes exactly [length] bytes, 0xAA at the
    even and 0x55 at the odd indices. *)
Theorem generate_preamble_alternates (len i : Z) :
  0 <= i < len ->
  length (generate_preamble len) = Z.to_nat len
  /\ nth (Z.to_nat i) (generate_preamble len) 0
     = if Z.even i then 0xAA else 0x55.
Proof.
  intros Hi. unfold generate_preamble.
  split; [apply generate_preamble_from_length|].
  rewrite generate_preamble_from_nth by lia.
  rewrite Z.add_0_l, Z2Nat.id by lia.
  rewrite Zmod_even. destruct (Z.even i); reflexivity.
Qed.

Lemma generate_preamble_alternates_witness :
  length (generate_preamble 8) = 8%nat
  /\ nth 5 (generate_preamble 8) 0 = 0x55.
Proof. apply (generate_preamble_alternates 8 5). lia. Defined.

(** Feeding a zero byte is eight more division steps. *)
Lemma crc8_loop_zeros k : forall c,
  is_byte c ->
  crc8_loop (repeat 0 k) c = crc8_inner (8 * k) c.
Proof.
  induction k as [|k IH]; intros c Hc; [reflexivity|].
  cbn [repeat crc8_loop]. rewrite Z.lxor_0_r, (u8_byte c Hc).
  rewrite IH by (apply crc8_inner_is_byte, Hc).
  replace (8 * S k)%nat with (8 + 8 * k)%nat by lia.
  generalize (8 * k)%nat. intros m. reflexivity.
Qed.

Lemma crc8_loop_app a : forall b c,
  crc8_loop (a ++ b) c = crc8_loop b (crc8_loop a c).
Proof.
  induction a as [|x a IH]; intros b c; [reflexivity|].
  cbn [app crc8_loop]. apply IH.
Qed.

(** X4.  [create_frame] refuses more than [PAYLOAD_SIZE] = 32 bytes with
    -1 and leaves the frame untouched.  Otherwise it returns 0; the frame
    holds the preamble 0xAA 0x55 (four times), the data padded with zero
    bytes to 32 bytes, and the CRC-8 of the padded payload, which
    [verify_crc8] accepts and which is the CRC-8 of the data advanced by
    eight division steps per padding byte. *)
Theorem create_frame_result (frame : frame_t) (data : list Z) :
  ((32 < length data)%nat -> create_frame frame data = (-1, frame))
  /\ ((length data <= 32)%nat ->
      exists f,
        create_frame frame data = (0, f)
        /\ preamble f = [0xAA; 0x55; 0xAA; 0x55; 0xAA; 0x55; 0xAA; 0x55]
        /\ payload f = data ++ repeat 0 (32 - length data)
        /\ length (payload f) = 32%nat
        /\ verify_crc8 (payload f) (crc f) = 1
        /\ crc f = crc8_inner (8 * (32 - length data)) (calculate_crc8 data)).
Proof.
  unfold create_frame, PAYLOAD_SIZE. split; intros Hlen.
  - destruct (Z.gtb_spec (Z.of_nat (length data)) 32); [reflexivity|lia].
  - destruct (Z.gtb_spec (Z.of_nat (length data)) 32); [lia|].
    assert (Hpay : memcpy (memset 0 32) data (length data)
                   = data ++ repeat 0 (32 - length data)).
    { unfold memcpy, memset. rewrite firstn_all. f_equal.
      change (Z.to_nat 32) with 32%nat.
      replace 32%nat with (length data + (32 - length data))%nat at 1
        by lia.
      rewrite repeat_app, skipn_app, repeat_length, Nat.sub_diag.
      rewrite skipn_all2 by (rewrite repeat_length; lia). reflexivity. }
    eexists. split; [reflexivity|]. cbn [preamble payload crc].
    rewrite Hpay. repeat split.
    + rewrite length_app, repeat_length. lia.
    + unfold verify_crc8. cbv zeta. now rewrite Z.eqb_refl.
    + unfold calculate_crc8. rewrite crc8_loop_app.
      apply crc8_loop_zeros, crc8_loop_is_byte. unfold is_byte. lia.
Qed.

Lemma create_frame_result_witness :
  create_frame (mkFrame [] [] 0) (repeat 0x41 33)
  = (-1, mkFrame [] [] 0)
  /\ exists f,
       create_frame (mkFrame [] [] 0) [0x48; 0x49] = (0, f)
       /\ payload f = [0x48; 0x49] ++ repeat 0 30
       /\ verify_crc8 (payload f) (crc f) = 1.
Proof.
  split.
  - apply (proj1 (create_frame_result (mkFrame [] [] 0) (repeat 0x41 33))).
    simpl. lia.
  - destruct (proj2 (create_frame_result (mkFrame [] [] 0) [0x48; 0x49]))
      as (f & Hf & _ & Hpay & _ & Hver & _); [simpl; lia|].
    exists f. split; [exact Hf|]. split; [exact Hpay|exact Hver].
Defined.

(** *** Frequency helpers *)

(** X5.  For a positive channel count and a bandwidth of [int] range,
    [calculate_frequency_spacing] returns a spacing of at least 50 Hz;
    it warns exactly when the even split of the bandwidth is below 50 Hz,
    and otherwise the channels fit into the bandwidth. *)
Theorem calculate_frequency_spacing_bounds (base_freq num_channels bandwidth : Z) :
  0 < num_channels -> 0 <= bandwidth < 2147483648 ->
  exists spacing warned,
    calculate_frequency_spacing base_freq num_channels bandwidth
    = Some (spacing, warned)
    /\ 50 <= spacing
    /\ (warned = true <-> bandwidth / num_channels < 50)
    /\ (warned = false -> spacing * num_channels <= bandwidth).
Proof.
  intros Hn Hb. unfold calculate_frequency_spacing.
  destruct (Z.eqb_spec num_channels 0); [lia|].
  rewrite Z.quot_div_nonneg by lia.
  assert (Hq : 0 <= bandwidth / num_channels <= bandwidth).
  { split; [apply Z.div_pos; lia|].
    apply Z.div_le_upper_bound; nia. }
  rewrite s32_small by lia.
  destruct (Z.ltb_spec (bandwidth / num_channels) 50).
  - exists 50, true.
    split; [reflexivity|]. split; [lia|]. split; [tauto|discriminate].
  - exists (bandwidth / num_channels), false.
    split; [reflexivity|]. split; [lia|]. split.
    + split; [discriminate|lia].
    + intros _. rewrite Z.mul_comm. apply Z.mul_div_le. lia.
Qed.

Lemma calculate_frequency_spacing_bounds_witness :
  exists spacing warned,
    calculate_frequency_spacing 18000 8 4000 = Some (spacing, warned)
    /\ 50 <= spacing
    /\ (warned = true <-> 4000 / 8 < 50)
    /\ (warned = false -> spacing * 8 <= 4000).
Proof. apply (calculate_frequency_spacing_bounds 18000 8 4000); lia. Defined.

(** X6.  Every frequency that [is_audible_frequency] or
    [is_ultrasonic_frequency] accepts is accepted by the tone
    generator's [validate_frequency], and every entry of
    [get_covert_frequencies] is ultrasonic. *)
Theorem classified_frequencies_are_valid (freq : Z) :
  is_audible_frequency freq = 1 \/ is_ultrasonic_frequency freq = 1
  \/ In freq get_covert_frequencies ->
  Tone.validate_frequency freq = 1
  /\ (In freq get_covert_frequencies -> is_ultrasonic_frequency freq = 1).
Proof.
  intros H.
  assert (Hcov : In freq get_covert_frequencies ->
                 is_ultrasonic_frequency freq = 1).
  { intros Hin. simpl in Hin.
    repeat (destruct Hin as [<-|Hin]; [reflexivity|]). destruct Hin. }
  split; [|exact Hcov].
  assert (H' : is_audible_frequency freq = 1
               \/ is_ultrasonic_frequency freq = 1) by tauto.
  clear H Hcov.
  unfold is_audible_frequency, is_ultrasonic_frequency in H'.
  unfold Tone.validate_frequency, Tone.MIN_FREQ, Tone.MAX_FREQ.
  destruct (Z.geb_spec freq 20), (Z.leb_spec freq 24000),
    (Z.leb_spec freq 20000), (Z.gtb_spec freq 18000);
    simpl in *; try reflexivity; try lia; destruct H'; discriminate.
Qed.

Lemma classified_frequencies_are_valid_witness :
  Tone.validate_frequency 21000 = 1
  /\ (In 21000 get_covert_frequencies -> is_ultrasonic_frequency 21000 = 1).
Proof.
  apply (classified_frequencies_are_valid 21000).
  right. right. simpl. tauto.
Defined.

(** *** Frequency hopping *)

Lemma hopping_from_range rand base_freq range n : forall i prev,
  (forall k, 0 <= rand k <= 2147483647) ->
  0 <= base_freq -> 0 < range -> base_freq + range <= 2147483447 ->
  0 <= prev < base_freq + range ->
  length (hopping_from n i rand base_freq range prev) = n
  /\ Forall (fun f => base_freq <= f < base_freq + range)
       (hopping_from n i rand base_freq range prev).
Proof.
  intros i prev Hrand Hbase Hrange Hmax.
  revert i prev. induction n as [|n IH]; intros i prev Hprev.
  - split; [reflexivity|constructor].
  - cbn [hopping_from].
    pose proof (Hrand (Z.to_nat i)) as Hr.
    assert (H1 : 0 <= Z.rem (rand (Z.to_nat i)) range < range)
      by (apply Z.rem_bound_pos; lia).
    assert (H2 : 0 <= Z.rem (prev + 200) range < range)
      by (apply Z.rem_bound_pos; lia).
    rewrite (s32_small (base_freq + _)) by lia.
    rewrite (s32_small (prev + 200)) by lia.
    rewrite (s32_small (base_freq + Z.rem (prev + 200) range)) by lia.
    set (s := if (i >? 0) && _ then _ else _).
    assert (Hs : base_freq <= s < base_freq + range).
    { unfold s. destruct ((i >? 0) && _); lia. }
    destruct (IH (i + 1) s) as [Hlen Hall]; [lia|].
    split; [simpl; now rewrite Hlen|].
    constructor; assumption.
Qed.

(** X7.  With [0 <= base_freq < max_freq] (and [max_freq] at least 200
    below [INT_MAX]) and a positive [length], [generate_hopping_sequence]
    writes [length] frequencies, each at least [base_freq] and below
    [max_freq], whatever values [rand()] returns.  With [length = 0] it
    divides by zero. *)
Theorem generate_hopping_sequence_in_band
    (rand : nat -> Z) (len base_freq max_freq : Z) :
  (forall k, 0 <= rand k <= 2147483647) ->
  0 <= base_freq < max_freq -> max_freq <= 2147483447 ->
  generate_hopping_sequence rand 0 base_freq max_freq = None
  /\ (0 < len ->
      exists seq,
        generate_hopping_sequence rand len base_freq max_freq = Some seq
        /\ length seq = Z.to_nat len
        /\ Forall (fun f => base_freq <= f < max_freq) seq).
Proof.
  intros Hrand Hbase Hmax. split; [reflexivity|]. intros Hlen.
  unfold generate_hopping_sequence.
  rewrite s32_small by lia.
  destruct (Z.eqb_spec len 0); [lia|].
  destruct (Z.eqb_spec (max_freq - base_freq) 0); [lia|].
  rewrite andb_false_r.
  destruct (hopping_from_range rand base_freq (max_freq - base_freq)
              (Z.to_nat len) 0 0) as [Hl Hall]; try lia; [exact Hrand|].
  eexists. split; [reflexivity|]. split; [exact Hl|].
  eapply Forall_impl; [|exact Hall]. cbv beta. intros f Hf. lia.
Qed.

Lemma generate_hopping_sequence_in_band_witness :
  generate_hopping_sequence (fun _ => 12345) 0 18000 22000 = None
  /\ exists seq,
       generate_hopping_sequence (fun _ => 12345) 4 18000 22000 = Some seq
       /\ length seq = 4%nat
       /\ Forall (fun f => 18000 <= f < 22000) seq.
Proof.
  destruct (generate_hopping_sequence_in_band (fun _ => 12345) 4 18000 22000)
    as [H0 H4]; [intros _; lia|lia|lia|].
  split; [exact H0|]. apply H4. lia.
Defined.

(** The re-draw does not enforce the 100 Hz separation its comment
    announces: here two consecutive entries are equal. *)
Example generate_hopping_sequence_no_separation :
  generate_hopping_sequence (fun _ => 0) 2 1000 1200 = Some [1000; 1000].
Proof. reflexivity. Qed.

End ModulationHelpers.

(** ** The tone generator in time *)

Tactic Notation "tone_simpl" :=
  unfold Tone.record, append_log, Tone.set_running, Tone.set_LO,
    Tone.set_cycle_nano, Tone.set_half_cycle_nano, Tone.set_now;
  cbn [Tone.running Tone.LO Tone.cycle_nano Tone.half_cycle_nano Tone.now
       Tone.euid Tone.log].

Tactic Notation "tone_simpl" "in" hyp(H) :=
  unfold Tone.record, append_log, Tone.set_running, Tone.set_LO,
    Tone.set_cycle_nano, Tone.set_half_cycle_nano, Tone.set_now in H;
  cbn [Tone.running Tone.LO Tone.cycle_nano Tone.half_cycle_nano Tone.now
       Tone.euid Tone.log] in H.

Ltac tone_step :=
  first [ rewrite bind_emit | rewrite bind_act | rewrite bind_gets
        | rewrite bind_ret | rewrite bind_clock_gettime
        | rewrite bind_for_up_emit | rewrite bind_bind ];
  cbv beta.

Ltac tone_steps := repeat (tone_step; tone_simpl).

Section ToneTiming.

Import Tone.
Local Open Scope ctl_scope.

Lemma cycles_app l1 l2 : cycles (l1 ++ l2) = cycles l1 + cycles l2.
Proof.
  induction l1 as [|e l1 IH]; [reflexivity|].
  destruct e as [| | | |b| | | | | |]; try destruct b; cbn [app cycles];
    rewrite IH; lia.
Qed.

Lemma lifecycle_app l1 l2 :
  lifecycle (l1 ++ l2) = lifecycle l1 ++ lifecycle l2.
Proof. apply filter_app. Qed.

Lemma cycles_map (f : Z -> event) l :
  (forall i, cycles [f i] = 0) -> cycles (map f l) = 0.
Proof.
  intros Hf. induction l as [|i l IH]; [reflexivity|].
  change (map f (i :: l)) with ([f i] ++ map f l).
  rewrite cycles_app, Hf, IH. reflexivity.
Qed.

Lemma lifecycle_map (f : Z -> event) l :
  (forall i, is_lifecycle (f i) = true) -> lifecycle (map f l) = map f l.
Proof.
  intros Hf. induction l as [|i l IH]; [reflexivity|].
  unfold lifecycle in *. cbn [map filter]. now rewrite Hf, IH.
Qed.

(** With [running] clear the loop condition fails at once. *)
Lemma control_loop_stopped budget start duration_nano w :
  running w = 0 ->
  control_loop (S budget) start duration_nano w = Some (tt, w).
Proof.
  intros Hr. cbn [control_loop]. rewrite bind_gets, Hr. reflexivity.
Qed.

(** The number of iterations and the time they take. *)
Lemma control_loop_cycles budget : forall start duration_nano w,
  running w <> 0 ->
  0 < half_cycle_nano w <= 999999999 ->
  (Z.to_nat (duration_nano - (now w - start)) < budget)%nat ->
  exists w',
    control_loop budget start duration_nano w = Some (tt, w')
    /\ now w'
       = now w
         + Z.max 0 ((duration_nano - (now w - start)
                     + 2 * half_cycle_nano w - 1)
                    / (2 * half_cycle_nano w))
           * (2 * half_cycle_nano w)
    /\ cycles (log w')
       = cycles (log w)
         + Z.max 0 ((duration_nano - (now w - start)
                     + 2 * half_cycle_nano w - 1)
                    / (2 * half_cycle_nano w))
    /\ lifecycle (log w') = lifecycle (log w)
    /\ running w' = running w
    /\ cycle_nano w' = cycle_nano w
    /\ half_cycle_nano w' = half_cycle_nano w.
Proof.
  induction budget as [|budget IH]; intros start dur w Hr Hh Hb; [lia|].
  destruct w as [r lo cn hn t uid l]. tone_simpl in Hr. tone_simpl in Hh.
  tone_simpl in Hb. tone_simpl.
  cbn [control_loop]. tone_steps.
  destruct (Z.eqb_spec r 0) as [|_]; [contradiction|].
  tone_steps.
  destruct (Z.geb_spec (t - start) dur) as [Hge|Hlt].
  - assert (HK : Z.max 0 ((dur - (t - start) + 2 * hn - 1) / (2 * hn)) = 0).
    { apply Z.max_l. apply Z.lt_succ_r.
      apply Z.div_lt_upper_bound; lia. }
    rewrite HK. eexists. split; [reflexivity|]. tone_simpl.
    rewrite cycles_app, lifecycle_app. cbn [cycles lifecycle filter is_lifecycle app].
    rewrite ?app_nil_r. repeat split; lia.
  - tone_steps. rewrite bind_nanosleep by (tone_simpl; lia). tone_steps.
    rewrite bind_nanosleep by (tone_simpl; lia). tone_simpl.
    match goal with
    | |- exists w', control_loop _ _ _ ?w1 = _ /\ _ =>
        destruct (IH start dur w1)
          as (w' & Hrun & Hnow & Hcyc & Hlife & Hrun' & Hcn & Hhn);
          [tone_simpl; exact Hr|tone_simpl; lia|tone_simpl; lia|]
    end.
    tone_simpl in Hnow. tone_simpl in Hcyc. tone_simpl in Hlife.
    tone_simpl in Hrun'. tone_simpl in Hcn. tone_simpl in Hhn.
    exists w'. split; [exact Hrun|].
    assert (HK : Z.max 0 ((dur - (t - start) + 2 * hn - 1) / (2 * hn))
                 = 1 + Z.max 0 ((dur - (t + hn + hn - start) + 2 * hn - 1)
                                / (2 * hn))).
    { replace (dur - (t - start) + 2 * hn - 1)
        with (dur - (t + hn + hn - start) + 2 * hn - 1 + 1 * (2 * hn))
        by lia.
      rewrite Z.div_add by lia.
      assert (0 <= (dur - (t + hn + hn - start) + 2 * hn - 1) / (2 * hn))
        by (apply Z.div_pos; lia).
      lia. }
    rewrite HK, Hnow, Hcyc, Hlife, Hrun', Hcn, Hhn.
    rewrite !cycles_app, !lifecycle_app. cbn [cycles lifecycle filter is_lifecycle app].
    rewrite ?app_nil_r. repeat split; lia.
Qed.

(** What a call with an accepted frequency does. *)
Lemma generate_tone_accepted budget freq duration_ms num_cores w :
  20 <= freq <= 24000 ->
  (Z.to_nat (duration_ms * 1000000) < budget)%nat ->
  exists w',
    generate_tone budget freq duration_ms num_cores w = Some (tt, w')
    /\ running w' = 0
    /\ cycle_nano w' = Z.quot NANO_PER_SECOND freq
    /\ half_cycle_nano w' = Z.quot (Z.quot NANO_PER_SECOND freq) 2
    /\ lifecycle (log w')
       = lifecycle (log w)
         ++ [EvBarrierInit half_cycle_barrier_hi (num_cores + 1);
             EvBarrierInit half_cycle_barrier_lo (num_cores + 1)]
         ++ map EvThreadCreate (count_from (Z.to_nat num_cores) 0)
         ++ map EvThreadCancel (count_from (Z.to_nat num_cores) 0)
         ++ [EvBarrierDestroy half_cycle_barrier_hi;
             EvBarrierDestroy half_cycle_barrier_lo]
    /\ (running w = 0 ->
        now w' = now w /\ cycles (log w') = cycles (log w))
    /\ (running w <> 0 ->
        now w'
        = now w + Z.max 0 (cycles_needed freq duration_ms) * slept_cycle freq
        /\ cycles (log w')
           = cycles (log w) + Z.max 0 (cycles_needed freq duration_ms)).
Proof.
  intros Hf Hb. pose proof (half_cycle_bounds freq Hf) as Hh.
  destruct budget as [|budget]; [lia|].
  destruct w as [r lo cn hn t uid l].
  unfold generate_tone. tone_step.
  rewrite (validate_frequency_1 freq Hf). cbn [Z.eqb]. tone_steps.
  destruct (Z.eq_dec r 0) as [Hr|Hr].
  - unfold bind at 1. rewrite control_loop_stopped by (tone_simpl; exact Hr).
    tone_steps. unfold emit, act. eexists. split; [reflexivity|].
    tone_simpl.
    rewrite !cycles_app, !lifecycle_app.
    rewrite !cycles_map by reflexivity.
    rewrite !lifecycle_map by reflexivity. cbn [cycles lifecycle filter is_lifecycle app].
    rewrite ?app_nil_r, <- ?app_assoc. cbn [app].
    repeat split; try reflexivity; try lia; contradiction.
  - match goal with
    | |- exists w', bind (control_loop _ ?s ?d) _ ?w1 = _ /\ _ =>
        destruct (control_loop_cycles (S budget) s d w1)
          as (w1' & Hrun & Hnow & Hcyc & Hlife & Hrun' & Hcn & Hhn);
          [tone_simpl; exact Hr|tone_simpl; exact Hh
          |tone_simpl; rewrite Z.sub_diag, Z.sub_0_r; exact Hb|]
    end.
    tone_simpl in Hnow. tone_simpl in Hcyc. tone_simpl in Hlife.
    tone_simpl in Hrun'. tone_simpl in Hcn. tone_simpl in Hhn.
    rewrite Z.sub_diag, Z.sub_0_r in Hnow, Hcyc.
    unfold bind at 1. rewrite Hrun. tone_steps.
    unfold emit, act. eexists. split; [reflexivity|]. tone_simpl.
    rewrite !cycles_app, !lifecycle_app, Hcyc, Hlife, Hnow, Hcn, Hhn.
    rewrite !cycles_app, !lifecycle_app.
    rewrite !cycles_map by reflexivity.
    rewrite !lifecycle_map by reflexivity. cbn [cycles lifecycle filter is_lifecycle app].
    rewrite ?app_nil_r, <- ?app_assoc. cbn [app].
    unfold cycles_needed, slept_cycle.
    repeat split; try reflexivity; try lia; intros; try contradiction;
      lia.
Qed.

Lemma slept_cycle_bounds freq :
  20 <= freq <= 24000 ->
  41666 <= Z.quot NANO_PER_SECOND freq <= 50000000
  /\ 20833 <= Z.quot (Z.quot NANO_PER_SECOND freq) 2 <= 25000000
  /\ slept_cycle freq <= Z.quot NANO_PER_SECOND freq <= slept_cycle freq + 1.
Proof.
  intros Hf. unfold slept_cycle, NANO_PER_SECOND.
  rewrite (Z.quot_div_nonneg 1000000000 freq) by lia.
  assert (H : 41666 <= 1000000000 / freq <= 50000000).
  { split; [apply Z.div_le_lower_bound|apply Z.div_le_upper_bound]; lia. }
  rewrite Z.quot_div_nonneg by lia.
  pose proof (Z.div_mod (1000000000 / freq) 2 ltac:(lia)).
  pose proof (Z.mod_pos_bound (1000000000 / freq) 2 ltac:(lia)).
  lia.
Qed.

Lemma cycles_needed_bounds freq duration_ms :
  20 <= freq <= 24000 -> 0 <= duration_ms ->
  0 <= cycles_needed freq duration_ms
  /\ duration_ms * 1000000
     <= cycles_needed freq duration_ms * slept_cycle freq
     < duration_ms * 1000000 + slept_cycle freq.
Proof.
  intros Hf Hd. destruct (slept_cycle_bounds freq Hf) as (_ & Hh & _).
  unfold cycles_needed.
  assert (Hc : 0 < slept_cycle freq) by (unfold slept_cycle; lia).
  set (c := slept_cycle freq) in *.
  pose proof (Z.div_mod (duration_ms * 1000000 + c - 1) c ltac:(lia)).
  pose proof (Z.mod_pos_bound (duration_ms * 1000000 + c - 1) c Hc).
  assert (0 <= (duration_ms * 1000000 + c - 1) / c)
    by (apply Z.div_pos; lia).
  nia.
Qed.

(** X8.  Started with [running] set, an accepted frequency and a
    duration of at least 0 ms, [generate_tone] returns, and not before
    the duration has passed on the clock: the loop is left only when the
    elapsed time has reached it. *)
Theorem generate_tone_lasts_the_duration
    (freq duration_ms num_cores : Z) (w : world) :
  20 <= freq <= 24000 -> 0 <= duration_ms -> running w <> 0 ->
  exists budget0, forall budget, (budget0 <= budget)%nat ->
  exists w',
    generate_tone budget freq duration_ms num_cores w = Some (tt, w')
    /\ now w + duration_ms * 1000000 <= now w'.
Proof.
  intros Hf Hd Hr.
  exists (S (Z.to_nat (duration_ms * 1000000))). intros budget Hb.
  destruct (generate_tone_accepted budget freq duration_ms num_cores w Hf)
    as (w' & Hrun & _ & _ & _ & _ & _ & Hon); [lia|].
  destruct (Hon Hr) as [Hnow _].
  destruct (cycles_needed_bounds freq duration_ms Hf Hd) as [HK Hbounds].
  rewrite Z.max_r in Hnow by exact HK.
  exists w'. split; [exact Hrun|]. lia.
Qed.

Lemma generate_tone_lasts_the_duration_witness :
  exists budget0, forall budget, (budget0 <= budget)%nat ->
  exists w',
    generate_tone budget 1000 10 1 (initial_world 0 1000) = Some (tt, w')
    /\ 10000000 <= now w'.
Proof.
  destruct (generate_tone_lasts_the_duration 1000 10 1 (initial_world 0 1000))
    as (budget0 & H); [lia|lia|discriminate|].
  exists budget0. intros budget Hb.
  destruct (H budget Hb) as (w' & Hrun & Hnow).
  exists w'. split; [exact Hrun|exact Hnow].
Defined.

(** X9.  A call with an accepted frequency initialises both barriers for
    [num_cores + 1] parties, creates the threads of cores
    0 .. [num_cores - 1], cancels the same threads in the same order
    (without joining them), destroys both barriers, and leaves
    [running = 0]. *)
Theorem generate_tone_lifecycle
    (freq duration_ms num_cores : Z) (w : world) :
  20 <= freq <= 24000 ->
  exists budget0, forall budget, (budget0 <= budget)%nat ->
  exists w',
    generate_tone budget freq duration_ms num_cores w = Some (tt, w')
    /\ lifecycle (log w')
       = lifecycle (log w)
         ++ [EvBarrierInit half_cycle_barrier_hi (num_cores + 1);
             EvBarrierInit half_cycle_barrier_lo (num_cores + 1)]
         ++ map EvThreadCreate (count_from (Z.to_nat num_cores) 0)
         ++ map EvThreadCancel (count_from (Z.to_nat num_cores) 0)
         ++ [EvBarrierDestroy half_cycle_barrier_hi;
             EvBarrierDestroy half_cycle_barrier_lo]
    /\ running w' = 0.
Proof.
  intros Hf.
  exists (S (Z.to_nat (duration_ms * 1000000))). intros budget Hb.
  destruct (generate_tone_accepted budget freq duration_ms num_cores w Hf)
    as (w' & Hrun & Hrunning & _ & _ & Hlife & _); [lia|].
  exists w'. repeat split; assumption.
Qed.

Lemma generate_tone_lifecycle_witness :
  exists budget0, forall budget, (budget0 <= budget)%nat ->
  exists w',
    generate_tone budget 440 1 2 (initial_world 0 1000) = Some (tt, w')
    /\ lifecycle (log w')
       = [EvBarrierInit half_cycle_barrier_hi 3;
          EvBarrierInit half_cycle_barrier_lo 3;
          EvThreadCreate 0; EvThreadCreate 1;
          EvThreadCancel 0; EvThreadCancel 1;
          EvBarrierDestroy half_cycle_barrier_hi;
          EvBarrierDestroy half_cycle_barrier_lo]
    /\ running w' = 0.
Proof.
  destruct (generate_tone_lifecycle 440 1 2 (initial_world 0 1000))
    as (budget0 & H); [lia|].
  exists budget0. intros budget Hb.
  destruct (H budget Hb) as (w' & Hrun & Hlife & Hrunning).
  exists w'. split; [exact Hrun|]. split; [exact Hlife|exact Hrunning].
Defined.

(** X10.  After a call with an accepted frequency the timing globals
    hold [cycle_nano = 1e9 / freq] and [half_cycle_nano = cycle_nano / 2]
    (integer divisions): the cycle is between 41666 and 50000000 ns, the
    half cycle is a valid [tv_nsec], and two half cycles fall short of
    the cycle by at most 1 ns. *)
Theorem generate_tone_timing_globals
    (freq duration_ms num_cores : Z) (w : world) :
  20 <= freq <= 24000 ->
  exists budget0, forall budget, (budget0 <= budget)%nat ->
  exists w',
    generate_tone budget freq duration_ms num_cores w = Some (tt, w')
    /\ cycle_nano w' = NANO_PER_SECOND / freq
    /\ half_cycle_nano w' = cycle_nano w' / 2
    /\ 41666 <= cycle_nano w' <= 50000000
    /\ 0 < half_cycle_nano w' <= 999999999
    /\ 2 * half_cycle_nano w' <= cycle_nano w' <= 2 * half_cycle_nano w' + 1.
Proof.
  intros Hf.
  exists (S (Z.to_nat (duration_ms * 1000000))). intros budget Hb.
  destruct (generate_tone_accepted budget freq duration_ms num_cores w Hf)
    as (w' & Hrun & _ & Hcn & Hhn & _); [lia|].
  destruct (slept_cycle_bounds freq Hf) as (Hc & Hh & Hs).
  unfold slept_cycle in Hs.
  exists w'. split; [exact Hrun|]. rewrite Hhn, Hcn.
  unfold NANO_PER_SECOND in *.
  rewrite <- (Z.quot_div_nonneg 1000000000 freq) by lia.
  rewrite <- (Z.quot_div_nonneg (Z.quot 1000000000 freq) 2) by lia.
  repeat split; lia.
Qed.

Lemma generate_tone_timing_globals_witness :
  exists budget0, forall budget, (budget0 <= budget)%nat ->
  exists w',
    generate_tone budget 24000 1 1 (initial_world 0 1000) = Some (tt, w')
    /\ cycle_nano w' = 41666 /\ half_cycle_nano w' = 20833.
Proof.
  destruct (generate_tone_timing_globals 24000 1 1 (initial_world 0 1000))
    as (budget0 & H); [lia|].
  exists budget0. intros budget Hb.
  destruct (H budget Hb) as (w' & Hrun & Hcn & Hhn & _).
  exists w'. split; [exact Hrun|]. split; [exact Hcn|].
  rewrite Hhn, Hcn. reflexivity.
Defined.

(** *** Tones after the first *)

Lemma stays_silent_bind c1 c2 :
  stays_silent c1 -> stays_silent c2 ->
  stays_silent (bind c1 (fun _ => c2)).
Proof.
  intros H1 H2 w Hw.
  destruct (H1 w Hw) as (w1 & Hr1 & Hs1 & Hn1 & Hc1).
  destruct (H2 w1 Hs1) as (w2 & Hr2 & Hs2 & Hn2 & Hc2).
  exists w2. unfold bind. rewrite Hr1.
  split; [exact Hr2|]. split; [exact Hs2|]. split; congruence.
Qed.

Lemma stays_silent_ret : stays_silent (ret tt).
Proof. intros w Hw. exists w. repeat split. exact Hw. Qed.

Lemma stays_silent_emit e : cycles [e] = 0 -> stays_silent (emit e).
Proof.
  intros He w Hw. eexists. split; [reflexivity|]. tone_simpl.
  rewrite cycles_app, He. repeat split; [exact Hw|lia].
Qed.

Lemma stays_silent_for_down body n :
  (forall i, stays_silent (body i)) -> stays_silent (for_down n body).
Proof.
  intros Hbody. induction n as [|n IH]; cbn [for_down].
  - apply stays_silent_ret.
  - apply stays_silent_bind; [apply Hbody|exact IH].
Qed.

Lemma stays_silent_for_each body data :
  (forall b, stays_silent (body b)) -> stays_silent (for_each data body).
Proof.
  intros Hbody. induction data as [|b rest IH]; cbn [for_each].
  - apply stays_silent_ret.
  - apply stays_silent_bind; [apply Hbody|exact IH].
Qed.

Lemma generate_tone_stays_silent budget freq duration_ms num_cores :
  stays_silent (generate_tone (S budget) freq duration_ms num_cores).
Proof.
  intros w Hw.
  destruct (validate_frequency_cases freq) as [[Hv Hf]|[Hv Hf]].
  - rewrite generate_tone_invalid by exact Hv.
    eexists. split; [reflexivity|]. tone_simpl.
    rewrite cycles_app. cbn [cycles]. repeat split; [exact Hw|lia].
  - destruct w as [r lo cn hn t uid l]. tone_simpl in Hw. subst r.
    unfold generate_tone. tone_step. rewrite Hv. cbn [Z.eqb]. tone_steps.
    unfold bind at 1. rewrite control_loop_stopped by reflexivity.
    tone_steps. unfold emit, act. eexists. split; [reflexivity|].
    tone_simpl. rewrite !cycles_app.
    rewrite !cycles_map by reflexivity. cbn [cycles].
    repeat split; lia.
Qed.

(** X11.  A call of [generate_tone] entered with [running = 0] (as after
    any earlier tone of the process) returns without a single cycle and
    without letting time pass, whatever the frequency and duration. *)
Theorem generate_tone_after_first_is_silent
    (budget : nat) (freq duration_ms num_cores : Z) (w : world) :
  running w = 0 -> (0 < budget)%nat ->
  exists w',
    generate_tone budget freq duration_ms num_cores w = Some (tt, w')
    /\ running w' = 0 /\ now w' = now w
    /\ cycles (log w') = cycles (log w).
Proof.
  intros Hw Hb. destruct budget as [|budget]; [lia|].
  apply generate_tone_stays_silent, Hw.
Qed.

Lemma generate_tone_after_first_is_silent_witness :
  exists w',
    generate_tone 1 8500 50 4 (mkWorld 0 1 117647 58823 50000000 1000 [])
    = Some (tt, w')
    /\ running w' = 0 /\ now w' = 50000000 /\ cycles (log w') = 0.
Proof.
  apply (generate_tone_after_first_is_silent 1 8500 50 4
           (mkWorld 0 1 117647 58823 50000000 1000 [])); [reflexivity|lia].
Defined.

(** The preamble starts with a 1 bit. *)
Lemma transmit_preamble_first budget params num_cores :
  transmit_preamble budget params num_cores
  = (emit (EvStdout MsgPreamble) ;;
     generate_tone budget (freq_1 params) (bit_duration_ms params) num_cores ;;
     for_down 7 (fun i =>
       transmit_bit_fsk budget (Z.land (Z.shiftr 0xAA i) 1) params
         num_cores)).
Proof. reflexivity. Qed.

(** X12.  In a frame sent by [transmit_data_fsk] from a state with
    [running] set and with an accepted [freq_1], only the first bit of
    the preamble is sounded: [generate_tone] is entered for all
    [8 * (length data + 2)] bits, but the frame makes exactly the cycles
    of its first tone, the one for the leading 1 bit of the preamble. *)
Theorem transmit_data_fsk_sounds_one_bit
    (data : list Z) (params : fsk_params_t) (num_cores : Z) (w : world) :
  20 <= freq_1 params <= 24000 -> running w <> 0 ->
  exists budget0, forall budget, (budget0 <= budget)%nat ->
  exists first w',
    generate_tone budget (freq_1 params) (bit_duration_ms params) num_cores
      (record (EvStdout MsgPreamble) w) = Some (tt, first)
    /\ transmit_data_fsk budget data params num_cores w = Some (tt, w')
    /\ length (tone_calls (log w'))
       = (length (tone_calls (log w)) + 8 * (length data + 2))%nat
    /\ running first = 0
    /\ cycles (log w') = cycles (log first).
Proof.
  intros Hf Hr.
  exists (S (Z.to_nat (bit_duration_ms params * 1000000))).
  intros budget Hb.
  destruct (transmit_data_fsk_makes_calls budget params num_cores
              ltac:(lia) data w) as (w' & Hrun & Hcalls).
  destruct (generate_tone_accepted budget (freq_1 params)
              (bit_duration_ms params) num_cores
              (record (EvStdout MsgPreamble) w) Hf)
    as (w1 & Hrun1 & Hrunning1 & _); [lia|].
  exists w1, w'. split; [exact Hrun1|]. split; [exact Hrun|].
  split.
  { assert (Hl : forall x, length (msb_first x) = 8%nat)
      by (intros x; reflexivity).
    assert (Hfm : length (flat_map msb_first data) = (8 * length data)%nat).
    { clear - Hl. induction data as [|b rest IH]; [reflexivity|].
      cbn [flat_map]. rewrite length_app, Hl, IH. simpl. lia. }
    rewrite Hcalls, length_app, length_map, !length_app, Hfm, !Hl. lia. }
  split; [exact Hrunning1|].
  destruct budget as [|budget]; [lia|].
  revert Hrun. unfold transmit_data_fsk.
  rewrite transmit_preamble_first.
  rewrite !bind_bind, bind_emit. cbv beta. rewrite !bind_bind.
  unfold bind at 1. rewrite Hrun1.
  match goal with
  | |- ?c w1 = _ -> _ =>
      assert (Hrest : stays_silent c)
  end.
  { repeat match goal with
      | |- stays_silent (transmit_bit_fsk _ _ _ _) =>
          unfold transmit_bit_fsk; apply generate_tone_stays_silent
      | |- stays_silent (for_down _ _) =>
          apply stays_silent_for_down; intros ?
      | |- stays_silent (for_each _ _) =>
          apply stays_silent_for_each; intros ?
      | |- stays_silent (emit _) => apply stays_silent_emit; reflexivity
      | |- stays_silent (bind _ _) => apply stays_silent_bind
      end. }
  destruct (Hrest w1 Hrunning1) as (w2 & Hrun2 & _ & _ & Hcyc2).
  rewrite Hrun2. intros E. injection E as <-. exact Hcyc2.
Qed.

Lemma transmit_data_fsk_sounds_one_bit_witness :
  exists budget0, forall budget, (budget0 <= budget)%nat ->
  exists first w',
    generate_tone budget 8500 50 4
      (record (EvStdout MsgPreamble) (initial_world 0 1000))
    = Some (tt, first)
    /\ transmit_data_fsk budget [0x48; 0x49] (mkFsk 8000 8500 50) 4
         (initial_world 0 1000) = Some (tt, w')
    /\ length (tone_calls (log w')) = 32%nat
    /\ cycles (log w') = cycles (log first).
Proof.
  destruct (transmit_data_fsk_sounds_one_bit [0x48; 0x49]
              (mkFsk 8000 8500 50) 4 (initial_world 0 1000))
    as (budget0 & H); [simpl; lia|discriminate|].
  exists budget0. intros budget Hb.
  destruct (H budget Hb) as (first & w' & Hfirst & Hrun & Hcalls & _ & Hcyc).
  exists first, w'. split; [exact Hfirst|]. split; [exact Hrun|].
  split; [exact Hcalls|exact Hcyc].
Defined.

(** X13.  The frame of [transmit_data_fsk] for any payload: given enough
    budget the call returns and has entered [generate_tone] once per bit
    of 0xAA, of every payload byte in order and of the CRC-8 of the
    payload, most significant bit first, with [freq_1] for a 1 bit and
    [freq_0] for a 0 bit; an empty payload gives the 16 bits of 0xAA and
    of the CRC 0x00. *)
Theorem transmit_data_fsk_frame
    (data : list Z) (params : fsk_params_t) (num_cores : Z) (w : world) :
  exists budget0, forall budget, (budget0 <= budget)%nat ->
  exists w',
    transmit_data_fsk budget data params num_cores w = Some (tt, w')
    /\ tone_calls (log w')
       = tone_calls (log w)
         ++ map (tone_of_bit params num_cores)
              (msb_first 0xAA ++ flat_map msb_first data
               ++ msb_first (Modulation.calculate_crc8 data))
    /\ (data = [] ->
        tone_calls (log w')
        = tone_calls (log w)
          ++ map (tone_of_bit params num_cores)
               [1; 0; 1; 0; 1; 0; 1; 0; 0; 0; 0; 0; 0; 0; 0; 0]).
Proof.
  exists (S (Z.to_nat (bit_duration_ms params * 1000000))).
  intros budget Hb.
  destruct (transmit_data_fsk_makes_calls budget params num_cores
              ltac:(lia) data w) as (w' & Hrun & Hcalls).
  rewrite tone_calculate_crc8 in Hcalls.
  exists w'. split; [exact Hrun|]. split; [exact Hcalls|].
  intros ->. exact Hcalls.
Qed.

End ToneTiming.

(** ** Exit codes of main.c *)

Section ToneMain.

Import Tone.
Local Open Scope ctl_scope.

(** [main_accepts] in terms of [argc] and the arguments as [main] reads
    them. *)
Lemma main_accepts_alt argv :
  main_accepts argv
  = (let argc := Z.of_nat (length argv) in
     let arg (i : nat) := nth i argv EmptyString in
     let cores_ok (c : string) :=
       (1 <=? atoi c) && (atoi c <=? MAX_CORES) in
     ((argc =? 5) && String.eqb (arg 1%nat) "tone" && cores_ok (arg 4%nat))
     || ((argc =? 7) && String.eqb (arg 1%nat) "fsk"
         && (validate_frequency (atoi (arg 2%nat)) =? 1)
         && (validate_frequency (atoi (arg 3%nat)) =? 1)
         && cores_ok (arg 5%nat))).
Proof.
  destruct argv as [|a0 [|a1 [|a2 [|a3 [|a4 [|a5 [|a6 [|a7 rest]]]]]]]];
    unfold main_accepts; cbv zeta; cbn [length nth]; try reflexivity.
  - change (Z.of_nat 5 =? 5) with true. change (Z.of_nat 5 =? 7) with false.
    cbn [andb]. now rewrite orb_false_r.
  - replace (Z.of_nat (S (S (S (S (S (S (S (S (length rest))))))))) =? 5)
      with false by (symmetry; apply Z.eqb_neq; lia).
    replace (Z.of_nat (S (S (S (S (S (S (S (S (length rest))))))))) =? 7)
      with false by (symmetry; apply Z.eqb_neq; lia).
    reflexivity.
Qed.

Lemma cores_check c :
  (atoi c <? 1) || (atoi c >? MAX_CORES)
  = negb ((1 <=? atoi c) && (atoi c <=? MAX_CORES)).
Proof.
  rewrite Z.gtb_ltb, negb_andb, !Z.leb_antisym, !negb_involutive.
  reflexivity.
Qed.

Lemma validate_frequency_eqb freq :
  (validate_frequency freq =? 0) = negb (validate_frequency freq =? 1).
Proof.
  destruct (validate_frequency_cases freq) as [[-> _]|[-> _]]; reflexivity.
Qed.

(** A run that ends with exit code 1 before any tone. *)
Ltac rejected :=
  cbn [andb orb negb]; eexists; split; [reflexivity|];
  intros _; tone_simpl; rewrite ?tone_calls_app; cbn [tone_calls];
  rewrite ?app_nil_r; reflexivity.

(** X14.  The exit code of main.c, for every command line: given enough
    budget [main] returns, with code 0 exactly when the mode is [tone]
    with 5 arguments and a core count in [1, MAX_CORES], or [fsk] with 7
    arguments, both frequencies in [20, 24000] and a core count in
    [1, MAX_CORES]; in every other case (too few arguments, wrong
    argument count, core count or fsk frequency out of range, [wav],
    unknown mode) the code is 1 and [generate_tone] is never entered. *)
Theorem main_exit_code (argv : list string) (w : world) :
  exists budget0, forall budget, (budget0 <= budget)%nat ->
  exists w',
    main budget argv w = Some ((if main_accepts argv then 0 else 1), w')
    /\ (main_accepts argv = false ->
        tone_calls (log w') = tone_calls (log w)).
Proof.
  exists (S (Z.to_nat (atoi (nth 3 argv EmptyString) * 1000000))
          + S (Z.to_nat (atoi (nth 4 argv EmptyString) * 1000000)))%nat.
  intros budget Hb.
  rewrite main_accepts_alt. unfold main. cbv zeta.
  set (argc := Z.of_nat (length argv)).
  destruct w as [r lo cn hn t uid l]. tone_steps.
  destruct (Z.ltb_spec argc 2) as [Hargc|Hargc].
  { replace (argc =? 5) with false by (symmetry; apply Z.eqb_neq; lia).
    replace (argc =? 7) with false by (symmetry; apply Z.eqb_neq; lia).
    tone_steps. rejected. }
  tone_steps.
  assert (Hroot : forall (k : unit -> M world Z) l0,
            exists l1,
              tone_calls l1 = tone_calls l0
              /\ bind (if uid =? 0
                       then emit (EvStdout MsgRootWarning) else ret tt) k
                   (mkWorld r lo cn hn t uid l0)
                 = k tt (mkWorld r lo cn hn t uid l1)).
  { intros k l0. destruct (uid =? 0); eexists; (split; [|reflexivity]);
      rewrite ?tone_calls_app; cbn [tone_calls]; rewrite ?app_nil_r;
      reflexivity. }
  match goal with
  | |- exists w', bind _ ?k (mkWorld _ _ _ _ _ _ ?l0) = _ /\ _ =>
      destruct (Hroot k l0) as (l1 & Hl1 & ->)
  end.
  rewrite !tone_calls_app in Hl1. cbn [tone_calls] in Hl1.
  rewrite !app_nil_r in Hl1. rewrite <- Hl1. clear Hroot Hl1.
  cbv beta.
  destruct (String.eqb_spec (nth 1 argv EmptyString) "tone") as [Emode|_].
  { rewrite Emode. cbn [String.eqb Ascii.eqb Bool.eqb andb].
    rewrite andb_false_r, orb_false_r.
    destruct (Z.eqb_spec argc 5) as [_|_]; cbn [negb andb];
      [|tone_steps; rejected].
    rewrite cores_check.
    destruct ((1 <=? atoi (nth 4 argv EmptyString))
              && (atoi (nth 4 argv EmptyString) <=? MAX_CORES));
      cbn [negb]; [|tone_steps; rejected].
    destruct (generate_tone_makes_calls budget
                (atoi (nth 2 argv EmptyString))
                (atoi (nth 3 argv EmptyString))
                (atoi (nth 4 argv EmptyString)) ltac:(lia)
                (mkWorld r lo cn hn t uid l1)) as (w' & Hrun & _).
    unfold bind at 1. rewrite Hrun.
    exists w'. split; [reflexivity|discriminate]. }
  rewrite andb_false_r. cbn [andb orb].
  destruct (String.eqb_spec (nth 1 argv EmptyString) "fsk") as [_|_].
  { rewrite andb_true_r.
    destruct (Z.eqb_spec argc 7) as [_|_]; cbn [negb andb];
      [|tone_steps; rejected].
    cbn [freq_0 freq_1 bit_duration_ms].
    rewrite !validate_frequency_eqb, cores_check.
    destruct (validate_frequency (atoi (nth 2 argv EmptyString)) =? 1);
      cbn [negb orb andb]; [|tone_steps; rejected].
    destruct (validate_frequency (atoi (nth 3 argv EmptyString)) =? 1);
      cbn [negb orb andb]; [|tone_steps; rejected].
    destruct ((1 <=? atoi (nth 5 argv EmptyString))
              && (atoi (nth 5 argv EmptyString) <=? MAX_CORES));
      cbn [negb]; [|tone_steps; rejected].
    tone_steps.
    match goal with
    | |- exists w', bind (transmit_data_fsk _ ?d ?p ?n) _ ?w1 = _ /\ _ =>
        destruct (transmit_data_fsk_makes_calls budget p n
                    ltac:(cbn [bit_duration_ms]; lia) d w1)
          as (w' & Hrun & _)
    end.
    unfold bind at 1. rewrite Hrun.
    exists w'. split; [reflexivity|discriminate]. }
  rewrite !andb_false_r. cbn [andb].
  destruct (String.eqb (nth 1 argv EmptyString) "wav");
    tone_steps; rejected.
Qed.

(** Rejected and accepted command lines. *)
Example main_accepts_examples :
  main_accepts ["transmitter"; "tone"; "440"; "5000"; "4"]%string = true
  /\ main_accepts ["transmitter"; "tone"; "440"; "5000"; "0"]%string = false
  /\ main_accepts ["transmitter"; "tone"; "440"; "5000"; "33"]%string = false
  /\ main_accepts ["transmitter"; "fsk"; "8000"; "8500"; "50"; "4"; "HI"]%string
     = true
  /\ main_accepts ["transmitter"; "fsk"; "8000"; "85000"; "50"; "4"; "HI"]%string
     = false
  /\ main_accepts ["transmitter"; "wav"; "a.wav"; "4"]%string = false
  /\ main_accepts ["transmitter"; "ofdm"]%string = false
  /\ main_accepts ["transmitter"]%string = false.
Proof. repeat split. Qed.

End ToneMain.

(** ** The OFDM frame as a whole *)

Section OfdmLogs.

Import Ofdm.
Local Open Scope ctl_scope.

Lemma ofdm_logs_ret : ofdm_logs (ret tt) [].
Proof.
  intros w Hw. exists w. split; [reflexivity|]. split; [exact Hw|].
  now rewrite app_nil_r.
Qed.

Lemma ofdm_logs_bind c1 c2 l1 l2 :
  ofdm_logs c1 l1 -> ofdm_logs c2 l2 ->
  ofdm_logs (bind c1 (fun _ => c2)) (l1 ++ l2).
Proof.
  intros H1 H2 w Hw.
  destruct (H1 w Hw) as (w1 & Hr1 & Hw1 & Hl1).
  destruct (H2 w1 Hw1) as (w2 & Hr2 & Hw2 & Hl2).
  exists w2. unfold bind. rewrite Hr1.
  split; [exact Hr2|]. split; [exact Hw2|].
  now rewrite Hl2, Hl1, app_assoc.
Qed.

Lemma ofdm_logs_emit e : ofdm_logs (emit e) [e].
Proof.
  intros w Hw. eexists. split; [reflexivity|]. split; [exact Hw|reflexivity].
Qed.

Lemma ofdm_logs_eq c l l' : ofdm_logs c l -> l = l' -> ofdm_logs c l'.
Proof. now intros H <-. Qed.

Lemma ofdm_logs_for_up body (evs : Z -> list event) n : forall lo,
  (forall i, lo <= i < lo + Z.of_nat n -> ofdm_logs (body i) (evs i)) ->
  ofdm_logs (for_up n lo body) (flat_map evs (count_from n lo)).
Proof.
  induction n as [|n IH]; intros lo Hbody; cbn [for_up count_from flat_map].
  - apply ofdm_logs_ret.
  - apply ofdm_logs_bind; [apply Hbody; lia|].
    apply IH. intros i Hi. apply Hbody. lia.
Qed.

Lemma store_transmitting_logs i v :
  0 <= i < 8 -> ofdm_logs (store_transmitting i v) [EvTransmitting i v].
Proof.
  intros Hi w Hw.
  destruct (store_transmitting_in_range i v w Hi Hw)
    as (t & Hrun & Hlen & _).
  eexists. split; [exact Hrun|]. split; [exact Hlen|reflexivity].
Qed.

Lemma key_subcarrier_logs symbol i :
  0 <= i < 8 ->
  ofdm_logs (store_transmitting i (Z.land (Z.shiftr symbol i) 1) ;;
             v <- load_transmitting i ;;
             emit (EvStdout (MsgBit v)))
    [EvTransmitting i (Z.land (Z.shiftr symbol i) 1);
     EvStdout (MsgBit (Z.land (Z.shiftr symbol i) 1))].
Proof.
  intros Hi w Hw.
  destruct (store_transmitting_in_range i (Z.land (Z.shiftr symbol i) 1)
              w Hi Hw) as (t & Hrun & Hlen & Hnth).
  unfold bind at 1. rewrite Hrun.
  unfold bind, load_transmitting. cbn [transmitting].
  destruct (Z.ltb_spec i 0); [lia|]. rewrite Hnth.
  eexists. split; [reflexivity|]. cbn [record transmitting log].
  split; [exact Hlen|]. now rewrite <- app_assoc.
Qed.

Lemma release_workers_logs carriers :
  Forall worker_sound carriers -> ofdm_logs (release_workers carriers) [].
Proof.
  intros Hall w Hw. exists w.
  split; [now apply release_workers_returns|].
  split; [exact Hw|]. now rewrite app_nil_r.
Qed.

Section Frame.

Variable params : ofdm_params_t.
Hypothesis subcarriers_fit : num_subcarriers params <= MAX_SUBCARRIERS.

Lemma transmit_ofdm_symbol_logs carriers symbol :
  carriers_ready carriers ->
  ofdm_logs (transmit_ofdm_symbol symbol params carriers)
    (symbol_log params symbol).
Proof.
  intros [(carrier & Hfirst & Hsync) Hall].
  unfold MAX_SUBCARRIERS in subcarriers_fit.
  unfold transmit_ofdm_symbol, symbol_log.
  rewrite Hfirst, Hsync.
  rewrite <- (flat_map_singleton (fun i => EvTransmitting i 0)).
  eapply ofdm_logs_eq.
  - apply ofdm_logs_bind; [apply ofdm_logs_emit|].
    apply ofdm_logs_bind;
      [apply ofdm_logs_for_up; intros i Hi;
       apply key_subcarrier_logs; lia|].
    apply ofdm_logs_bind; [apply ofdm_logs_emit|].
    apply ofdm_logs_bind; [apply ofdm_logs_emit|].
    apply (ofdm_logs_bind _ _ []); [apply release_workers_logs, Hall|].
    apply ofdm_logs_bind; [apply ofdm_logs_emit|].
    apply ofdm_logs_bind;
      [apply ofdm_logs_for_up; intros i Hi;
       apply store_transmitting_logs; lia|].
    apply ofdm_logs_emit.
  - reflexivity.
Qed.

Lemma transmit_payload_logs carriers rest :
  carriers_ready carriers ->
  forall i data_len,
  ofdm_logs (transmit_payload rest i data_len params carriers)
    (payload_log params rest i data_len).
Proof.
  intros Hready.
  induction rest as [|b rest IH]; intros i data_len;
    cbn [transmit_payload payload_log].
  - apply ofdm_logs_ret.
  - apply (ofdm_logs_bind _ _ [_]); [apply ofdm_logs_emit|].
    apply ofdm_logs_bind;
      [apply transmit_ofdm_symbol_logs, Hready|apply IH].
Qed.

Variable pf : platform.
Hypothesis some_subcarrier : 1 <= num_subcarriers params.
Hypothesis cooperate : workers_cooperate pf params.

Lemma ofdm_logs_after_setup
    (k : list (option subcarrier_thread_t) -> M world unit) evs :
  ofdm_logs (k (filled_carriers params (num_subcarriers params))) evs ->
  ofdm_logs (bind (setup_ofdm_carriers pf fresh_carriers params) k)
    (setup_log params ++ evs).
Proof.
  intros H w Hw. unfold bind.
  rewrite setup_ofdm_carriers_runs by assumption.
  match goal with
  | |- exists w', k _ ?w1 = _ /\ _ =>
      destruct (H w1 Hw) as (w' & Hrun & Hlen & Hlog)
  end.
  exists w'. split; [exact Hrun|]. split; [exact Hlen|].
  rewrite Hlog. cbn [log]. now rewrite app_assoc.
Qed.

Lemma cleanup_carriers_logs :
  ofdm_logs
    (cleanup_carriers pf (filled_carriers params (num_subcarriers params))
       (num_subcarriers params))
    (flat_map (fun i => [EvThreadCancel i; EvThreadJoin i])
       (count_from (Z.to_nat (num_subcarriers params)) 0)).
Proof.
  unfold MAX_SUBCARRIERS in subcarriers_fit.
  unfold cleanup_carriers. apply ofdm_logs_for_up.
  intros i Hi. rewrite nth_error_filled by lia.
  destruct (Z.ltb_spec i (num_subcarriers params)); [|lia].
  destruct (cooperate i ltac:(lia)) as (_ & -> & _).
  apply (ofdm_logs_bind _ _ [_] [_]); [apply ofdm_logs_emit|].
  apply (ofdm_logs_bind _ _ [_] []); [apply ofdm_logs_emit|].
  apply ofdm_logs_ret.
Qed.

(** The complete log of a frame. *)
Lemma transmit_ofdm_frame_logs data :
  ofdm_logs (transmit_ofdm_frame pf data params) (frame_log data params).
Proof.
  assert (Hready : carriers_ready
                     (filled_carriers params (num_subcarriers params)))
    by (apply (filled_carriers_ready pf); assumption).
  unfold transmit_ofdm_frame, print_ofdm_spectrum, frame_log,
    subcarrier_frequency.
  cbv zeta.
  rewrite <- !flat_map_singleton.
  eapply ofdm_logs_eq.
  - apply ofdm_logs_bind; [apply ofdm_logs_emit|].
    apply ofdm_logs_bind.
    { apply ofdm_logs_bind; [apply ofdm_logs_emit|].
      apply ofdm_logs_bind;
        [apply ofdm_logs_for_up; intros i _; apply ofdm_logs_emit|].
      apply ofdm_logs_emit. }
    apply ofdm_logs_after_setup.
    apply ofdm_logs_bind; [apply ofdm_logs_emit|].
    apply ofdm_logs_bind;
      [apply (ofdm_logs_for_up _
                (fun _ => symbol_log params 0xAA ++ symbol_log params 0x55));
       intros i _; apply ofdm_logs_bind;
       apply transmit_ofdm_symbol_logs, Hready|].
    apply ofdm_logs_bind; [apply ofdm_logs_emit|].
    apply ofdm_logs_bind; [apply transmit_payload_logs, Hready|].
    apply ofdm_logs_bind; [apply ofdm_logs_emit|].
    apply ofdm_logs_bind; [apply transmit_ofdm_symbol_logs, Hready|].
    apply ofdm_logs_bind; [apply transmit_ofdm_symbol_logs, Hready|].
    apply ofdm_logs_bind; [apply transmit_ofdm_symbol_logs, Hready|].
    apply (ofdm_logs_bind _ _ []).
    { intros w Hw. eexists. split; [reflexivity|].
      split; [exact Hw|]. cbn [log]. now rewrite app_nil_r. }
    apply ofdm_logs_bind; [apply cleanup_carriers_logs|].
    apply ofdm_logs_bind; [apply ofdm_logs_emit|].
    apply ofdm_logs_bind; apply ofdm_logs_emit.
  - unfold setup_log, subcarrier_frequency.
    rewrite <- !flat_map_singleton.
    cbn [count_from flat_map app]. rewrite ?app_nil_r.
    repeat (rewrite <- ?app_assoc; cbn [app]). reflexivity.
Qed.

End Frame.

(** *** Air time *)

Lemma usleep_total_app l1 l2 :
  usleep_total (l1 ++ l2) = usleep_total l1 + usleep_total l2.
Proof.
  induction l1 as [|e l1 IH]; [reflexivity|].
  destruct e; cbn [app usleep_total]; rewrite IH; lia.
Qed.

Lemma usleep_total_map (f : Z -> event) l :
  (forall i, usleep_total [f i] = 0) -> usleep_total (map f l) = 0.
Proof.
  intros Hf. induction l as [|i l IH]; [reflexivity|].
  change (map f (i :: l)) with ([f i] ++ map f l).
  rewrite usleep_total_app, Hf, IH. reflexivity.
Qed.

Lemma usleep_total_flat_map (f : Z -> list event) l :
  (forall i, usleep_total (f i) = 0) -> usleep_total (flat_map f l) = 0.
Proof.
  intros Hf. induction l as [|i l IH]; [reflexivity|].
  cbn [flat_map]. rewrite usleep_total_app, Hf, IH. reflexivity.
Qed.

Lemma usleep_total_symbol params symbol :
  usleep_total (symbol_log params symbol)
  = s32 (symbol_duration_ms params * 1000) + 10000.
Proof.
  unfold symbol_log. rewrite !usleep_total_app.
  rewrite usleep_total_flat_map by reflexivity.
  rewrite usleep_total_map by reflexivity.
  cbn [usleep_total]. unfold GUARD_INTERVAL_MS. lia.
Qed.

Lemma usleep_total_symbols params l :
  usleep_total (flat_map (symbol_log params) l)
  = Z.of_nat (length l) * (s32 (symbol_duration_ms params * 1000) + 10000).
Proof.
  induction l as [|s l IH]; [reflexivity|].
  cbn [flat_map length]. rewrite usleep_total_app, usleep_total_symbol, IH.
  lia.
Qed.

Lemma usleep_total_payload params rest : forall i data_len,
  usleep_total (payload_log params rest i data_len)
  = Z.of_nat (length rest) * (s32 (symbol_duration_ms params * 1000) + 10000).
Proof.
  induction rest as [|b rest IH]; intros i data_len; [reflexivity|].
  cbn [payload_log length usleep_total].
  rewrite usleep_total_app, usleep_total_symbol, IH. lia.
Qed.



(** *** Threads *)

Lemma carrier_lifecycle_app l1 l2 :
  carrier_lifecycle (l1 ++ l2) = carrier_lifecycle l1 ++ carrier_lifecycle l2.
Proof. apply filter_app. Qed.

Lemma carrier_lifecycle_all l :
  (forall e, In e l -> is_carrier_lifecycle e = true) ->
  carrier_lifecycle l = l.
Proof.
  intros H. induction l as [|e l IH]; [reflexivity|].
  unfold carrier_lifecycle in *. cbn [filter].
  rewrite (H e (or_introl eq_refl)), IH; [reflexivity|].
  intros e' He'. apply H. now right.
Qed.

Lemma carrier_lifecycle_none l :
  (forall e, In e l -> is_carrier_lifecycle e = false) ->
  carrier_lifecycle l = [].
Proof.
  intros H. induction l as [|e l IH]; [reflexivity|].
  unfold carrier_lifecycle in *. cbn [filter].
  rewrite (H e (or_introl eq_refl)), IH; [reflexivity|].
  intros e' He'. apply H. now right.
Qed.

Lemma carrier_lifecycle_symbol params symbol :
  carrier_lifecycle (symbol_log params symbol) = [].
Proof.
  apply carrier_lifecycle_none. intros e He. unfold symbol_log in He.
  repeat (apply in_app_or in He; destruct He as [He|He]).
  - destruct He as [<-|[]]. reflexivity.
  - apply in_flat_map in He. destruct He as (i & _ & [<-|[<-|[]]]);
      reflexivity.
  - repeat (destruct He as [<-|He]; [reflexivity|]). destruct He.
  - apply in_map_iff in He. destruct He as (i & <- & _). reflexivity.
  - destruct He as [<-|[]]. reflexivity.
Qed.

Lemma carrier_lifecycle_symbols params l :
  carrier_lifecycle (flat_map (symbol_log params) l) = [].
Proof.
  induction l as [|s l IH]; [reflexivity|].
  cbn [flat_map].
  now rewrite carrier_lifecycle_app, carrier_lifecycle_symbol, IH.
Qed.

Lemma carrier_lifecycle_payload params rest : forall i data_len,
  carrier_lifecycle (payload_log params rest i data_len) = [].
Proof.
  induction rest as [|b rest IH]; intros i data_len; [reflexivity|].
  cbn [payload_log].
  change (EvStdout (MsgByte (i + 1) data_len)
            :: symbol_log params b ++ payload_log params rest (i + 1) data_len)
    with ([EvStdout (MsgByte (i + 1) data_len)]
            ++ symbol_log params b
            ++ payload_log params rest (i + 1) data_len).
  now rewrite !carrier_lifecycle_app, carrier_lifecycle_symbol, IH.
Qed.



End OfdmLogs.

(** ** The [transmitting] flags and the OFDM command line *)

Section OfdmState.

Import Ofdm.
Local Open Scope ctl_scope.

Lemma list_set_spec l : forall i v,
  (i < length l)%nat ->
  exists l', list_set l i v = Some l'
             /\ length l' = length l
             /\ nth_error l' i = Some v
             /\ forall j, j <> i -> nth_error l' j = nth_error l j.
Proof.
  induction l as [|x l IH]; intros i v Hi; simpl in Hi; [lia|].
  destruct i as [|i]; simpl.
  - eexists. repeat split. intros [|j] Hj; [contradiction|reflexivity].
  - destruct (IH i v) as (l' & Hset & Hlen & Hnth & Hother); [lia|].
    rewrite Hset. simpl. eexists. split; [reflexivity|].
    simpl. split; [now rewrite Hlen|]. split; [exact Hnth|].
    intros [|j] Hj; [reflexivity|]. simpl. apply Hother. congruence.
Qed.

Lemma store_transmitting_spec i v w :
  0 <= i < 8 -> length (transmitting w) = 8%nat ->
  exists w',
    store_transmitting i v w = Some (tt, w')
    /\ length (transmitting w') = 8%nat
    /\ nth_error (transmitting w') (Z.to_nat i) = Some v
    /\ forall j, j <> Z.to_nat i ->
         nth_error (transmitting w') j = nth_error (transmitting w) j.
Proof.
  intros Hi Hw. unfold store_transmitting.
  destruct (Z.ltb_spec i 0); [lia|].
  destruct (list_set_spec (transmitting w) (Z.to_nat i) v)
    as (t & Hset & Hlen & Hnth & Hother); [lia|].
  rewrite Hset. eexists. split; [reflexivity|]. cbn [transmitting].
  split; [congruence|]. split; [exact Hnth|exact Hother].
Qed.

(** A loop of stores over the indices [lo .. lo + k - 1], each body
    storing at its own index only. *)
Lemma for_up_stores (body : Z -> M world unit) (v : Z -> Z) k : forall lo w,
  0 <= lo -> lo + Z.of_nat k <= 8 -> length (transmitting w) = 8%nat ->
  (forall i w0, lo <= i < lo + Z.of_nat k ->
     length (transmitting w0) = 8%nat ->
     exists w1,
       body i w0 = Some (tt, w1)
       /\ length (transmitting w1) = 8%nat
       /\ nth_error (transmitting w1) (Z.to_nat i) = Some (v i)
       /\ forall j, j <> Z.to_nat i ->
            nth_error (transmitting w1) j = nth_error (transmitting w0) j) ->
  exists w',
    for_up k lo body w = Some (tt, w')
    /\ length (transmitting w') = 8%nat
    /\ (forall i, lo <= i < lo + Z.of_nat k ->
          nth_error (transmitting w') (Z.to_nat i) = Some (v i))
    /\ forall j, (j < Z.to_nat lo \/ Z.to_nat lo + k <= j)%nat ->
         nth_error (transmitting w') j = nth_error (transmitting w) j.
Proof.
  induction k as [|k IH]; intros lo w Hlo Hhi Hw Hbody; cbn [for_up].
  - exists w. split; [reflexivity|]. split; [exact Hw|].
    split; [intros i Hi; lia|reflexivity].
  - destruct (Hbody lo w ltac:(lia) Hw) as (w1 & Hrun1 & Hw1 & Hset & Hoth).
    destruct (IH (lo + 1) w1 ltac:(lia) ltac:(lia) Hw1)
      as (w' & Hrun & Hw' & Hin & Hout).
    { intros i w0 Hi Hw0. apply Hbody; [lia|exact Hw0]. }
    exists w'. unfold bind. rewrite Hrun1.
    split; [exact Hrun|]. split; [exact Hw'|]. split.
    + intros i Hi. destruct (Z.eq_dec i lo) as [->|Hne].
      * rewrite Hout by lia. exact Hset.
      * apply Hin. lia.
    + intros j Hj. rewrite Hout by lia. apply Hoth. lia.
Qed.

(** What the workers do to a symbol without the assumption that they are
    sound. *)
Lemma release_workers_state carriers : forall w u w',
  release_workers carriers w = Some (u, w') -> w' = w.
Proof.
  induction carriers as [|entry rest IH]; intros w u w' H.
  - injection H as _ <-. reflexivity.
  - destruct entry as [carrier|]; cbn [release_workers] in H;
      [|exact (IH _ _ _ H)].
    unfold bind at 1, load_transmitting in H.
    destruct (subcarrier_id carrier <? 0); [discriminate|].
    destruct (nth_error (transmitting w) (Z.to_nat (subcarrier_id carrier)))
      as [v|]; [|discriminate].
    unfold bind at 1 in H.
    destruct (v =? 0); [exact (IH _ _ _ H)|].
    destruct (worker_cycle (frequency carrier));
      [exact (IH _ _ _ H)|discriminate].
Qed.

(** A keyed worker whose tone loop divides by zero. *)
Lemma release_workers_faults carriers : forall w carrier v,
  In (Some carrier) carriers ->
  0 <= subcarrier_id carrier ->
  nth_error (transmitting w) (Z.to_nat (subcarrier_id carrier)) = Some v ->
  v <> 0 ->
  worker_cycle (frequency carrier) = None ->
  release_workers carriers w = None.
Proof.
  induction carriers as [|entry rest IH];
    intros w carrier v Hin Hid Hv Hset Hcycle; [destruct Hin|].
  destruct Hin as [->|Hin].
  - cbn [release_workers]. unfold bind at 1, load_transmitting.
    destruct (Z.ltb_spec (subcarrier_id carrier) 0); [lia|].
    rewrite Hv. unfold bind at 1.
    destruct (Z.eqb_spec v 0); [contradiction|].
    rewrite Hcycle. reflexivity.
  - destruct entry as [other|]; cbn [release_workers];
      [|exact (IH _ _ _ Hin Hid Hv Hset Hcycle)].
    unfold bind at 1, load_transmitting.
    destruct (subcarrier_id other <? 0); [reflexivity|].
    destruct (nth_error (transmitting w) (Z.to_nat (subcarrier_id other)))
      as [v'|]; [|reflexivity].
    unfold bind at 1.
    destruct (v' =? 0); [exact (IH _ _ _ Hin Hid Hv Hset Hcycle)|].
    destruct (worker_cycle (frequency other));
      [exact (IH _ _ _ Hin Hid Hv Hset Hcycle)|reflexivity].
Qed.

Section Flags.

Variable params : ofdm_params_t.
Hypothesis subcarriers_fit : num_subcarriers params <= MAX_SUBCARRIERS.

(** The first loop of [transmit_ofdm_symbol]. *)
Lemma key_subcarriers_stores symbol w :
  length (transmitting w) = 8%nat ->
  exists w1,
    for_up (Z.to_nat (Z.min (num_subcarriers params) 8)) 0
      (fun i => store_transmitting i (Z.land (Z.shiftr symbol i) 1) ;;
                v <- load_transmitting i ;;
                emit (EvStdout (MsgBit v))) w
    = Some (tt, w1)
    /\ length (transmitting w1) = 8%nat
    /\ (forall i, 0 <= i < num_subcarriers params ->
          nth_error (transmitting w1) (Z.to_nat i)
          = Some (Z.land (Z.shiftr symbol i) 1))
    /\ forall j, (Z.to_nat (num_subcarriers params) <= j)%nat ->
         nth_error (transmitting w1) j = nth_error (transmitting w) j.
Proof.
  unfold MAX_SUBCARRIERS in subcarriers_fit. intros Hw.
  destruct (for_up_stores
              (fun i => store_transmitting i (Z.land (Z.shiftr symbol i) 1) ;;
                        v <- load_transmitting i ;;
                        emit (EvStdout (MsgBit v)))
              (fun i => Z.land (Z.shiftr symbol i) 1)
              (Z.to_nat (Z.min (num_subcarriers params) 8)) 0 w)
    as (w1 & Hrun1 & Hw1 & Hin1 & Hout1); [lia|lia|exact Hw| |].
  { intros i wa Hi Hwa.
    destruct (store_transmitting_spec i (Z.land (Z.shiftr symbol i) 1) wa)
      as (wb & Hrunb & Hwb & Hset & Hoth); [lia|exact Hwa|].
    unfold bind at 1. rewrite Hrunb.
    unfold bind, load_transmitting.
    destruct (Z.ltb_spec i 0); [lia|]. rewrite Hset.
    eexists. split; [reflexivity|]. cbn [record transmitting].
    split; [exact Hwb|]. split; [exact Hset|exact Hoth]. }
  exists w1. split; [exact Hrun1|]. split; [exact Hw1|]. split.
  - intros i Hi. apply Hin1. lia.
  - intros j Hj. apply Hout1. right. cbn. lia.
Qed.

(** The loop that switches the subcarriers off. *)
Lemma clear_subcarriers_stores w :
  length (transmitting w) = 8%nat ->
  exists w3,
    for_up (Z.to_nat (num_subcarriers params)) 0
      (fun i => store_transmitting i 0) w
    = Some (tt, w3)
    /\ length (transmitting w3) = 8%nat
    /\ (forall i, (i < Z.to_nat (num_subcarriers params))%nat ->
          nth_error (transmitting w3) i = Some 0)
    /\ forall j, (Z.to_nat (num_subcarriers params) <= j)%nat ->
         nth_error (transmitting w3) j = nth_error (transmitting w) j.
Proof.
  unfold MAX_SUBCARRIERS in subcarriers_fit. intros Hw.
  destruct (for_up_stores (fun i => store_transmitting i 0) (fun _ => 0)
              (Z.to_nat (num_subcarriers params)) 0 w)
    as (w3 & Hrun3 & Hw3 & Hin3 & Hout3); [lia|lia|exact Hw| |].
  { intros i wa Hi Hwa. apply store_transmitting_spec; [lia|exact Hwa]. }
  exists w3. split; [exact Hrun3|]. split; [exact Hw3|]. split.
  - intros i Hi. rewrite <- (Nat2Z.id i). apply Hin3. lia.
  - intros j Hj. apply Hout3. right. cbn. lia.
Qed.

Lemma transmit_ofdm_symbol_switches_off carriers symbol :
  carriers_ready carriers ->
  switches_off (Z.to_nat (num_subcarriers params))
    (transmit_ofdm_symbol symbol params carriers).
Proof.
  intros [(carrier & Hfirst & Hsync) Hall] w Hw.
  unfold transmit_ofdm_symbol. rewrite Hfirst, Hsync.
  unfold bind at 1. cbn [emit act].
  destruct (key_subcarriers_stores symbol
              (record (EvStdout (MsgSymbol symbol)) w) Hw)
    as (w1 & Hrun1 & Hw1 & _ & Hout1).
  unfold bind at 1. rewrite Hrun1.
  do 2 (unfold bind at 1; cbn [emit act]).
  unfold bind at 1. rewrite release_workers_returns by assumption.
  unfold bind at 1. cbn [emit act].
  match goal with
  | |- exists w', bind _ _ ?w2 = _ /\ _ =>
      destruct (clear_subcarriers_stores w2 Hw1)
        as (w3 & Hrun3 & Hw3 & Hin3 & Hout3)
  end.
  unfold bind at 1. rewrite Hrun3.
  eexists. split; [reflexivity|]. cbn [record transmitting].
  split; [exact Hw3|]. split.
  - intros i Hi. rewrite Hout3 by exact Hi.
    cbn [record transmitting]. rewrite Hout1 by exact Hi. reflexivity.
  - exact Hin3.
Qed.

(** A symbol that returns keeps the size of [transmitting], whatever the
    carriers are. *)
Lemma transmit_ofdm_symbol_length carriers symbol w u w' :
  length (transmitting w) = 8%nat ->
  transmit_ofdm_symbol symbol params carriers w = Some (u, w') ->
  length (transmitting w') = 8%nat.
Proof.
  intros Hw. unfold transmit_ofdm_symbol.
  unfold bind at 1. cbn [emit act].
  destruct (key_subcarriers_stores symbol
              (record (EvStdout (MsgSymbol symbol)) w) Hw)
    as (w1 & Hrun1 & Hw1 & _ & _).
  unfold bind at 1. rewrite Hrun1.
  unfold bind at 1. cbn [emit act]. unfold bind at 1.
  destruct (nth_error carriers 0) as [[carrier|]|];
    [|discriminate|discriminate].
  cbn [emit act]. unfold bind at 1.
  match goal with
  | |- match release_workers carriers ?w2 with _ => _ end = _ -> _ =>
      destruct (release_workers carriers w2) as [[[] w2']|] eqn:E;
        [|discriminate]; apply release_workers_state in E; subst w2'
  end.
  unfold bind at 1. cbn [emit act].
  match goal with
  | |- bind _ _ ?w2 = _ -> _ =>
      destruct (clear_subcarriers_stores w2 Hw1) as (w3 & Hrun3 & Hw3 & _)
  end.
  unfold bind at 1. rewrite Hrun3. cbn [emit act].
  intros H. injection H as _ <-. exact Hw3.
Qed.

(** A symbol that keys a subcarrier whose worker divides by zero. *)
Lemma transmit_ofdm_symbol_faults carriers symbol carrier w :
  length (transmitting w) = 8%nat ->
  In (Some carrier) carriers ->
  0 <= subcarrier_id carrier < num_subcarriers params ->
  Z.land (Z.shiftr symbol (subcarrier_id carrier)) 1 <> 0 ->
  worker_cycle (frequency carrier) = None ->
  transmit_ofdm_symbol symbol params carriers w = None.
Proof.
  intros Hw Hin Hid Hbit Hcycle. unfold transmit_ofdm_symbol.
  unfold bind at 1. cbn [emit act].
  destruct (key_subcarriers_stores symbol
              (record (EvStdout (MsgSymbol symbol)) w) Hw)
    as (w1 & Hrun1 & Hw1 & Hin1 & _).
  unfold bind at 1. rewrite Hrun1.
  unfold bind at 1. cbn [emit act]. unfold bind at 1.
  destruct (nth_error carriers 0) as [[first|]|];
    [|reflexivity|reflexivity].
  cbn [emit act]. unfold bind at 1.
  rewrite (release_workers_faults carriers _ carrier
             (Z.land (Z.shiftr symbol (subcarrier_id carrier)) 1));
    [reflexivity|exact Hin|lia| |exact Hbit|exact Hcycle].
  cbn [record transmitting]. apply Hin1. exact Hid.
Qed.

Lemma keeps_transmitting_ret : keeps_transmitting (ret tt).
Proof. intros w. exists w. split; reflexivity. Qed.

Lemma keeps_transmitting_emit e : keeps_transmitting (emit e).
Proof. intros w. eexists. split; reflexivity. Qed.

Lemma keeps_transmitting_bind c1 c2 :
  keeps_transmitting c1 -> keeps_transmitting c2 ->
  keeps_transmitting (bind c1 (fun _ => c2)).
Proof.
  intros H1 H2 w.
  destruct (H1 w) as (w1 & Hr1 & Ht1).
  destruct (H2 w1) as (w2 & Hr2 & Ht2).
  exists w2. unfold bind. rewrite Hr1. split; [exact Hr2|congruence].
Qed.

Lemma keeps_transmitting_for_up body n : forall lo,
  (forall i, lo <= i < lo + Z.of_nat n -> keeps_transmitting (body i)) ->
  keeps_transmitting (for_up n lo body).
Proof.
  induction n as [|n IH]; intros lo Hbody; cbn [for_up].
  - apply keeps_transmitting_ret.
  - apply keeps_transmitting_bind; [apply Hbody; lia|].
    apply IH. intros i Hi. apply Hbody. lia.
Qed.

Lemma keeps_outside_of_keeps n c :
  keeps_transmitting c -> keeps_outside n c.
Proof.
  intros H w Hw. destruct (H w) as (w' & Hr & Ht).
  exists w'. split; [exact Hr|]. rewrite Ht. split; [exact Hw|reflexivity].
Qed.

Lemma keeps_outside_of_switches_off n c :
  switches_off n c -> keeps_outside n c.
Proof.
  intros H w Hw. destruct (H w Hw) as (w' & Hr & Hl & Ho & _).
  exists w'. repeat split; assumption.
Qed.

Lemma keeps_outside_bind n c1 c2 :
  keeps_outside n c1 -> keeps_outside n c2 ->
  keeps_outside n (bind c1 (fun _ => c2)).
Proof.
  intros H1 H2 w Hw.
  destruct (H1 w Hw) as (w1 & Hr1 & Hw1 & Ho1).
  destruct (H2 w1 Hw1) as (w2 & Hr2 & Hw2 & Ho2).
  exists w2. unfold bind. rewrite Hr1.
  split; [exact Hr2|]. split; [exact Hw2|].
  intros i Hi. rewrite Ho2, Ho1 by exact Hi. reflexivity.
Qed.

Lemma switches_off_after n c1 c2 :
  keeps_outside n c1 -> switches_off n c2 ->
  switches_off n (bind c1 (fun _ => c2)).
Proof.
  intros H1 H2 w Hw.
  destruct (H1 w Hw) as (w1 & Hr1 & Hw1 & Ho1).
  destruct (H2 w1 Hw1) as (w2 & Hr2 & Hw2 & Ho2 & Hz2).
  exists w2. unfold bind. rewrite Hr1.
  split; [exact Hr2|]. split; [exact Hw2|]. split; [|exact Hz2].
  intros i Hi. rewrite Ho2, Ho1 by exact Hi. reflexivity.
Qed.

Lemma switches_off_then n c1 c2 :
  switches_off n c1 -> keeps_transmitting c2 ->
  switches_off n (bind c1 (fun _ => c2)).
Proof.
  intros H1 H2 w Hw.
  destruct (H1 w Hw) as (w1 & Hr1 & Hw1 & Ho1 & Hz1).
  destruct (H2 w1) as (w2 & Hr2 & Ht2).
  exists w2. unfold bind. rewrite Hr1.
  split; [exact Hr2|]. rewrite Ht2. repeat split; assumption.
Qed.

Lemma keeps_outside_for_up n body k : forall lo,
  (forall i, keeps_outside n (body i)) ->
  keeps_outside n (for_up k lo body).
Proof.
  induction k as [|k IH]; intros lo Hbody; cbn [for_up].
  - apply keeps_outside_of_keeps, keeps_transmitting_ret.
  - apply keeps_outside_bind; [apply Hbody|apply IH, Hbody].
Qed.

Lemma transmit_payload_keeps_outside carriers rest :
  carriers_ready carriers ->
  forall i data_len,
  keeps_outside (Z.to_nat (num_subcarriers params))
    (transmit_payload rest i data_len params carriers).
Proof.
  intros Hready.
  induction rest as [|b rest IH]; intros i data_len; cbn [transmit_payload].
  - apply keeps_outside_of_keeps, keeps_transmitting_ret.
  - apply keeps_outside_bind;
      [apply keeps_outside_of_keeps, keeps_transmitting_emit|].
    apply keeps_outside_bind; [|apply IH].
    apply keeps_outside_of_switches_off, transmit_ofdm_symbol_switches_off,
      Hready.
Qed.

Lemma print_ofdm_spectrum_keeps :
  keeps_transmitting (print_ofdm_spectrum params).
Proof.
  unfold print_ofdm_spectrum.
  apply keeps_transmitting_bind; [apply keeps_transmitting_emit|].
  apply keeps_transmitting_bind; [|apply keeps_transmitting_emit].
  apply keeps_transmitting_for_up. intros i _.
  apply keeps_transmitting_emit.
Qed.

Variable pf : platform.
Hypothesis some_subcarrier : 1 <= num_subcarriers params.
Hypothesis cooperate : workers_cooperate pf params.

Lemma switches_off_after_setup n
    (k : list (option subcarrier_thread_t) -> M world unit) :
  switches_off n (k (filled_carriers params (num_subcarriers params))) ->
  switches_off n (bind (setup_ofdm_carriers pf fresh_carriers params) k).
Proof.
  intros H w Hw. unfold bind.
  rewrite setup_ofdm_carriers_runs by assumption.
  exact (H (mkWorld (running w) (transmitting w)
              (log w ++ setup_log params)) Hw).
Qed.

Lemma cleanup_carriers_keeps :
  keeps_transmitting
    (cleanup_carriers pf (filled_carriers params (num_subcarriers params))
       (num_subcarriers params)).
Proof.
  unfold MAX_SUBCARRIERS in subcarriers_fit.
  unfold cleanup_carriers. apply keeps_transmitting_for_up.
  intros i Hi. rewrite nth_error_filled by lia.
  destruct (Z.ltb_spec i (num_subcarriers params)); [|lia].
  destruct (cooperate i ltac:(lia)) as (_ & -> & _).
  apply keeps_transmitting_bind; [apply keeps_transmitting_emit|].
  apply keeps_transmitting_bind;
    [apply keeps_transmitting_emit|apply keeps_transmitting_ret].
Qed.

Lemma transmit_ofdm_frame_switches_off data :
  switches_off (Z.to_nat (num_subcarriers params))
    (transmit_ofdm_frame pf data params).
Proof.
  assert (Hready : carriers_ready
                     (filled_carriers params (num_subcarriers params)))
    by (apply (filled_carriers_ready pf); assumption).
  unfold transmit_ofdm_frame. cbv zeta.
  apply switches_off_after;
    [apply keeps_outside_of_keeps, keeps_transmitting_emit|].
  apply switches_off_after;
    [apply keeps_outside_of_keeps, print_ofdm_spectrum_keeps|].
  apply switches_off_after_setup.
  apply switches_off_after;
    [apply keeps_outside_of_keeps, keeps_transmitting_emit|].
  apply switches_off_after.
  { apply keeps_outside_for_up. intros i.
    apply keeps_outside_bind; apply keeps_outside_of_switches_off,
      transmit_ofdm_symbol_switches_off, Hready. }
  apply switches_off_after;
    [apply keeps_outside_of_keeps, keeps_transmitting_emit|].
  apply switches_off_after; [apply transmit_payload_keeps_outside, Hready|].
  apply switches_off_after;
    [apply keeps_outside_of_keeps, keeps_transmitting_emit|].
  apply switches_off_after;
    [apply keeps_outside_of_switches_off, transmit_ofdm_symbol_switches_off,
       Hready|].
  apply switches_off_after;
    [apply keeps_outside_of_switches_off, transmit_ofdm_symbol_switches_off,
       Hready|].
  apply switches_off_then;
    [apply transmit_ofdm_symbol_switches_off, Hready|].
  apply keeps_transmitting_bind.
  { intros w. eexists. split; reflexivity. }
  apply keeps_transmitting_bind; [apply cleanup_carriers_keeps|].
  apply keeps_transmitting_bind; [apply keeps_transmitting_emit|].
  apply keeps_transmitting_bind; apply keeps_transmitting_emit.
Qed.

End Flags.



(** *** More subcarriers than the arrays hold *)

(** X18.  With more than [MAX_SUBCARRIERS] = 8 subcarriers
    [transmit_ofdm_frame] has no defined result: thread creation fills
    [carriers[8]], past the end of the array. *)
Theorem transmit_ofdm_frame_overruns
    (pf : platform) (data : list Z) (params : ofdm_params_t) (w : world) :
  MAX_SUBCARRIERS < num_subcarriers params ->
  transmit_ofdm_frame pf data params w = None.
Proof.
  unfold MAX_SUBCARRIERS. intros Hn.
  unfold transmit_ofdm_frame. cbv zeta.
  unfold bind at 1. cbn [emit act].
  match goal with
  | |- bind _ _ ?w0 = None =>
      destruct (print_ofdm_spectrum_keeps params w0) as (w1 & Hrun1 & _)
  end.
  unfold bind at 1. rewrite Hrun1.
  unfold bind at 1. unfold setup_ofdm_carriers.
  unfold bind at 1. cbn [emit act]. unfold bind at 1. cbn [emit act].
  unfold bind at 1.
  rewrite create_carriers_overrun by (try reflexivity; lia). reflexivity.
Qed.

Lemma transmit_ofdm_frame_overruns_witness :
  transmit_ofdm_frame (mkPlatform (fun _ => true) (fun _ => true)) [0x41]
    (mkOfdm 9 8000 200 SYMBOL_DURATION_MS) initial_world = None.
Proof.
  apply (transmit_ofdm_frame_overruns
           (mkPlatform (fun _ => true) (fun _ => true)) [0x41]
           (mkOfdm 9 8000 200 SYMBOL_DURATION_MS) initial_world).
  unfold MAX_SUBCARRIERS. simpl. lia.
Defined.

(** *** Workers that do not cooperate *)

Lemma bind_no_result {A B} (c : M world A) (k : A -> M world B) w :
  (forall a w', k a w' = None) -> bind c k w = None.
Proof.
  intros Hk. unfold bind. destruct (c w) as [[a w']|]; [apply Hk|reflexivity].
Qed.

Lemma bind_none {A B} (c : M world A) (k : A -> M world B) w :
  c w = None -> bind c k w = None.
Proof. intros Hc. unfold bind. now rewrite Hc. Qed.

Lemma for_up_no_result (body : Z -> M world unit) k : forall lo w i,
  lo <= i < lo + Z.of_nat k ->
  (forall w', body i w' = None) ->
  for_up k lo body w = None.
Proof.
  induction k as [|k IH]; intros lo w i Hi Hbody; [lia|].
  cbn [for_up]. destruct (Z.eq_dec lo i) as [->|Hne].
  - apply bind_none, Hbody.
  - apply bind_no_result. intros _ w'. apply (IH _ _ i); [lia|exact Hbody].
Qed.

Section Uncooperative.

Variable pf : platform.
Variable params : ofdm_params_t.
Hypothesis some_subcarrier : 1 <= num_subcarriers params.
Hypothesis subcarriers_fit : num_subcarriers params <= MAX_SUBCARRIERS.

(** When the setup returns, it has filled the carriers. *)
Lemma setup_ofdm_carriers_result w carriers w' :
  setup_ofdm_carriers pf fresh_carriers params w = Some (carriers, w') ->
  carriers = filled_carriers params (num_subcarriers params)
  /\ transmitting w' = transmitting w.
Proof.
  unfold MAX_SUBCARRIERS in subcarriers_fit.
  unfold setup_ofdm_carriers.
  unfold bind at 1. cbn [emit act]. unfold bind at 1. cbn [emit act].
  unfold bind at 1.
  change fresh_carriers with (filled_carriers params 0).
  rewrite create_carriers_filled by lia.
  rewrite Z.add_0_l, Z2Nat.id by lia.
  unfold bind at 1. cbn [emit act].
  match goal with
  | |- bind (if ?c then _ else _) _ _ = _ -> _ => destruct c
  end; [|discriminate].
  unfold bind, ret, emit, act, record. cbn [running transmitting log].
  intros H. injection H as <- <-. split; reflexivity.
Qed.

(** A worker that is not bound to its core never reaches the start
    barrier. *)
Lemma setup_ofdm_carriers_blocks i w :
  0 <= i < num_subcarriers params -> binds pf i = false ->
  setup_ofdm_carriers pf fresh_carriers params w = None.
Proof.
  unfold MAX_SUBCARRIERS in subcarriers_fit. intros Hi Hb.
  unfold setup_ofdm_carriers.
  unfold bind at 1. cbn [emit act]. unfold bind at 1. cbn [emit act].
  unfold bind at 1.
  change fresh_carriers with (filled_carriers params 0).
  rewrite create_carriers_filled by lia.
  rewrite Z.add_0_l, Z2Nat.id by lia.
  unfold bind at 1. cbn [emit act].
  match goal with
  | |- bind (if _ && forallb ?f ?l then _ else _) _ _ = _ =>
      destruct (forallb f l) eqn:E
  end.
  - rewrite forallb_forall in E.
    specialize (E (Some (mkCarrier i i (subcarrier_frequency params i)
                           start_barrier sync_barrier))).
    unfold worker_arrives in E. cbn [core_id] in E.
    rewrite E in Hb; [discriminate|].
    apply nth_error_In with (Z.to_nat i).
    rewrite nth_error_filled by lia.
    destruct (Z.ltb_spec i (num_subcarriers params)); [reflexivity|lia].
  - rewrite andb_false_r. reflexivity.
Qed.

(** A worker that cannot be joined. *)
Lemma cleanup_carriers_blocks carriers i w :
  0 <= i < num_subcarriers params -> joins pf i = false ->
  cleanup_carriers pf carriers (num_subcarriers params) w = None.
Proof.
  intros Hi Hj. unfold cleanup_carriers.
  apply (for_up_no_result _ _ _ _ i); [lia|].
  intros w'. destruct (nth_error carriers (Z.to_nat i)) as [[carrier|]|];
    [|reflexivity|reflexivity].
  unfold bind, emit, act. rewrite Hj. reflexivity.
Qed.

(** A worker whose tone loop divides by zero is keyed by one of the
    first two symbols of the preamble. *)
Lemma preamble_faults i w :
  length (transmitting w) = 8%nat ->
  0 <= i < num_subcarriers params ->
  worker_cycle (subcarrier_frequency params i) = None ->
  (transmit_ofdm_symbol 0xAA params
     (filled_carriers params (num_subcarriers params)) ;;
   transmit_ofdm_symbol 0x55 params
     (filled_carriers params (num_subcarriers params))) w = None.
Proof.
  unfold MAX_SUBCARRIERS in subcarriers_fit. intros Hw Hi Hcycle.
  assert (Hbits : Z.land (Z.shiftr 0xAA i) 1 <> 0
                  \/ Z.land (Z.shiftr 0x55 i) 1 <> 0).
  { clear Hcycle. enumerate i 8%nat;
      (left; vm_compute; discriminate) || (right; vm_compute; discriminate). }
  assert (Hin : In (Some (mkCarrier i i (subcarrier_frequency params i)
                            start_barrier sync_barrier))
                  (filled_carriers params (num_subcarriers params))).
  { apply nth_error_In with (Z.to_nat i).
    rewrite nth_error_filled by lia.
    destruct (Z.ltb_spec i (num_subcarriers params)); [reflexivity|lia]. }
  destruct Hbits as [Hbit|Hbit].
  - apply bind_none.
    apply (transmit_ofdm_symbol_faults params subcarriers_fit _ _ _ w Hw Hin);
      [exact Hi|exact Hbit|exact Hcycle].
  - unfold bind.
    destruct (transmit_ofdm_symbol 0xAA params _ w) as [[u w1]|] eqn:E;
      [|reflexivity].
    apply (transmit_ofdm_symbol_length params subcarriers_fit) in E;
      [|exact Hw].
    apply (transmit_ofdm_symbol_faults params subcarriers_fit _ _ _ w1 E Hin);
      [exact Hi|exact Hbit|exact Hcycle].
Qed.

(** Without the cooperation of one worker the frame has no result. *)
Lemma transmit_ofdm_frame_no_result data i w :
  length (transmitting w) = 8%nat ->
  0 <= i < num_subcarriers params ->
  binds pf i = false \/ joins pf i = false
  \/ worker_cycle (subcarrier_frequency params i) = None ->
  transmit_ofdm_frame pf data params w = None.
Proof.
  intros Hw Hi [Hb|[Hj|Hcycle]]; unfold transmit_ofdm_frame; cbv zeta.
  - do 2 (apply bind_no_result; intros ? ?).
    apply bind_none. now apply (setup_ofdm_carriers_blocks i).
  - do 12 (apply bind_no_result; intros ? ?).
    apply bind_none. now apply (cleanup_carriers_blocks _ i).
  - unfold bind at 1. cbn [emit act].
    match goal with
    | |- bind _ _ ?w0 = None =>
        destruct (print_ofdm_spectrum_keeps params w0) as (w1 & Hrun1 & Ht1)
    end.
    unfold bind at 1. rewrite Hrun1. unfold bind at 1.
    destruct (setup_ofdm_carriers pf fresh_carriers params w1)
      as [[carriers w2]|] eqn:E; [|reflexivity].
    apply setup_ofdm_carriers_result in E. destruct E as [-> Ht2].
    unfold bind at 1. cbn [emit act].
    apply bind_none. cbn [for_up]. apply bind_none.
    apply (preamble_faults i); [|exact Hi|exact Hcycle].
    cbn [record transmitting]. rewrite Ht2, Ht1. exact Hw.
Qed.

End Uncooperative.

(** Without a subcarrier the first symbol waits at a barrier that
    [carriers[0]], never written, does not point to. *)
Lemma transmit_ofdm_frame_without_subcarriers pf data params w :
  num_subcarriers params <= 0 ->
  transmit_ofdm_frame pf data params w = None.
Proof.
  intros Hn. unfold transmit_ofdm_frame. cbv zeta.
  do 2 (apply bind_no_result; intros ? ?).
  unfold bind at 1.
  destruct (setup_ofdm_carriers pf fresh_carriers params _)
    as [[carriers w2]|] eqn:E; [|reflexivity].
  assert (Hfresh : carriers = fresh_carriers).
  { revert E. unfold setup_ofdm_carriers.
    replace (Z.to_nat (num_subcarriers params)) with 0%nat by lia.
    cbn [create_carriers].
    unfold bind at 1. cbn [emit act]. unfold bind at 1. cbn [emit act].
    unfold bind at 1. cbn [ret]. unfold bind at 1. cbn [emit act].
    match goal with
    | |- bind (if ?c then _ else _) _ _ = _ -> _ => destruct c
    end; [|discriminate].
    unfold bind, ret, emit, act.
    intros H. injection H as <- _. reflexivity. }
  subst carriers.
  apply bind_no_result. intros _ w3.
  apply bind_none. cbn [for_up]. do 2 apply bind_none.
  unfold transmit_ofdm_symbol.
  replace (Z.to_nat (Z.min (num_subcarriers params) 8)) with 0%nat by lia.
  reflexivity.
Qed.

(** *** Command line *)

Import OfdmMain.

Lemma ofdm_accepts_alt argv :
  ofdm_accepts argv
  = (let argc := Z.of_nat (length argv) in
     let arg (i : nat) := nth i argv EmptyString in
     (argc =? 5)
     && ((1 <=? Tone.atoi (arg 3%nat))
         && (Tone.atoi (arg 3%nat) <=? MAX_SUBCARRIERS)
         && (20 <=? Tone.atoi (arg 1%nat))
         && (Tone.atoi (arg 1%nat) <=? 24000))).
Proof.
  destruct argv as [|a0 [|a1 [|a2 [|a3 [|a4 [|a5 rest]]]]]];
    unfold ofdm_accepts; cbv zeta; cbn [length nth]; try reflexivity.
  replace (Z.of_nat (S (S (S (S (S (S (length rest))))))) =? 5)
    with false by (symmetry; apply Z.eqb_neq; lia).
  reflexivity.
Qed.



(** A base frequency at the upper bound with eight subcarriers is
    accepted although the top subcarrier is at 31000 Hz. *)
Example ofdm_accepts_high_subcarriers :
  ofdm_accepts ["ofdm"; "24000"; "1000"; "8"; "X"]%string = true
  /\ subcarrier_frequency (mkOfdm 8 24000 1000 SYMBOL_DURATION_MS) 7 = 31000.
Proof. split; reflexivity. Qed.

End OfdmState.


(** ** WAV files *)

Section WavFiles.

Import WavPlayer.

Lemma s16_is_int16 x : is_int16 (s16 x).
Proof.
  unfold is_int16, s16.
  pose proof (Z.mod_pos_bound (x + 32768) 65536 ltac:(lia)). lia.
Qed.

Lemma s16_small x : is_int16 x -> s16 x = x.
Proof. unfold is_int16, s16. intros H. rewrite Z.mod_small; lia. Qed.

Lemma Forall_first {A} (P : A -> Prop) l : forall n,
  Forall P l -> Forall P (firstn n l).
Proof.
  intros n H. revert n.
  induction H as [|x l Hx _ IH]; intros [|n]; simpl; constructor; auto.
Qed.

Lemma Forall_skip {A} (P : A -> Prop) n : forall l,
  Forall P l -> Forall P (skipn n l).
Proof.
  induction n as [|n IH]; intros l H; simpl; [exact H|].
  destruct H; [constructor|apply IH; assumption].
Qed.

Lemma Forall_firstn_skipn {A} (P : A -> Prop) l n m :
  Forall P l -> Forall P (firstn n (skipn m l)).
Proof. intros H. apply Forall_first, Forall_skip, H. Qed.

Lemma samples_of_bytes_spec n : forall bytes,
  (2 * n <= length bytes)%nat ->
  length (samples_of_bytes n bytes) = n
  /\ Forall is_int16 (samples_of_bytes n bytes)
  /\ forall i, (i < n)%nat ->
       nth i (samples_of_bytes n bytes) 0
       = s16 (nth (2 * i) bytes 0 + 256 * nth (2 * i + 1) bytes 0).
Proof.
  induction n as [|n IH]; intros bytes Hlen.
  - repeat split; [constructor|intros i Hi; lia].
  - destruct bytes as [|b0 [|b1 rest]]; simpl in Hlen; try lia.
    destruct (IH rest ltac:(lia)) as (Hl & Hall & Hnth).
    cbn [samples_of_bytes]. split; [simpl; now rewrite Hl|].
    split; [constructor; [apply s16_is_int16|exact Hall]|].
    intros [|i] Hi; [reflexivity|].
    cbn [nth]. rewrite Hnth by lia.
    replace (2 * S i)%nat with (S (S (2 * i))) by lia.
    replace (S (S (2 * i)) + 1)%nat with (S (S (2 * i + 1))) by lia.
    reflexivity.
Qed.

(** X20.  Outcome of [load_wav_file] on an existing file: either it
    returns -1, hands back no samples and has printed a message, or it
    has printed nothing and returns the number of samples it hands back,
    [data_size / 2] of a header with format tag 1, 16 bits per sample and
    a non-empty data chunk that the file fully contains; sample [i] is
    the two's complement value of bytes [44 + 2i] (low) and [45 + 2i]
    (high).  A file shorter than the 44-byte header is refused. *)
Theorem load_wav_file_outcome
    (fs : string -> option (list Z)) (malloc_ok : bool) (filename : string)
    (bytes : list Z) :
  fs filename = Some bytes -> Forall is_byte bytes ->
  let l := load_wav_file fs malloc_ok filename in
  ((length bytes < 44)%nat -> ret_value l = -1)
  /\ ((ret_value l = -1 /\ samples_read l = None /\ complaint l <> None)
      \/ exists header samples,
           complaint l = None
           /\ header_read l = Some header
           /\ samples_read l = Some samples
           /\ ret_value l = Z.of_nat (length samples)
           /\ ret_value l = data_size header / 2
           /\ Forall is_int16 samples
           /\ format header = 1 /\ bits_per_sample header = 16
           /\ malloc_ok = true
           /\ 0 < data_size header
           /\ 44 + data_size header <= Z.of_nat (length bytes)
           /\ forall i, (i < length samples)%nat ->
                nth i samples 0
                = s16 (nth (44 + 2 * i) bytes 0
                       + 256 * nth (44 + 2 * i + 1) bytes 0)).
Proof.
  intros Hfs Hbytes l. unfold l, load_wav_file. rewrite Hfs.
  destruct (Nat.ltb_spec (length bytes) 44) as [Hshort|Hlong].
  { split; [reflexivity|]. left. repeat split. discriminate. }
  split; [intros; lia|].
  set (header := read_header bytes).
  destruct (bytes_eqb (riff header) [82; 73; 70; 70]); cbn [negb orb];
    [|left; repeat split; discriminate].
  destruct (bytes_eqb (wave header) [87; 65; 86; 69]); cbn [negb];
    [|left; repeat split; discriminate].
  destruct (Z.eqb_spec (format header) 1) as [Hfmt|_]; cbn [negb];
    [|left; repeat split; discriminate].
  destruct (Z.eqb_spec (bits_per_sample header) 16) as [Hbits|_];
    cbn [negb]; [|left; repeat split; discriminate].
  destruct malloc_ok; cbn [negb]; [|left; repeat split; discriminate].
  destruct (Z.eqb_spec (data_size header) 0) as [|Hnz]; cbn [orb];
    [left; repeat split; discriminate|].
  destruct (Z.ltb_spec (Z.of_nat (length (skipn 44 bytes)))
              (data_size header)) as [|Hfit];
    [left; repeat split; discriminate|].
  right.
  assert (Hds : 0 <= data_size header).
  { unfold header, read_header. cbn [data_size].
    unfold le_value, bytes_at.
    assert (Hsub : Forall is_byte (firstn 4 (skipn 40 bytes)))
      by (apply Forall_firstn_skipn, Hbytes).
    induction Hsub as [|b bs Hb _ IH]; cbn [fold_right]; [lia|].
    unfold is_byte in Hb. lia. }
  rewrite length_skipn in Hfit.
  destruct (samples_of_bytes_spec
              (Z.to_nat (Z.quot (data_size header) 2)) (skipn 44 bytes))
    as (Hl & Hall & Hnth).
  { rewrite length_skipn. rewrite Z.quot_div_nonneg by lia.
    pose proof (Z.mul_div_le (data_size header) 2 ltac:(lia)).
    assert (0 <= data_size header / 2) by (apply Z.div_pos; lia). lia. }
  exists header, (samples_of_bytes
                    (Z.to_nat (Z.quot (data_size header) 2))
                    (skipn 44 bytes)).
  cbn [complaint header_read samples_read ret_value].
  rewrite Hl. rewrite Z.quot_div_nonneg in * by lia.
  assert (0 <= data_size header / 2) by (apply Z.div_pos; lia).
  repeat split; try assumption; try lia.
  intros i Hi. rewrite Hnth by exact Hi.
  rewrite !nth_skipn. reflexivity.
Qed.

Lemma load_wav_file_outcome_witness :
  let bytes :=
    [82; 73; 70; 70; 40; 0; 0; 0; 87; 65; 86; 69; 102; 109; 116; 32;
     16; 0; 0; 0; 1; 0; 1; 0; 64; 31; 0; 0; 128; 62; 0; 0; 2; 0; 16; 0;
     100; 97; 116; 97; 4; 0; 0; 0; 255; 127; 0; 128] in
  let l := load_wav_file (fun _ => Some bytes) true "tone.wav" in
  ret_value l = -1
  \/ exists samples,
       samples_read l = Some samples
       /\ ret_value l = Z.of_nat (length samples)
       /\ nth 1 samples 0 = s16 (nth 46 bytes 0 + 256 * nth 47 bytes 0).
Proof.
  intros bytes l.
  assert (Hbytes : Forall is_byte bytes).
  { unfold bytes, is_byte. repeat (constructor; [lia|]). constructor. }
  destruct (load_wav_file_outcome (fun _ => Some bytes) true "tone.wav"
              bytes eq_refl Hbytes)
    as [_ [(Hret & _)|(header & samples & _ & _ & Hs & Hret & Hds & _ & _
                      & _ & _ & Hpos & _ & Hnth)]].
  - left. exact Hret.
  - right. exists samples. split; [exact Hs|]. split; [exact Hret|].
    apply (Hnth 1%nat).
    fold l in Hs. vm_compute in Hs. injection Hs as <-.
    simpl. lia.
Defined.

(** Lists of a known length, element by element. *)
Ltac explode_lists :=
  repeat match goal with
  | H : length ?l = S _ |- _ =>
      destruct l; [discriminate H|]; simpl in H; injection H as H
  | H : length ?l = O |- _ =>
      destruct l; [clear H|discriminate H]
  end.

(** X21.  [load_wav_file] never looks at the chunk identifiers: two
    files that differ only in bytes 12..15 (the "fmt " tag) and 36..39
    (the "data" tag) give the same return value, samples and message. *)
Theorem load_wav_file_ignores_chunk_tags
    (fs fs' : string -> option (list Z)) (malloc_ok : bool)
    (filename : string) (p1 t1 t1' mid t2 t2' rest : list Z) :
  length p1 = 12%nat -> length t1 = 4%nat -> length t1' = 4%nat ->
  length mid = 20%nat -> length t2 = 4%nat -> length t2' = 4%nat ->
  fs filename = Some (p1 ++ t1 ++ mid ++ t2 ++ rest) ->
  fs' filename = Some (p1 ++ t1' ++ mid ++ t2' ++ rest) ->
  let l := load_wav_file fs malloc_ok filename in
  let l' := load_wav_file fs' malloc_ok filename in
  ret_value l = ret_value l'
  /\ samples_read l = samples_read l'
  /\ complaint l = complaint l'.
Proof.
  intros H1 H2 H3 H4 H5 H6 Hfs Hfs' l l'. unfold l, l', load_wav_file.
  rewrite Hfs, Hfs'. clear Hfs Hfs' l l'.
  explode_lists.
  cbn [app length Nat.ltb Nat.leb].
  unfold read_header, bytes_at.
  cbn [skipn firstn riff wave format bits_per_sample data_size].
  repeat match goal with
  | |- context [if ?c then _ else _] => destruct c
  end; repeat split.
Qed.

Lemma load_wav_file_ignores_chunk_tags_witness :
  let head := [82; 73; 70; 70; 40; 0; 0; 0; 87; 65; 86; 69] in
  let mid := [16; 0; 0; 0; 1; 0; 1; 0; 64; 31; 0; 0; 128; 62; 0; 0;
              2; 0; 16; 0] in
  let rest := [4; 0; 0; 0; 255; 127; 0; 128] in
  ret_value
    (load_wav_file
       (fun _ => Some (head ++ [102; 109; 116; 32] ++ mid
                       ++ [100; 97; 116; 97] ++ rest)) true "a.wav")
  = ret_value
      (load_wav_file
         (fun _ => Some (head ++ [76; 73; 83; 84] ++ mid
                         ++ [0; 0; 0; 0] ++ rest)) true "a.wav").
Proof.
  intros head mid rest.
  apply (load_wav_file_ignores_chunk_tags
           (fun _ => Some (head ++ [102; 109; 116; 32] ++ mid
                           ++ [100; 97; 116; 97] ++ rest))
           (fun _ => Some (head ++ [76; 73; 83; 84] ++ mid
                           ++ [0; 0; 0; 0] ++ rest))
           true "a.wav" head [102; 109; 116; 32] [76; 73; 83; 84] mid
           [100; 97; 116; 97] [0; 0; 0; 0] rest); reflexivity.
Defined.

(** *** Stereo to mono *)

Lemma store_sample_length samples : forall i v,
  length (store_sample samples i v) = length samples.
Proof.
  induction samples as [|x rest IH]; intros [|i] v; simpl;
    try reflexivity. now rewrite IH.
Qed.

Lemma store_sample_nth samples : forall i v j,
  (i < length samples)%nat ->
  nth j (store_sample samples i v) 0
  = if Nat.eqb j i then v else nth j samples 0.
Proof.
  induction samples as [|x rest IH]; intros i v j Hi; simpl in Hi; [lia|].
  destruct i as [|i]; destruct j as [|j]; simpl; try reflexivity.
  apply IH. lia.
Qed.

(** The invariant of the in-place loop: the part already written holds
    the averages of the original frames, the rest is still original. *)
Lemma stereo_to_mono_from_spec original n : forall i samples,
  (2 * (i + n) <= length original)%nat ->
  length samples = length original ->
  (forall j, (j < i)%nat ->
     nth j samples 0
     = s16 (Z.quot (nth (2 * j) original 0 + nth (2 * j + 1) original 0) 2)) ->
  (forall j, (i <= j)%nat -> nth j samples 0 = nth j original 0) ->
  let result := stereo_to_mono_from n i samples in
  length result = length original
  /\ (forall j, (j < i + n)%nat ->
        nth j result 0
        = s16 (Z.quot (nth (2 * j) original 0 + nth (2 * j + 1) original 0)
                 2))
  /\ (forall j, (i + n <= j)%nat -> nth j result 0 = nth j original 0).
Proof.
  induction n as [|n IH]; intros i samples Hfit Hlen Hdone Hrest result.
  - unfold result. cbn [stereo_to_mono_from].
    rewrite Nat.add_0_r. repeat split; assumption.
  - unfold result. cbn [stereo_to_mono_from].
    replace (i + S n)%nat with (S i + n)%nat in * by lia.
    apply IH.
    + lia.
    + now rewrite store_sample_length.
    + intros j Hj. rewrite store_sample_nth by lia.
      destruct (Nat.eqb_spec j i) as [->|Hne].
      * rewrite !Hrest by lia.
        replace (i * 2)%nat with (2 * i)%nat by lia. reflexivity.
      * apply Hdone. lia.
    + intros j Hj. rewrite store_sample_nth by lia.
      destruct (Nat.eqb_spec j i); [lia|]. apply Hrest. lia.
Qed.

(** X22.  The in-place stereo-to-mono conversion of [main]: for a buffer
    of [num_samples] 16-bit samples, entry [j] of the result is the
    truncated mean of the original left and right samples of frame [j],
    it lies between them, the new sample count is [num_samples / 2], and
    the entries from there on are untouched. *)
Theorem stereo_to_mono_averages (samples : list Z) (j : nat) :
  Forall is_int16 samples ->
  (2 * j + 1 < length samples)%nat ->
  let num_samples := Z.of_nat (length samples) in
  let '(mono, count) := stereo_to_mono samples num_samples in
  let left := nth (2 * j) samples 0 in
  let right := nth (2 * j + 1) samples 0 in
  count = num_samples / 2
  /\ length mono = length samples
  /\ nth j mono 0 = Z.quot (left + right) 2
  /\ Z.min left right <= nth j mono 0 <= Z.max left right
  /\ (forall k, (Z.to_nat count <= k)%nat -> nth k mono 0 = nth k samples 0).
Proof.
  intros Hall Hj num_samples. unfold stereo_to_mono. cbv zeta.
  unfold num_samples. rewrite Z.quot_div_nonneg by lia.
  assert (Hhalf : Z.to_nat (Z.of_nat (length samples) / 2)
                  = (length samples / 2)%nat).
  { change 2 with (Z.of_nat 2). rewrite <- Nat2Z.inj_div.
    apply Nat2Z.id. }
  rewrite Hhalf.
  pose proof (Nat.div_mod_eq (length samples) 2) as Hdm.
  pose proof (Nat.mod_upper_bound (length samples) 2 ltac:(lia)) as Hm.
  destruct (stereo_to_mono_from_spec samples (length samples / 2) 0 samples)
    as (Hlen & Hin & Hout); try lia; try reflexivity.
  cbn [Nat.add] in Hin, Hout.
  split; [reflexivity|]. split; [exact Hlen|].
  assert (Hl : is_int16 (nth (2 * j) samples 0)).
  { rewrite Forall_forall in Hall. apply Hall, nth_In. lia. }
  assert (Hr : is_int16 (nth (2 * j + 1) samples 0)).
  { rewrite Forall_forall in Hall. apply Hall, nth_In. lia. }
  unfold is_int16 in Hl, Hr.
  assert (Hq : Z.min (nth (2 * j) samples 0) (nth (2 * j + 1) samples 0)
               <= Z.quot (nth (2 * j) samples 0
                          + nth (2 * j + 1) samples 0) 2
               <= Z.max (nth (2 * j) samples 0) (nth (2 * j + 1) samples 0)).
  { set (a := nth (2 * j) samples 0) in *.
    set (b := nth (2 * j + 1) samples 0) in *.
    clearbody a b. Z.to_euclidean_division_equations. lia. }
  rewrite Hin by lia. rewrite s16_small by (unfold is_int16; lia).
  split; [reflexivity|]. split; [exact Hq|].
  intros k Hk. apply Hout. exact Hk.
Qed.

Lemma stereo_to_mono_averages_witness :
  let '(mono, count) := stereo_to_mono [100; 201; -7; -8; 5] 5 in
  count = 2
  /\ nth 1 mono 0 = Z.quot (-7 + -8) 2
  /\ nth 4 mono 0 = 5.
Proof.
  assert (Hall : Forall is_int16 [100; 201; -7; -8; 5])
    by (unfold is_int16; repeat (constructor; [lia|]); constructor).
  pose proof (stereo_to_mono_averages [100; 201; -7; -8; 5] 1 Hall
                ltac:(simpl; lia)) as H.
  cbv zeta in H. cbn [length Z.of_nat Pos.of_succ_nat Pos.succ] in H.
  destruct (stereo_to_mono [100; 201; -7; -8; 5] 5) as [mono count].
  destruct H as (Hc & _ & Hn & _ & Hk).
  split; [exact Hc|]. split; [exact Hn|].
  apply (Hk 4%nat). rewrite Hc. simpl. lia.
Defined.

End WavFiles.

(** ** The playback controller (wav_player.c) *)

Section WavPlayback.

Import WavPlayer.
Local Open Scope ctl_scope.

Lemma plays_ret : plays (ret tt) [] 0.
Proof.
  intros w Hw. exists w. split; [reflexivity|].
  rewrite app_nil_r, Z.add_0_r. repeat split.
Qed.

Lemma plays_bind c1 c2 e1 e2 d1 d2 :
  plays c1 e1 d1 -> plays c2 e2 d2 ->
  plays (bind c1 (fun _ => c2)) (e1 ++ e2) (d1 + d2).
Proof.
  intros H1 H2 w Hw.
  destruct (H1 w Hw) as (w1 & Hr1 & Hrun1 & Hnow1 & Hlog1).
  destruct (H2 w1) as (w2 & Hr2 & Hrun2 & Hnow2 & Hlog2); [congruence|].
  exists w2. unfold bind. rewrite Hr1.
  split; [exact Hr2|]. split; [congruence|].
  split; [lia|]. now rewrite Hlog2, Hlog1, app_assoc.
Qed.

Lemma plays_emit e : plays (emit e) [e] 0.
Proof.
  intros w Hw. eexists. split; [reflexivity|].
  destruct w as [r t l]. cbn. rewrite Z.add_0_r. repeat split.
Qed.

Lemma plays_eq c e e' d d' :
  plays c e d -> e = e' -> d = d' -> plays c e' d'.
Proof. now intros H <- <-. Qed.

Lemma plays_for_up body (evs : Z -> list event) n :
  forall lo,
  (forall i, lo <= i < lo + Z.of_nat n -> plays (body i) (evs i) 0) ->
  plays (for_up n lo body) (flat_map evs (count_from n lo)) 0.
Proof.
  induction n as [|n IH]; intros lo Hbody; cbn [for_up count_from flat_map].
  - apply plays_ret.
  - apply (plays_bind _ _ _ _ 0 0); [apply Hbody; lia|].
    apply IH. intros i Hi. apply Hbody. lia.
Qed.

Lemma plays_nanosleep nsec :
  0 <= nsec <= 999999999 -> plays (nanosleep nsec) [EvNanosleep nsec] nsec.
Proof.
  intros Hn w Hw. unfold nanosleep.
  destruct (Z.leb_spec 0 nsec); [|lia].
  destruct (Z.leb_spec nsec 999999999); [|lia].
  eexists. split; [reflexivity|]. destruct w as [r t l]. cbn.
  repeat split.
Qed.

Lemma plays_progress i num_samples sample_rate :
  Z.quot sample_rate 10 <> 0 ->
  plays (progress i num_samples sample_rate)
    (if Z.rem i (Z.quot sample_rate 10) =? 0
     then [EvStdout (MsgProgress (Z.quot (s32 (i * 100)) num_samples))]
     else []) 0.
Proof.
  intros Hq. unfold progress.
  destruct (Z.eqb_spec (Z.quot sample_rate 10) 0); [contradiction|].
  destruct (Z.rem i (Z.quot sample_rate 10) =? 0).
  - apply plays_emit.
  - apply plays_ret.
Qed.

(** The sample loop runs to the end of the buffer while [running] stays
    set, one [body] per sample. *)
Lemma plays_play_samples body (per_sample : Z -> Z -> list event) dt rest :
  (forall i sample, plays (body i sample) (per_sample i sample) dt) ->
  forall i,
  plays (play_samples rest i body) (samples_log per_sample rest i)
    (Z.of_nat (length rest) * dt).
Proof.
  intros Hbody. induction rest as [|sample rest IH]; intros i.
  - apply plays_ret.
  - intros w Hw. cbn [play_samples].
    unfold bind at 1, gets.
    destruct (Z.eqb_spec (running w) 0) as [E|_]; [contradiction|].
    refine (plays_eq _ _ _ _ _ (plays_bind _ _ _ _ _ _ (Hbody i sample)
                                   (IH (i + 1))) _ _ w Hw).
    + reflexivity.
    + cbn [length]. lia.
Qed.

(** A loop of stores or calls runs whatever [running] is. *)
Lemma for_up_emits (evs : Z -> list event) body n :
  (forall i w, body i w
               = Some (tt, mkWorld (running w) (now w) (log w ++ evs i))) ->
  forall lo w,
  for_up n lo body w
  = Some (tt, mkWorld (running w) (now w)
                (log w ++ flat_map evs (count_from n lo))).
Proof.
  intros Hbody. induction n as [|n IH]; intros lo w;
    cbn [for_up count_from flat_map].
  - destruct w as [r t l]. cbn. now rewrite app_nil_r.
  - unfold bind. rewrite Hbody, IH. cbn. now rewrite app_assoc.
Qed.

Lemma create_workers_plays modulation frequency num_cores :
  0 <= num_cores <= MAX_CORES ->
  plays (create_workers modulation frequency num_cores)
    (flat_map
       (fun i =>
          match modulation with
          | MOD_AM => [EvActive i 0]
          | MOD_PWM => [EvActive i 1; EvDutyCycle i None]
          end ++ [EvThreadCreate modulation i frequency])
       (count_from (Z.to_nat num_cores) 0)) 0.
Proof.
  intros Hn. unfold create_workers. apply plays_for_up. intros i Hi.
  destruct (Z.ltb_spec i MAX_CORES); [|lia].
  destruct modulation.
  - apply (plays_bind _ _ [_] [_] 0 0); [apply plays_emit|].
    apply (plays_bind _ _ [] [_] 0 0); [apply plays_ret|apply plays_emit].
  - apply (plays_bind _ _ [_] [_; _] 0 0); [apply plays_emit|].
    apply (plays_bind _ _ [_] [_] 0 0); apply plays_emit.
Qed.

Lemma stop_workers_log num_cores w :
  stop_workers num_cores w
  = Some (tt, mkWorld 0 (now w)
                (log w ++ flat_map (fun i => [EvThreadCancel i; EvThreadJoin i])
                            (count_from (Z.to_nat num_cores) 0))).
Proof.
  unfold stop_workers, bind at 1, act.
  rewrite (for_up_emits (fun i => [EvThreadCancel i; EvThreadJoin i])).
  - reflexivity.
  - intros i [r t l]. unfold bind, emit, act, record.
    cbn [running now log]. now rewrite <- app_assoc.
Qed.

Lemma am_sample_plays num_samples sample_rate num_cores i sample :
  10 <= sample_rate ->
  plays
    (emit EvMutexLock ;;
     for_up (Z.to_nat num_cores) 0 (fun j =>
       emit (EvActive j
               (if j <? sample_to_cores sample num_cores then 1 else 0))) ;;
     emit EvMutexUnlock ;;
     progress i num_samples sample_rate ;;
     nanosleep (Z.quot 1000000000 sample_rate))
    (am_sample_log num_samples sample_rate num_cores i sample)
    (Z.quot 1000000000 sample_rate).
Proof.
  intros Hrate. unfold am_sample_log.
  assert (Hq : Z.quot sample_rate 10 <> 0).
  { rewrite Z.quot_div_nonneg by lia.
    pose proof (Z.div_le_mono 10 sample_rate 10 ltac:(lia) Hrate) as H.
    change (10 / 10) with 1 in H. lia. }
  assert (Hp : 0 <= Z.quot 1000000000 sample_rate <= 999999999).
  { rewrite Z.quot_div_nonneg by lia. split; [apply Z.div_pos; lia|].
    pose proof (Z.div_le_upper_bound 1000000000 sample_rate 999999999). nia. }
  refine (plays_eq _ _ _ _ _
            (plays_bind _ _ _ _ 0 _ (plays_emit _)
               (plays_bind _ _ _ _ 0 _ (plays_for_up _ _ _ _ _)
                  (plays_bind _ _ _ _ 0 _ (plays_emit _)
                     (plays_bind _ _ _ _ 0 _ (plays_progress _ _ _ Hq)
                        (plays_nanosleep _ Hp))))) _ _).
  - intros j _. apply plays_emit.
  - rewrite flat_map_singleton. reflexivity.
  - reflexivity.
Qed.

Lemma pwm_sample_plays num_samples sample_rate num_cores i sample :
  10 <= sample_rate ->
  plays
    (emit EvMutexLock ;;
     for_up (Z.to_nat num_cores) 0 (fun j =>
       emit (EvDutyCycle j (Some sample))) ;;
     emit EvMutexUnlock ;;
     progress i num_samples sample_rate ;;
     nanosleep (Z.quot 1000000000 sample_rate))
    (pwm_sample_log num_samples sample_rate num_cores i sample)
    (Z.quot 1000000000 sample_rate).
Proof.
  intros Hrate. unfold pwm_sample_log.
  assert (Hq : Z.quot sample_rate 10 <> 0).
  { rewrite Z.quot_div_nonneg by lia.
    pose proof (Z.div_le_mono 10 sample_rate 10 ltac:(lia) Hrate) as H.
    change (10 / 10) with 1 in H. lia. }
  assert (Hp : 0 <= Z.quot 1000000000 sample_rate <= 999999999).
  { rewrite Z.quot_div_nonneg by lia. split; [apply Z.div_pos; lia|].
    pose proof (Z.div_le_upper_bound 1000000000 sample_rate 999999999). nia. }
  refine (plays_eq _ _ _ _ _
            (plays_bind _ _ _ _ 0 _ (plays_emit _)
               (plays_bind _ _ _ _ 0 _ (plays_for_up _ _ _ _ _)
                  (plays_bind _ _ _ _ 0 _ (plays_emit _)
                     (plays_bind _ _ _ _ 0 _ (plays_progress _ _ _ Hq)
                        (plays_nanosleep _ Hp))))) _ _).
  - intros j _. apply plays_emit.
  - rewrite flat_map_singleton. reflexivity.
  - reflexivity.
Qed.

(** Runs the first command of a sequence from the state of the goal. *)
Ltac play_step H w' :=
  let Hr := fresh "Hr" in
  let Hrun := fresh "Hrun" in
  let Hnow := fresh "Hnow" in
  let Hlog := fresh "Hlog" in
  match goal with
  | |- context [bind _ _ ?w] =>
      destruct (H w) as (w' & Hr & Hrun & Hnow & Hlog); [congruence|];
      unfold bind at 1; rewrite Hr; cbv beta iota
  end.

(** The whole log of the AM player. *)
Lemma play_wav_am_log samples sample_rate num_cores w :
  0 <= num_cores <= MAX_CORES -> 10 <= sample_rate -> running w <> 0 ->
  exists w',
    play_wav_am samples sample_rate num_cores w = Some (tt, w')
    /\ running w' = 0
    /\ now w' = now w
                + Z.of_nat (length samples) * Z.quot 1000000000 sample_rate
    /\ log w'
       = log w
         ++ [EvStdout (MsgPlayingAm num_cores)]
         ++ flat_map (fun i => [EvActive i 0; EvThreadCreate MOD_AM i 8000])
              (count_from (Z.to_nat num_cores) 0)
         ++ samples_log
              (am_sample_log (Z.of_nat (length samples)) sample_rate num_cores)
              samples 0
         ++ [EvStdout MsgProgressDone]
         ++ flat_map (fun i => [EvThreadCancel i; EvThreadJoin i])
              (count_from (Z.to_nat num_cores) 0).
Proof.
  intros Hn Hrate Hw. unfold play_wav_am.
  play_step (plays_emit (EvStdout (MsgPlayingAm num_cores))) w1.
  play_step (create_workers_plays MOD_AM 8000 num_cores Hn) w2.
  destruct (Z.eqb_spec sample_rate 0); [lia|].
  play_step (plays_play_samples _ _ _ samples
               (fun i s => am_sample_plays (Z.of_nat (length samples))
                             sample_rate num_cores i s Hrate) 0) w3.
  play_step (plays_emit (EvStdout MsgProgressDone)) w4.
  rewrite stop_workers_log. eexists. split; [reflexivity|].
  cbn [running now log]. split; [reflexivity|]. split; [lia|].
  rewrite Hlog2, Hlog1, Hlog0, Hlog. cbn [app]. now rewrite <- !app_assoc.
Qed.

Lemma play_wav_pwm_log samples sample_rate num_cores w :
  0 <= num_cores <= MAX_CORES -> 10 <= sample_rate -> running w <> 0 ->
  exists w',
    play_wav_pwm samples sample_rate num_cores w = Some (tt, w')
    /\ running w' = 0
    /\ now w' = now w
                + Z.of_nat (length samples) * Z.quot 1000000000 sample_rate
    /\ log w'
       = log w
         ++ [EvStdout (MsgPlayingPwm num_cores)]
         ++ flat_map
              (fun i => [EvActive i 1; EvDutyCycle i None;
                         EvThreadCreate MOD_PWM i sample_rate])
              (count_from (Z.to_nat num_cores) 0)
         ++ samples_log
              (pwm_sample_log (Z.of_nat (length samples)) sample_rate
                 num_cores)
              samples 0
         ++ [EvStdout MsgProgressDone]
         ++ flat_map (fun i => [EvThreadCancel i; EvThreadJoin i])
              (count_from (Z.to_nat num_cores) 0).
Proof.
  intros Hn Hrate Hw. unfold play_wav_pwm.
  play_step (plays_emit (EvStdout (MsgPlayingPwm num_cores))) w1.
  play_step (create_workers_plays MOD_PWM sample_rate num_cores Hn) w2.
  destruct (Z.eqb_spec sample_rate 0); [lia|].
  play_step (plays_play_samples _ _ _ samples
               (fun i s => pwm_sample_plays (Z.of_nat (length samples))
                             sample_rate num_cores i s Hrate) 0) w3.
  play_step (plays_emit (EvStdout MsgProgressDone)) w4.
  rewrite stop_workers_log. eexists. split; [reflexivity|].
  cbn [running now log]. split; [reflexivity|]. split; [lia|].
  rewrite Hlog2, Hlog1, Hlog0, Hlog. cbn [app]. now rewrite <- !app_assoc.
Qed.

(** *** Projections of the log *)

Lemma active_stores_app l1 l2 :
  active_stores (l1 ++ l2) = active_stores l1 ++ active_stores l2.
Proof.
  induction l1 as [|e l1 IH]; [reflexivity|].
  destruct e; cbn [app active_stores]; rewrite IH; reflexivity.
Qed.

Lemma duty_stores_app l1 l2 :
  duty_stores (l1 ++ l2) = duty_stores l1 ++ duty_stores l2.
Proof.
  induction l1 as [|e l1 IH]; [reflexivity|].
  destruct e; cbn [app duty_stores]; rewrite IH; reflexivity.
Qed.

Lemma worker_lifecycle_app l1 l2 :
  worker_lifecycle (l1 ++ l2) = worker_lifecycle l1 ++ worker_lifecycle l2.
Proof. apply filter_app. Qed.

(** A projection of a loop's log, worker by worker. *)
Lemma flat_map_projection {B} (proj : list event -> list B)
    (evs : Z -> list event) (f : Z -> list B) l :
  (forall l1 l2, proj (l1 ++ l2) = proj l1 ++ proj l2) ->
  proj [] = [] ->
  (forall i, proj (evs i) = f i) ->
  proj (flat_map evs l) = flat_map f l.
Proof.
  intros Happ Hnil Hevs. induction l as [|i l IH]; cbn [flat_map].
  - exact Hnil.
  - now rewrite Happ, Hevs, IH.
Qed.

Lemma samples_log_projection {B} (proj : list event -> list B)
    (per_sample : Z -> Z -> list event) (f : Z -> list B) samples :
  (forall l1 l2, proj (l1 ++ l2) = proj l1 ++ proj l2) ->
  proj [] = [] ->
  (forall i sample, proj (per_sample i sample) = f sample) ->
  forall i, proj (samples_log per_sample samples i) = flat_map f samples.
Proof.
  intros Happ Hnil Hper.
  induction samples as [|sample samples IH]; intros i;
    cbn [samples_log flat_map].
  - exact Hnil.
  - now rewrite Happ, Hper, IH.
Qed.

Lemma combine_set_active n active : forall lo,
  combine (count_from n lo) (set_active n lo active)
  = map (fun j => (j, if j <? active then 1 else 0)) (count_from n lo).
Proof.
  induction n as [|n IH]; intros lo; cbn [count_from set_active combine map].
  - reflexivity.
  - now rewrite IH.
Qed.

Lemma progress_log_silent {B} (proj : list event -> list B) m (c : bool) :
  proj [] = [] -> proj [EvStdout m] = [] ->
  proj (if c then [EvStdout m] else []) = [].
Proof. intros Hnil Hm. now destruct c. Qed.

Lemma am_sample_active num_samples sample_rate num_cores i sample :
  active_stores (am_sample_log num_samples sample_rate num_cores i sample)
  = combine (count_from (Z.to_nat num_cores) 0)
      (am_active_flags sample num_cores).
Proof.
  unfold am_sample_log, am_active_flags. rewrite combine_set_active.
  rewrite !active_stores_app.
  rewrite (progress_log_silent active_stores) by reflexivity.
  cbn [active_stores app]. rewrite app_nil_r.
  induction (count_from (Z.to_nat num_cores) 0) as [|j l IH];
    cbn [map active_stores]; [reflexivity|]. now rewrite IH.
Qed.

Lemma am_sample_lifecycle num_samples sample_rate num_cores i sample :
  worker_lifecycle (am_sample_log num_samples sample_rate num_cores i sample)
  = [].
Proof.
  unfold am_sample_log. rewrite !worker_lifecycle_app.
  rewrite (progress_log_silent worker_lifecycle) by reflexivity.
  cbn [worker_lifecycle filter is_worker_lifecycle app].
  rewrite app_nil_r.
  induction (count_from (Z.to_nat num_cores) 0) as [|j l IH];
    [reflexivity|exact IH].
Qed.

Lemma pwm_sample_active num_samples sample_rate num_cores i sample :
  active_stores (pwm_sample_log num_samples sample_rate num_cores i sample)
  = [].
Proof.
  unfold pwm_sample_log. rewrite !active_stores_app.
  rewrite (progress_log_silent active_stores) by reflexivity.
  cbn [active_stores app]. rewrite app_nil_r.
  induction (count_from (Z.to_nat num_cores) 0) as [|j l IH];
    [reflexivity|exact IH].
Qed.

Lemma pwm_sample_duty num_samples sample_rate num_cores i sample :
  duty_stores (pwm_sample_log num_samples sample_rate num_cores i sample)
  = map (fun j => (j, Some sample)) (count_from (Z.to_nat num_cores) 0).
Proof.
  unfold pwm_sample_log. rewrite !duty_stores_app.
  rewrite (progress_log_silent duty_stores) by reflexivity.
  cbn [duty_stores app]. rewrite app_nil_r.
  induction (count_from (Z.to_nat num_cores) 0) as [|j l IH];
    cbn [map duty_stores]; [reflexivity|]. now rewrite IH.
Qed.

Lemma pwm_sample_lifecycle num_samples sample_rate num_cores i sample :
  worker_lifecycle (pwm_sample_log num_samples sample_rate num_cores i sample)
  = [].
Proof.
  unfold pwm_sample_log. rewrite !worker_lifecycle_app.
  rewrite (progress_log_silent worker_lifecycle) by reflexivity.
  cbn [worker_lifecycle filter is_worker_lifecycle app].
  rewrite app_nil_r.
  induction (count_from (Z.to_nat num_cores) 0) as [|j l IH];
    [reflexivity|exact IH].
Qed.





(** *** Sample rates under 10 *)

Lemma for_up_running body n :
  (forall i w u w', body i w = Some (u, w') -> running w' = running w) ->
  forall lo w u w',
  for_up n lo body w = Some (u, w') -> running w' = running w.
Proof.
  intros Hbody. induction n as [|n IH]; intros lo w u w' H;
    cbn [for_up] in H.
  - injection H as _ <-. reflexivity.
  - unfold bind in H. destruct (body lo w) as [[u1 w1]|] eqn:E;
      [|discriminate].
    rewrite (IH _ _ _ _ H). exact (Hbody _ _ _ _ E).
Qed.

Lemma create_workers_running modulation frequency num_cores w u w' :
  create_workers modulation frequency num_cores w = Some (u, w') ->
  running w' = running w.
Proof.
  apply for_up_running. clear. intros i [r t l] u w'.
  destruct (i <? MAX_CORES); [|discriminate].
  destruct modulation; unfold bind, emit, act, ret, record;
    cbn [running now log]; intros H; injection H as _ <-; reflexivity.
Qed.

(** The first sample already reaches the division of the progress
    indicator. *)
Lemma play_samples_divides_by_zero (stores : Z -> Z -> M world unit)
    (evs : Z -> Z -> list event) num_samples sample_rate period samples w :
  (forall i sample w0,
     stores i sample w0
     = Some (tt, mkWorld (running w0) (now w0) (log w0 ++ evs i sample))) ->
  Z.quot sample_rate 10 = 0 -> samples <> [] -> running w <> 0 ->
  play_samples samples 0
    (fun i sample =>
       emit EvMutexLock ;;
       stores i sample ;;
       emit EvMutexUnlock ;;
       progress i num_samples sample_rate ;;
       nanosleep period) w
  = None.
Proof.
  intros Hstores Hq Hs Hw. destruct samples as [|sample rest];
    [contradiction|].
  cbn [play_samples]. unfold bind at 1, gets.
  destruct (Z.eqb_spec (running w) 0); [contradiction|].
  unfold bind at 1. unfold bind at 1, emit at 1, act.
  unfold bind at 1. rewrite Hstores.
  unfold bind at 1, emit at 1, act.
  unfold bind at 1, progress. rewrite Hq. reflexivity.
Qed.

(** X25.  Both players divide by zero when the sample rate lies
    strictly between -10 and 10 and there is a sample to play: at rate 0
    in the sample period, otherwise in the progress indicator
    [i % (sample_rate / 10)] of the first sample. *)
Theorem play_wav_low_sample_rate (samples : list Z)
    (sample_rate num_cores : Z) (w : world) :
  -10 < sample_rate < 10 -> samples <> [] -> running w <> 0 ->
  play_wav_am samples sample_rate num_cores w = None
  /\ play_wav_pwm samples sample_rate num_cores w = None.
Proof.
  intros Hrate Hs Hw.
  assert (Hq : Z.quot sample_rate 10 = 0)
    by (Z.to_euclidean_division_equations; lia).
  split.
  - unfold play_wav_am. unfold bind at 1, emit at 1, act.
    unfold bind at 1.
    destruct (create_workers MOD_AM 8000 num_cores _) as [[[] w2]|] eqn:E;
      [|reflexivity].
    apply create_workers_running in E. cbn [running record] in E.
    destruct (sample_rate =? 0); [reflexivity|].
    unfold bind at 1.
    rewrite (play_samples_divides_by_zero
               (fun i sample =>
                  for_up (Z.to_nat num_cores) 0 (fun j =>
                    emit (EvActive j
                            (if j <? sample_to_cores sample num_cores
                             then 1 else 0))))
               (fun i sample =>
                  flat_map
                    (fun j =>
                       [EvActive j
                          (if j <? sample_to_cores sample num_cores
                           then 1 else 0)])
                    (count_from (Z.to_nat num_cores) 0)));
      [reflexivity| |exact Hq|exact Hs|congruence].
    intros i sample w0. apply for_up_emits. reflexivity.
  - unfold play_wav_pwm. unfold bind at 1, emit at 1, act.
    unfold bind at 1.
    destruct (create_workers MOD_PWM sample_rate num_cores _)
      as [[[] w2]|] eqn:E; [|reflexivity].
    apply create_workers_running in E. cbn [running record] in E.
    destruct (sample_rate =? 0); [reflexivity|].
    unfold bind at 1.
    rewrite (play_samples_divides_by_zero
               (fun i sample =>
                  for_up (Z.to_nat num_cores) 0 (fun j =>
                    emit (EvDutyCycle j (Some sample))))
               (fun i sample =>
                  flat_map (fun j => [EvDutyCycle j (Some sample)])
                    (count_from (Z.to_nat num_cores) 0)));
      [reflexivity| |exact Hq|exact Hs|congruence].
    intros i sample w0. apply for_up_emits. reflexivity.
Qed.

Lemma play_wav_low_sample_rate_witness :
  play_wav_am [100] 9 4 (initial_world 0) = None
  /\ play_wav_pwm [100] 9 4 (initial_world 0) = None.
Proof.
  apply (play_wav_low_sample_rate [100] 9 4 (initial_world 0)).
  - lia.
  - discriminate.
  - discriminate.
Defined.

(** *** The command line *)

Lemma plays_if_emit (c : bool) e :
  plays (if c then emit e else ret tt) (if c then [e] else []) 0.
Proof. destruct c; [apply plays_emit|apply plays_ret]. Qed.

Lemma plays_sleep dt :
  plays (act (fun w => mkWorld (running w) (now w + dt) (log w))) [] dt.
Proof.
  intros [r t l] Hw. eexists. split; [reflexivity|]. cbn.
  rewrite app_nil_r. repeat split.
Qed.

Lemma plays_complaint (m : option message) :
  plays (match m with Some e => emit (EvStderr e) | None => ret tt end)
    (match m with Some e => [EvStderr e] | None => [] end) 0.
Proof. destruct m; [apply plays_emit|apply plays_ret]. Qed.

(** A return value that is not negative comes with the header, the
    samples and no message. *)
Lemma load_wav_file_loaded fs malloc_ok filename :
  let l := load_wav_file fs malloc_ok filename in
  0 <= ret_value l ->
  complaint l = None
  /\ (exists header, header_read l = Some header)
  /\ (exists samples, samples_read l = Some samples).
Proof.
  unfold load_wav_file. cbv zeta.
  repeat match goal with
  | |- context [match ?c with _ => _ end] => destruct c
  end; cbn [ret_value complaint header_read samples_read]; intros H;
    try lia; repeat split; eexists; reflexivity.
Qed.

(** The checks of [main] before the file is opened. *)
Lemma wav_args_ok_checks argv :
  let argc := Z.of_nat (length argv) in
  let arg (i : nat) := nth i argv EmptyString in
  let num_cores := if argc >=? 3 then Tone.atoi (arg 2%nat)
                   else DEFAULT_CORES in
  wav_args_ok argv
  = negb (argc <? 2)
    && negb ((argc >=? 3) && ((num_cores <? 1) || (num_cores >? MAX_CORES)))
    && negb ((argc >=? 4)
             && negb (strcasecmp_eq (arg 3%nat) "am")
             && negb (strcasecmp_eq (arg 3%nat) "pwm")).
Proof.
  intros argc arg num_cores. unfold wav_args_ok, num_cores. cbv zeta.
  fold argc. fold (arg 2%nat). fold (arg 3%nat).
  set (n := Tone.atoi (arg 2%nat)).
  rewrite !Z.geb_leb, Z.gtb_ltb. unfold MAX_CORES, DEFAULT_CORES.
  destruct (Z.leb_spec 2 argc), (Z.ltb_spec argc 2),
    (Z.leb_spec 3 argc), (Z.ltb_spec argc 3),
    (Z.leb_spec 4 argc), (Z.ltb_spec argc 4); try lia;
    cbv beta iota;
    destruct (Z.leb_spec 1 n), (Z.ltb_spec n 1),
      (Z.leb_spec n 32), (Z.ltb_spec 32 n); try lia;
    destruct (strcasecmp_eq (arg 3%nat) "am"),
      (strcasecmp_eq (arg 3%nat) "pwm"); reflexivity.
Qed.

Ltac quiet_log :=
  repeat match goal with
  | H : log _ = _ |- _ => rewrite H; clear H
  end;
  rewrite !worker_lifecycle_app;
  cbn [worker_lifecycle filter is_worker_lifecycle];
  rewrite ?app_nil_r; reflexivity.

(** X26.  Exit status of wav_player: with arguments it rejects, or a
    file that [load_wav_file] refuses, [main] returns 1 without starting
    a thread or letting time pass; with arguments it accepts, a file
    that loads and a sample rate of at least 10, it returns 0 with
    [running] cleared. *)
Theorem wav_main_exit_code (fs : string -> option (list Z))
    (malloc_ok : bool) (argv : list string) (w : world) :
  running w <> 0 ->
  let l := load_wav_file fs malloc_ok (nth 1 argv EmptyString) in
  (wav_args_ok argv = false \/ ret_value l < 0 ->
   exists w',
     main fs malloc_ok argv w = Some (1, w')
     /\ running w' = running w
     /\ now w' = now w
     /\ worker_lifecycle (log w') = worker_lifecycle (log w))
  /\ (wav_args_ok argv = true -> 0 <= ret_value l ->
      (forall header, header_read l = Some header ->
                      10 <= s32 (sample_rate header)) ->
      exists w', main fs malloc_ok argv w = Some (0, w') /\ running w' = 0).
Proof.
  intros Hw l.
  pose proof (wav_args_ok_checks argv) as Hok. cbv zeta in Hok.
  remember (main fs malloc_ok argv w) as result eqn:Hres.
  symmetry in Hres. revert Hres.
  unfold main. cbv zeta. fold l.
  set (argc := Z.of_nat (length argv)) in *.
  set (num_cores := if argc >=? 3 then _ else _) in *.
  set (am := strcasecmp_eq _ "am") in *.
  set (pwm := strcasecmp_eq _ "pwm") in *.
  play_step (plays_emit (EvSignalInstall Tone.SIGINT)) w1.
  play_step (plays_emit (EvSignalInstall Tone.SIGTERM)) w2.
  destruct (argc <? 2) eqn:E2.
  { play_step (plays_emit (EvStdout MsgUsage)) w3. intros <-.
    split; [intros _|intros H; rewrite Hok in H; discriminate H].
    eexists. split; [reflexivity|]. split; [congruence|].
    split; [lia|]. quiet_log. }
  destruct ((argc >=? 3) && ((num_cores <? 1) || (num_cores >? MAX_CORES)))
    eqn:E3.
  { play_step (plays_emit (EvStderr MsgCoresRange)) w3. intros <-.
    split; [intros _|intros H; rewrite Hok in H; discriminate H].
    eexists. split; [reflexivity|]. split; [congruence|].
    split; [lia|]. quiet_log. }
  destruct ((argc >=? 4) && negb am && negb pwm) eqn:E4.
  { play_step (plays_emit (EvStderr MsgModulation)) w3. intros <-.
    split; [intros _|intros H; rewrite Hok in H; discriminate H].
    eexists. split; [reflexivity|]. split; [congruence|].
    split; [lia|]. quiet_log. }
  play_step (plays_complaint (complaint l)) w3.
  destruct (Z.ltb_spec (ret_value l) 0) as [Hneg|Hpos].
  { intros <-. split; [intros _|intros _ H; lia].
    eexists. split; [reflexivity|]. split; [congruence|].
    split; [lia|].
    repeat match goal with
    | H : log _ = _ |- _ => rewrite H; clear H
    end.
    rewrite !worker_lifecycle_app. destruct (complaint l);
      cbn [worker_lifecycle filter is_worker_lifecycle];
      rewrite ?app_nil_r; reflexivity. }
  destruct (load_wav_file_loaded fs malloc_ok (nth 1 argv EmptyString) Hpos)
    as (_ & (header & Hh) & (samples & Hs)).
  fold l in Hh, Hs. rewrite Hh, Hs.
  assert (Hcores : 0 <= num_cores <= MAX_CORES).
  { unfold num_cores in *. unfold MAX_CORES, DEFAULT_CORES in *.
    destruct (argc >=? 3); [|lia]. cbn [andb] in E3.
    apply orb_false_iff in E3. destruct E3 as [Ea Eb].
    rewrite Z.gtb_ltb in Eb. lia. }
  intros Hres.
  split; [intros [H|H]; [rewrite Hok in H; discriminate H|lia]|].
  intros _ _ Hrate. specialize (Hrate header eq_refl).
  revert Hres.
  play_step (plays_emit (EvStdout (MsgLoading (nth 1 argv EmptyString)))) w4.
  play_step (plays_emit (EvStdout (MsgWavInfo header))) w5.
  play_step (plays_if_emit (sample_rate header >? MAX_SAMPLE_RATE)
               (EvStderr (MsgSampleRateWarning (sample_rate header)))) w6.
  play_step (plays_if_emit (channels header =? 2)
               (EvStdout MsgConvertingStereo)) w7.
  destruct (if channels header =? 2
            then stereo_to_mono samples (ret_value l)
            else (samples, ret_value l)) as [mono num_samples].
  play_step (plays_emit (EvStdout MsgWarningBanner)) w8.
  play_step (plays_emit (EvSleep 2)) w9.
  play_step (plays_sleep 2000000000) w10.
  unfold bind at 1.
  destruct ((argc >=? 4) && am).
  - destruct (play_wav_am_log (firstn (Z.to_nat num_samples) mono)
                (s32 (sample_rate header)) num_cores w10 Hcores Hrate)
      as (w11 & Hr11 & Hrun11 & _); [congruence|].
    rewrite Hr11. unfold bind, emit, act, ret. intros <-. eexists.
    split; [reflexivity|]. exact Hrun11.
  - destruct (play_wav_pwm_log (firstn (Z.to_nat num_samples) mono)
                (s32 (sample_rate header)) num_cores w10 Hcores Hrate)
      as (w11 & Hr11 & Hrun11 & _); [congruence|].
    rewrite Hr11. unfold bind, emit, act, ret. intros <-. eexists.
    split; [reflexivity|]. exact Hrun11.
Qed.

Lemma wav_main_exit_code_witness :
  (exists w',
     main (fun _ => None) true ["wav_player"%string; "missing.wav"%string]
       (initial_world 0) = Some (1, w')
     /\ running w' = 1
     /\ now w' = 0
     /\ worker_lifecycle (log w') = [])
  /\ (exists w',
        main
          (fun _ =>
             Some [82; 73; 70; 70; 40; 0; 0; 0; 87; 65; 86; 69;
                   102; 109; 116; 32; 16; 0; 0; 0; 1; 0; 1; 0;
                   64; 31; 0; 0; 128; 62; 0; 0; 2; 0; 16; 0;
                   100; 97; 116; 97; 4; 0; 0; 0; 255; 127; 0; 128])
          true
          ["wav_player"%string; "tone.wav"%string; "2"%string; "AM"%string]
          (initial_world 0) = Some (0, w')
        /\ running w' = 0).
Proof.
  split.
  - apply (proj1 (wav_main_exit_code (fun _ => None) true
                    ["wav_player"%string; "missing.wav"%string]
                    (initial_world 0) ltac:(discriminate))).
    right. vm_compute. reflexivity.
  - apply (proj2 (wav_main_exit_code _ true
                    ["wav_player"%string; "tone.wav"%string; "2"%string;
                     "AM"%string]
                    (initial_world 0) ltac:(discriminate))).
    + vm_compute. reflexivity.
    + vm_compute. discriminate.
    + intros header Hh. vm_compute in Hh. injection Hh as <-.
      vm_compute. discriminate.
Defined.

End WavPlayback.
